(** * ARGO FloatChat query-resolution pipeline: a shallow embedding

    The development follows the Python sources
      pipeline/backend/app/services/intelligent_sql_generator.py
      pipeline/backend/app/services/query_classifier.py
      pipeline/backend/app/services/rag_pipeline.py
    and states the properties of the specification over them.

    Modelling conventions.
    - A Python [str] is a list of code points; only code points below 256
      (Latin-1) are represented, one [ascii] each.  The degree sign is
      code point 176.
    - [re] patterns are terms of [Re.regex] run by a backtracking matcher
      with the search / findall / sub drivers of the [re] module.
    - Python floats are an abstract interface ([PyFloat]) with an exact
      decimal instance used to evaluate examples.
    - External collaborators (LLM gateway, relational store, vector
      store, geographic validator, visualisation builder) are functions
      of an environment record; a call may raise. *)

From Stdlib Require Import Ascii String ZArith QArith Lia Bool.
From stdpp Require Import gmap strings list.
Close Scope Q_scope.

(* ================================================================== *)
(** * Python strings (Latin-1 code points) *)
(* ================================================================== *)

Module PyStr.

Abbreviation str := (list ascii).

(** A string literal. *)
Definition L (s : string) : str := list_ascii_of_string s.

Definition code (c : ascii) : nat := nat_of_ascii c.

Definition in_range (lo hi : nat) (c : ascii) : bool :=
  (lo <=? code c) && (code c <=? hi).

(** The degree sign U+00B0. *)
Definition deg : ascii := "176"%char.
(** The double quote U+0022 and the line feed U+000A. *)
Definition dquote : ascii := "034"%char.
Definition nl : ascii := "010"%char.

(** [str.lower()] on Latin-1: A-Z and the letters U+00C0..U+00DE other
    than the multiplication sign move up by 32. *)
Definition lower_char (c : ascii) : ascii :=
  if in_range 65 90 c || (in_range 192 222 c && negb (code c =? 215))
  then ascii_of_nat (code c + 32) else c.

(** [str.upper()] on the code points whose upper case stays one Latin-1
    code point (a-z, U+00E0..U+00FE other than the division sign). *)
Definition upper_char (c : ascii) : ascii :=
  if in_range 97 122 c || (in_range 224 254 c && negb (code c =? 247))
  then ascii_of_nat (code c - 32) else c.

Definition lower (s : str) : str := map lower_char s.
Definition upper (s : str) : str := map upper_char s.

Definition is_digit (c : ascii) : bool := in_range 48 57 c.

(** [str.isspace()] / [\s]: the Latin-1 white space. *)
Definition is_space (c : ascii) : bool :=
  in_range 9 13 c || in_range 28 32 c || (code c =? 133) || (code c =? 160).

(** [\w] for [str] patterns: alphanumeric (alphabetic, decimal, digit or
    numeric) code points and the underscore. *)
Definition is_word (c : ascii) : bool :=
  in_range 48 57 c || in_range 65 90 c || in_range 97 122 c || (code c =? 95)
  || (code c =? 170) || in_range 178 179 c || (code c =? 181)
  || in_range 185 186 c || in_range 188 190 c
  || in_range 192 214 c || in_range 216 246 c || in_range 248 255 c.

Definition eqc (a b : ascii) : bool := Ascii.eqb a b.

Fixpoint str_eqb (a b : str) : bool :=
  match a, b with
  | [], [] => true
  | x :: a', y :: b' => eqc x y && str_eqb a' b'
  | _, _ => false
  end.

(** [s.startswith(p)] *)
Fixpoint starts_with (p s : str) : bool :=
  match p, s with
  | [], _ => true
  | x :: p', y :: s' => eqc x y && starts_with p' s'
  | _ :: _, [] => false
  end.

(** [p in s] *)
Fixpoint contains (p s : str) : bool :=
  starts_with p s || match s with [] => false | _ :: t => contains p t end.

(** [any(k in s for k in ks)] *)
Definition any_in (ks : list str) (s : str) : bool :=
  existsb (fun k => contains k s) ks.

Fixpoint lstrip (s : str) : str :=
  match s with
  | c :: t => if is_space c then lstrip t else s
  | [] => []
  end.

Definition rstrip (s : str) : str := rev (lstrip (rev s)).

(** [s.strip()] *)
Definition strip (s : str) : str := rstrip (lstrip s).

(** [sep.join(parts)] *)
Fixpoint join (sep : str) (parts : list str) : str :=
  match parts with
  | [] => []
  | [p] => p
  | p :: rest => p ++ sep ++ join sep rest
  end.

(** [s.split(c)] for a one-character separator. *)
Fixpoint split_on (c : ascii) (s : str) : list str :=
  match s with
  | [] => [[]]
  | x :: t =>
      if eqc x c then [] :: split_on c t
      else match split_on c t with
           | [] => [[x]]
           | h :: r => (x :: h) :: r
           end
  end.

(** [s.replace(old, new)] for a non-empty [old]: left to right, matches
    do not overlap.  [skip] counts the characters of a match still to be
    dropped. *)
Fixpoint replace_from (old new : str) (skip : nat) (s : str) : str :=
  match s with
  | [] => []
  | c :: t =>
      match skip with
      | S k => replace_from old new k t
      | O => if starts_with old s
             then new ++ replace_from old new (length old - 1) t
             else c :: replace_from old new 0 t
      end
  end.

Definition replace (old new s : str) : str := replace_from old new 0 s.

(** Decimal digits of a natural number, most significant first. *)
Fixpoint digits_fuel (fuel : nat) (n : N) (acc : str) : str :=
  match fuel with
  | O => acc
  | S f =>
      let d := ascii_of_N (48 + N.modulo n 10) in
      if (n <? 10)%N then d :: acc else digits_fuel f (N.div n 10) (d :: acc)
  end.

Definition str_of_N (n : N) : str := digits_fuel (S (N.to_nat (N.log2 n))) n [].

(** [str(z)] for an [int]. *)
Definition str_of_Z (z : Z) : str :=
  match z with
  | Zneg p => "-"%char :: str_of_N (Npos p)
  | _ => str_of_N (Z.to_N z)
  end.

(** Digits in groups of three from the right, separated by commas. *)
Fixpoint group3 (fuel : nat) (rev_digits : str) : str :=
  match fuel, rev_digits with
  | S f, a :: b :: c :: (d :: _) as more =>
      a :: b :: c :: ","%char :: group3 f (skipn 3 rev_digits)
  | _, _ => rev_digits
  end.
Definition comma_N (n : N) : str :=
  let d := rev (str_of_N n) in rev (group3 (length d) d).

(** [format(z, ",")] for an int. *)
Definition comma_Z (z : Z) : str :=
  (if (z <? 0)%Z then L "-" else []) ++ comma_N (Z.abs_N z).

(** [int(s)] on a run of ASCII digits. *)
Definition Z_of_digits (s : str) : Z :=
  fold_left (fun acc c => (acc * 10 + Z.of_nat (code c - 48))%Z) s 0%Z.

End PyStr.

(* ================================================================== *)
(** * Regular expressions: the fragment of Python's [re] the sources use *)
(* ================================================================== *)

Module Re.
Import PyStr.

(** Flags: [re.IGNORECASE], [re.DOTALL]. *)
Record flags := { ic : bool; dotall : bool }.
Definition plain : flags := {| ic := false; dotall := false |}.
Definition icase : flags := {| ic := true; dotall := false |}.

(** Members of a character set [[...]]. *)
Inductive citem :=
| CChr (c : ascii)
| CRng (lo hi : ascii)
| CDigit
| CSpace
| CWord.

Inductive regex :=
| Eps
| Chr (c : ascii)
| Any
| Cls (items : list citem)
| Seq (a b : regex)
| Alt (a b : regex)
| Star (greedy : bool) (a : regex)
| Grp (i : nat) (a : regex)
| WordB
| Eos.

(** Derived forms. *)
Definition Plus (g : bool) (a : regex) : regex := Seq a (Star g a).
Definition Opt (a : regex) : regex := Alt a Eps.
Definition Digit : regex := Cls [CDigit].
Definition Space : regex := Cls [CSpace].
Definition Word : regex := Cls [CWord].
Fixpoint Rep (n : nat) (a : regex) : regex :=
  match n with O => Eps | S k => Seq a (Rep k a) end.
(** A literal text. *)
Fixpoint Lit (s : str) : regex :=
  match s with [] => Eps | c :: t => Seq (Chr c) (Lit t) end.
Definition lit (s : string) : regex := Lit (L s).
Fixpoint Seqs (rs : list regex) : regex :=
  match rs with [] => Eps | [r] => r | r :: t => Seq r (Seqs t) end.
Fixpoint Alts (rs : list regex) : regex :=
  match rs with [] => Eps | [r] => r | r :: t => Alt r (Alts t) end.

(** A matcher state: the character before the position (for [\b]), the
    text still to read, the groups captured so far (latest first). *)
Record mstate := { prev : option ascii; rest : str; caps : list (nat * str) }.

Definition chr_match (fl : flags) (c x : ascii) : bool :=
  if ic fl then eqc (lower_char x) (lower_char c) else eqc x c.

Definition item_match (x : ascii) (it : citem) : bool :=
  match it with
  | CChr c => eqc x c
  | CRng lo hi => in_range (code lo) (code hi) x
  | CDigit => is_digit x
  | CSpace => is_space x
  | CWord => is_word x
  end.

Definition cls_match (fl : flags) (items : list citem) (x : ascii) : bool :=
  existsb (item_match x) items
  || (ic fl && (existsb (item_match (lower_char x)) items
                || existsb (item_match (upper_char x)) items)).

Definition any_match (fl : flags) (x : ascii) : bool :=
  dotall fl || negb (eqc x nl).

Definition is_word_opt (o : option ascii) : bool :=
  match o with Some c => is_word c | None => false end.

Definition at_boundary (s : mstate) : bool :=
  xorb (is_word_opt (prev s)) (is_word_opt (head (rest s))).

Definition at_end (s : mstate) : bool :=
  match rest s with
  | [] => true
  | [c] => eqc c nl
  | _ => false
  end.

(** Read one character accepted by [p]. *)
Definition step (p : ascii -> bool) (k : mstate -> option mstate) (s : mstate)
  : option mstate :=
  match rest s with
  | x :: t => if p x then k {| prev := Some x; rest := t; caps := caps s |} else None
  | [] => None
  end.

(** The text read between two states. *)
Definition consumed (s s' : mstate) : str :=
  firstn (length (rest s) - length (rest s')) (rest s).

(** The loop of a star over a body matcher [ma]: at most [n] further
    iterations, each of which must read something.  A greedy star
    prefers one more iteration, a lazy one prefers to stop. *)
Fixpoint star_loop (g : bool)
  (ma : (mstate -> option mstate) -> mstate -> option mstate)
  (k : mstate -> option mstate) (n : nat) (s : mstate) {struct n}
  : option mstate :=
  match n with
  | O => k s
  | S n' =>
      let more :=
        ma (fun s' => if length (rest s') <? length (rest s)
                      then star_loop g ma k n' s' else None) in
      if g
      then match more s with Some r => Some r | None => k s end
      else match k s with Some r => Some r | None => more s end
  end.

(** The backtracking matcher, in continuation-passing style: [m fl r k s]
    matches [r] at [s] and hands the state reached to [k]; alternatives
    are tried in order. *)
Fixpoint m (fl : flags) (r : regex) (k : mstate -> option mstate) (s : mstate)
  {struct r} : option mstate :=
  match r with
  | Eps => k s
  | Chr c => step (chr_match fl c) k s
  | Any => step (any_match fl) k s
  | Cls items => step (cls_match fl items) k s
  | Seq a b => m fl a (m fl b k) s
  | Alt a b => match m fl a k s with Some r => Some r | None => m fl b k s end
  | Star g a => star_loop g (m fl a) k (length (rest s)) s
  | Grp i a =>
      m fl a (fun s' => k {| prev := prev s'; rest := rest s';
                             caps := (i, consumed s s') :: caps s' |}) s
  | WordB => if at_boundary s then k s else None
  | Eos => if at_end s then k s else None
  end.

(** A match object: where it starts, group 0, the groups, what follows. *)
Record rmatch := { m_start : nat; m_text : str; m_caps : list (nat * str); m_rest : str }.

(** [match.group(i)] for a group that took part in the match. *)
Definition group (i : nat) (x : rmatch) : option str :=
  snd <$> find (fun p => fst p =? i) (m_caps x).

(** [match.group(i)] as [re.findall] reports it: [''] when unset. *)
Definition group_or_empty (i : nat) (x : rmatch) : str :=
  default [] (group i x).

(** Match anchored at the current position. *)
Definition match_here (fl : flags) (r : regex) (pv : option ascii) (s : str)
  (pos : nat) : option rmatch :=
  match m fl r Some {| prev := pv; rest := s; caps := [] |} with
  | Some s' => Some {| m_start := pos;
                       m_text := firstn (length s - length (rest s')) s;
                       m_caps := caps s'; m_rest := rest s' |}
  | None => None
  end.

(** Length of the match anchored at the current position. *)
Definition match_len (fl : flags) (r : regex) (pv : option ascii) (s : str)
  : option nat :=
  match m fl r Some {| prev := pv; rest := s; caps := [] |} with
  | Some s' => Some (length s - length (rest s'))
  | None => None
  end.

(** [re.search]: the leftmost position with a match. *)
Fixpoint search_from (fl : flags) (r : regex) (pv : option ascii) (s : str)
  (pos : nat) : option rmatch :=
  match match_here fl r pv s pos with
  | Some x => Some x
  | None =>
      match s with
      | [] => None
      | c :: t => search_from fl r (Some c) t (S pos)
      end
  end.

Definition search (fl : flags) (r : regex) (s : str) : option rmatch :=
  search_from fl r None s 0.

Definition last_or (pv : option ascii) (t : str) : option ascii :=
  match last t with Some c => Some c | None => pv end.

(** All matches, left to right, none overlapping ([re.finditer]).  After
    an empty match the scan moves on by one character. *)
Fixpoint finditer_fuel (fuel : nat) (fl : flags) (r : regex)
  (pv : option ascii) (s : str) (pos : nat) : list rmatch :=
  match fuel with
  | O => []
  | S f =>
      match match_here fl r pv s pos with
      | Some x =>
          match length (m_text x) with
          | O => x :: match s with
                      | [] => []
                      | c :: t => finditer_fuel f fl r (Some c) t (S pos)
                      end
          | n => x :: finditer_fuel f fl r (last_or pv (m_text x)) (m_rest x) (pos + n)
          end
      | None =>
          match s with
          | [] => []
          | c :: t => finditer_fuel f fl r (Some c) t (S pos)
          end
      end
  end.

Definition finditer (fl : flags) (r : regex) (s : str) : list rmatch :=
  finditer_fuel (S (length s)) fl r None s 0.

(** [re.findall] on a pattern with [n] groups: the whole match when
    there is no group, else the groups' texts in order. *)
Definition findall (fl : flags) (r : regex) (n : nat) (s : str) : list (list str) :=
  map (fun x => match n with
                | O => [m_text x]
                | _ => map (fun i => group_or_empty i x) (seq 1 n)
                end) (finditer fl r s).

(** [re.sub(r, repl, s)] for a replacement text without group
    references, driven by any anchored matcher [mt] that reports the
    length of the match at the position. *)
Fixpoint sub_fuel (fuel : nat) (mt : option ascii -> str -> option nat)
  (repl : str) (pv : option ascii) (s : str) : str :=
  match fuel with
  | O => s
  | S f =>
      match mt pv s with
      | Some (S n) =>
          repl ++ sub_fuel f mt repl (last_or pv (firstn (S n) s)) (skipn (S n) s)
      | Some O =>
          repl ++ match s with
                  | [] => []
                  | c :: t => c :: sub_fuel f mt repl (Some c) t
                  end
      | None =>
          match s with
          | [] => []
          | c :: t => c :: sub_fuel f mt repl (Some c) t
          end
      end
  end.

Definition sub_with (mt : option ascii -> str -> option nat) (repl s : str) : str :=
  sub_fuel (S (length s)) mt repl None s.

Definition sub (fl : flags) (r : regex) (repl s : str) : str :=
  sub_with (match_len fl r) repl s.

End Re.

(* ================================================================== *)
(** * Results, exceptions and Python floats *)
(* ================================================================== *)

Module Py.
Import PyStr.

(** The outcome of a call: a value, or a raised [Exception] carrying
    [str(e)]. *)
Inductive res (A : Type) : Type :=
| Ret (a : A)
| Raise (e : str).
Arguments Ret {A} a.
Arguments Raise {A} e.

#[global] Instance res_ret : MRet res := @Ret.
#[global] Instance res_bind : MBind res :=
  fun A B f x => match x with Ret a => f a | Raise e => Raise e end.
#[global] Instance res_fmap : FMap res :=
  fun A B f x => match x with Ret a => Ret (f a) | Raise e => Raise e end.

(** [try: body except Exception as e: handler(str(e))] *)
Definition try_except {A : Type} (body : res A) (handler : str -> A) : A :=
  match body with Ret a => a | Raise e => handler e end.

(** Characters that occur in the [repr] of a float: digits, the point,
    signs, the exponent mark, and the letters of [inf] and [nan]. *)
Definition float_char (c : ascii) : bool :=
  is_digit c || existsb (eqc c) (L ".-+einfa").

(** Python's [float], as far as the sources use it. *)
Class PyFloat := {
  F : Type;
  (** [float(s)] for a string; [None] stands for [ValueError]. *)
  fparse : str -> option F;
  (** [float(n)] for an int; [None] stands for [OverflowError]. *)
  fofZ : Z -> option F;
  (** The float nearest to the decimal literal [m * 10^-e]. *)
  flit : Z -> nat -> F;
  fneg : F -> F;
  fabs : F -> F;
  fadd : F -> F -> F;
  fsub : F -> F -> F;
  fmul : F -> F -> F;
  (** [x <= y], [x < y] and [x == y] *)
  fleb : F -> F -> bool;
  fltb : F -> F -> bool;
  feqb : F -> F -> bool;
  (** [repr(x)], also what [str(x)] and [f"{x}"] give. *)
  frepr : F -> str;
  (** [format(x, ".nf")] *)
  ffix : nat -> F -> str;
  (** [format(x, ",")] *)
  fcomma : F -> str;
  (** [round(x, n)] *)
  fround : nat -> F -> F;
  (** [int(x)]; it raises for an infinity and for a NaN. *)
  ftrunc : F -> res Z
}.

(** The one fact about [repr] the proofs use. *)
Definition repr_lawful (PF : PyFloat) : Prop :=
  forall x : F, forallb float_char (frepr x) = true.

End Py.

(* ================================================================== *)
(** * Python values: JSON data, result rows, search hits *)
(* ================================================================== *)

Module PyVal.
Import PyStr Py.

(** The values the pipeline handles, over the type [A] of the floats.
    A dictionary keeps its insertion order.  [PObj] stands for an object
    of another kind (a date, a timedelta) that takes part in no
    arithmetic and no formatting with a specification: what [str] and
    [repr] print for it and, when it has one, its [days] attribute. *)
#[warnings="-register-all"]
Inductive pyval_of (A : Type) :=
| PNone
| PBool (b : bool)
| PInt (z : Z)
| PFloat (x : A)
| PStr (s : str)
| PList (l : list (pyval_of A))
| PDict (d : list (str * pyval_of A))
| PObj (as_str as_repr : str) (days : option Z).
Arguments PNone {A}.
Arguments PBool {A} b.
Arguments PInt {A} z.
Arguments PFloat {A} x.
Arguments PStr {A} s.
Arguments PList {A} l.
Arguments PDict {A} d.
Arguments PObj {A} as_str as_repr days.

(** [float(v)], with the class of the exception when it raises. *)
Inductive float_conv_of (A : Type) :=
| FOk (x : A)
| FValueError (e : str)
| FTypeError (e : str)
| FOverflowError (e : str).
Arguments FOk {A} x.
Arguments FValueError {A} e.
Arguments FTypeError {A} e.
Arguments FOverflowError {A} e.

Abbreviation pyval := (pyval_of F).
Abbreviation dict := (list (str * pyval_of F)).
Abbreviation float_conv := (float_conv_of F).

Section Values.
Context {PF : PyFloat}.

(** [d.get(k)] / [k in d] *)
Fixpoint get (k : str) (d : dict) : option pyval :=
  match d with
  | [] => None
  | (k', v) :: t => if str_eqb k' k then Some v else get k t
  end.

Definition has_key (k : str) (d : dict) : bool := bool_decide (is_Some (get k d)).

(** [d.get(k, dflt)] *)
Definition get_or (k : str) (dflt : pyval) (d : dict) : pyval :=
  default dflt (get k d).

(** [d[k] = v]: replace in place, or append. *)
Fixpoint set (k : str) (v : pyval) (d : dict) : dict :=
  match d with
  | [] => [(k, v)]
  | (k', v') :: t => if str_eqb k' k then (k, v) :: t else (k', v') :: set k v t
  end.

Definition fzero : F := flit 0 0.

(** Truth value. *)
Definition truthy (v : pyval) : bool :=
  match v with
  | PNone => false
  | PBool b => b
  | PInt z => negb (z =? 0)%Z
  | PFloat x => negb (feqb x fzero)
  | PStr s => negb (str_eqb s [])
  | PList l => match l with [] => false | _ => true end
  | PDict d => match d with [] => false | _ => true end
  | PObj _ _ _ => true
  end.

(** [d.get(k)] as a condition: present and true. *)
Definition get_true (k : str) (d : dict) : bool :=
  match get k d with Some v => truthy v | None => false end.

Definition hex_digit (n : nat) : ascii :=
  ascii_of_nat (if n <? 10 then 48 + n else 87 + n).

(** One character inside [repr] of a string quoted with [q]. *)
Definition repr_char (q c : ascii) : str :=
  if eqc c q || eqc c "\"%char then ["\"%char; c]
  else if eqc c "009"%char then L "\t"
  else if eqc c "010"%char then L "\n"
  else if eqc c "013"%char then L "\r"
  else if (code c <? 32) || in_range 127 160 c || (code c =? 173)
       then L "\x" ++ [hex_digit (code c / 16); hex_digit (code c mod 16)]
       else [c].

(** [repr(s)] of a string: single quotes unless the text has a single
    quote and no double quote. *)
Definition repr_str (s : str) : str :=
  let q := if existsb (eqc "'"%char) s && negb (existsb (eqc dquote) s)
           then dquote else "'"%char in
  q :: concat (map (repr_char q) s) ++ [q].

(** [repr(v)] *)
Fixpoint py_repr (v : pyval) : str :=
  match v with
  | PNone => L "None"
  | PBool b => if b then L "True" else L "False"
  | PInt z => str_of_Z z
  | PFloat x => frepr x
  | PStr s => repr_str s
  | PList l => L "[" ++ join (L ", ") (map py_repr l) ++ L "]"
  | PDict d =>
      L "{" ++ join (L ", ")
                 (map (fun kv => match kv with
                                 | (k, x) => repr_str k ++ L ": " ++ py_repr x
                                 end) d)
        ++ L "}"
  | PObj _ r _ => r
  end.

(** [str(v)], also what [f"{v}"] prints. *)
Definition py_str (v : pyval) : str :=
  match v with
  | PStr s => s
  | PObj s _ _ => s
  | _ => py_repr v
  end.

(** [len(v)]; [None] stands for [TypeError]. *)
Definition py_len (v : pyval) : option nat :=
  match v with
  | PStr s => Some (length s)
  | PList l => Some (length l)
  | PDict d => Some (length d)
  | _ => None
  end.

(** [type(v).__name__], for the messages of type errors. *)
Definition type_name (v : pyval) : str :=
  match v with
  | PNone => L "NoneType"
  | PBool _ => L "bool"
  | PInt _ => L "int"
  | PFloat _ => L "float"
  | PStr _ => L "str"
  | PList _ => L "list"
  | PDict _ => L "dict"
  | PObj _ _ _ => L "object"
  end.

Definition to_float (v : pyval) : float_conv :=
  match v with
  | PFloat x => FOk x
  | PInt z => match fofZ z with
              | Some x => FOk x
              | None => FOverflowError (L "int too large to convert to float")
              end
  | PBool b => FOk (flit (if b then 1 else 0) 0)
  | PStr s => match fparse s with
              | Some x => FOk x
              | None => FValueError (L "could not convert string to float: " ++ repr_str s)
              end
  | _ => FTypeError (L "float() argument must be a string or a real number, not '"
                       ++ type_name v ++ L "'")
  end.

Definition py_float (v : pyval) : res F :=
  match to_float v with
  | FOk x => Ret x
  | FValueError e | FTypeError e | FOverflowError e => Raise e
  end.

(** [isinstance(v, (int, float))] *)
Definition is_number (v : pyval) : bool :=
  match v with PBool _ | PInt _ | PFloat _ => true | _ => false end.

(** A number as a float, for arithmetic and comparison. *)
Definition as_float (v : pyval) : option F :=
  match v with
  | PFloat x => Some x
  | PInt z => fofZ z
  | PBool b => Some (flit (if b then 1 else 0) 0)
  | _ => None
  end.

(** A bool or an int as an int. *)
Definition as_int (v : pyval) : option Z :=
  match v with
  | PInt z => Some z
  | PBool b => Some (if b then 1 else 0)%Z
  | _ => None
  end.

(** [a == b] *)
Fixpoint py_eqb (a b : pyval) : bool :=
  match a, b with
  | PNone, PNone => true
  | PStr s, PStr t => str_eqb s t
  | PList l, PList l' =>
      (fix all2 (l : list pyval) (l' : list pyval) : bool :=
         match l, l' with
         | [], [] => true
         | x :: t, y :: t' => py_eqb x y && all2 t t'
         | _, _ => false
         end) l l'
  | PDict d, PDict d' =>
      (length d =? length d')
      && (fix sub (d : list (str * pyval)) : bool :=
            match d with
            | [] => true
            | (k, x) :: t =>
                match get k d' with
                | Some y => py_eqb x y && sub t
                | None => false
                end
            end) d
  | PObj s r _, PObj s' r' _ => str_eqb r r' && str_eqb s s'
  | PInt z, PInt z' => (z =? z')%Z
  | PBool b, PBool b' => Bool.eqb b b'
  | PInt z, PBool b | PBool b, PInt z => (z =? (if b then 1 else 0))%Z
  | _, _ =>
      match as_float a, as_float b with
      | Some x, Some y => feqb x y
      | _, _ => false
      end
  end.

(** [v == s] for a text [s]. *)
Definition is_str (s : str) (v : pyval) : bool :=
  match v with PStr t => str_eqb t s | _ => false end.

(** [format(v, ".nf")]: numbers only. *)
Definition format_fixed (n : nat) (v : pyval) : res str :=
  match v with
  | PStr _ => Raise (L "Unknown format code 'f' for object of type 'str'")
  | PBool _ | PInt _ | PFloat _ => x ← py_float v; Ret (ffix n x)
  | _ => Raise (L "unsupported format string passed to " ++ type_name v
                  ++ L ".__format__")
  end.

(** [format(v, ",")]: numbers only. *)
Definition format_comma (v : pyval) : res str :=
  match v with
  | PInt z => Ret (comma_Z z)
  | PBool b => Ret (comma_Z (if b then 1 else 0)%Z)
  | PFloat x => Ret (fcomma x)
  | PStr _ => Raise (L "Cannot specify ',' with 's'.")
  | _ => Raise (L "unsupported format string passed to " ++ type_name v
                  ++ L ".__format__")
  end.

(** An int literal: digits, single underscores between them allowed. *)
Definition int_digits (s : str) : bool :=
  forallb (fun g => negb (str_eqb g []) && forallb is_digit g) (split_on "_"%char s).

(** [int(v)] *)
Definition py_int (v : pyval) : res Z :=
  match v with
  | PInt z => Ret z
  | PBool b => Ret (if b then 1 else 0)%Z
  | PFloat x => ftrunc x
  | PStr s =>
      let t := strip s in
      let '(sg, body) := match t with
                         | "-"%char :: r => (true, r)
                         | "+"%char :: r => (false, r)
                         | _ => (false, t)
                         end in
      if int_digits body
      then let n := Z_of_digits (filter (fun c => negb (eqc c "_"%char)) body) in
           Ret (if sg then - n else n)%Z
      else Raise (L "invalid literal for int() with base 10: " ++ repr_str s)
  | _ => Raise (L "int() argument must be a string, a bytes-like object or a real number, not '"
                  ++ type_name v ++ L "'")
  end.

(** [a + b] on numbers, as [sum] needs it. *)
Definition py_add (a b : pyval) : res pyval :=
  match as_int a, as_int b with
  | Some x, Some y => Ret (PInt (x + y))
  | _, _ =>
      if is_number a && is_number b
      then x ← py_float a; y ← py_float b; Ret (PFloat (fadd x y))
      else Raise (L "unsupported operand type(s) for +: '" ++ type_name a
                    ++ L "' and '" ++ type_name b ++ L "'")
  end.

(** [sum(l)] *)
Definition py_sum (l : list pyval) : res pyval :=
  fold_left (fun acc v => a ← acc; py_add a v) l (Ret (PInt 0)).

(** [abs(v)] *)
Definition py_abs (v : pyval) : res pyval :=
  match v with
  | PFloat x => Ret (PFloat (fabs x))
  | PInt z => Ret (PInt (Z.abs z))
  | PBool b => Ret (PInt (if b then 1 else 0))
  | _ => Raise (L "bad operand type for abs(): '" ++ type_name v ++ L "'")
  end.

(** [v >= 0] *)
Definition py_ge0 (v : pyval) : res bool :=
  match v with
  | PFloat x => Ret (fleb fzero x)
  | PInt z => Ret (0 <=? z)%Z
  | PBool _ => Ret true
  | _ => Raise (L "'>=' not supported between instances of '" ++ type_name v
                  ++ L "' and 'int'")
  end.

(** [v > n] for an int [n] *)
Definition py_gt_int (v : pyval) (n : Z) : res bool :=
  match v with
  | PFloat x => Ret (fltb (flit n 0) x)
  | PInt z => Ret (n <? z)%Z
  | PBool b => Ret (n <? (if b then 1 else 0))%Z
  | _ => Raise (L "'>' not supported between instances of '" ++ type_name v
                  ++ L "' and 'int'")
  end.

(** [round(v, 1)] *)
Definition py_round1 (v : pyval) : res pyval :=
  match v with
  | PFloat x => Ret (PFloat (fround 1 x))
  | PInt z => Ret (PInt z)
  | PBool b => Ret (PInt (if b then 1 else 0))
  | _ => Raise (L "type " ++ type_name v ++ L " doesn't define __round__ method")
  end.

(** Whether [v] may be a key of a dictionary or a member of a set. *)
Definition hashable (v : pyval) : bool :=
  match v with PList _ | PDict _ => false | _ => true end.

Definition unhashable {A : Type} (v : pyval) : res A :=
  Raise (L "unhashable type: '" ++ type_name v ++ L "'").

(** [for x in v] *)
Definition py_iter (v : pyval) : res (list pyval) :=
  match v with
  | PList l => Ret l
  | PStr s => Ret (map (fun c => PStr [c]) s)
  | PDict d => Ret (map (fun kv => PStr (fst kv)) d)
  | _ => Raise (L "'" ++ type_name v ++ L "' object is not iterable")
  end.

(** [d[k]] on a dictionary: [KeyError] prints the key's [repr]. *)
Definition item (k : str) (d : list (str * pyval)) : res pyval :=
  match get k d with
  | Some v => Ret v
  | None => Raise (repr_str k)
  end.

(** [v[k]] for a text [k] *)
Definition py_item (k : str) (v : pyval) : res pyval :=
  match v with
  | PDict d => item k d
  | PList _ => Raise (L "list indices must be integers or slices, not str")
  | PStr _ => Raise (L "string indices must be integers, not 'str'")
  | _ => Raise (L "'" ++ type_name v ++ L "' object is not subscriptable")
  end.

(** [v[i]] for a position [i] *)
Definition py_index (i : nat) (v : pyval) : res pyval :=
  match v with
  | PList l => match nth_error l i with
               | Some x => Ret x
               | None => Raise (L "list index out of range")
               end
  | PStr s => match nth_error s i with
              | Some c => Ret (PStr [c])
              | None => Raise (L "string index out of range")
              end
  | PDict d => Raise (str_of_N (N.of_nat i))
  | _ => Raise (L "'" ++ type_name v ++ L "' object is not subscriptable")
  end.

(** [v.get(k, dflt)] on a value that need not be a dictionary. *)
Definition val_get (v : pyval) (k : str) (dflt : pyval) : res pyval :=
  match v with
  | PDict d => Ret (get_or k dflt d)
  | _ => Raise (L "'" ++ type_name v ++ L "' object has no attribute 'get'")
  end.

(** [v.items()] *)
Definition val_items (v : pyval) : res (list (str * pyval)) :=
  match v with
  | PDict d => Ret d
  | _ => Raise (L "'" ++ type_name v ++ L "' object has no attribute 'items'")
  end.

(** [k in v] for a text [k] *)
Definition py_in (k : str) (v : pyval) : res bool :=
  match v with
  | PDict d => Ret (has_key k d)
  | PList l => Ret (existsb (is_str k) l)
  | PStr s => Ret (contains k s)
  | _ => Raise (L "argument of type '" ++ type_name v ++ L "' is not iterable")
  end.

End Values.

End PyVal.

(* ================================================================== *)
(** * intelligent_sql_generator.py *)
(* ================================================================== *)

Module SqlGen.
Import PyStr Re Py.

(** The dictionary [generate_sql_from_query] returns.  The fallback
    statements carry no [generation_method]; only they carry [error]. *)
Record sqlgen := {
  sql_query : str;
  explanation : str;
  estimated_results : str;
  parameters_used : list str;
  generation_method : option str;
  error : option str
}.

(** ** The SQL templates of the direct shapes (the f-strings, hole by hole) *)

Definition operating_duration_sql (comparison seconds : str) : str :=
  L "
                        SELECT float_id,
                               MIN(profile_date) as first_profile_date,
                               MAX(profile_date) as last_profile_date,
                               COUNT(*) as total_profiles,
                               (MAX(profile_date) - MIN(profile_date)) as operating_duration
                        FROM argo_profiles 
                        WHERE profile_date IS NOT NULL
                        GROUP BY float_id
                        HAVING EXTRACT(EPOCH FROM AGE(MAX(profile_date), MIN(profile_date))) "
  ++ comparison
  ++ L " "
  ++ seconds
  ++ L "
                        ORDER BY operating_duration DESC
                        LIMIT 100
                        ".

Definition year_count_sql (years_str : str) : str :=
  L "
                        SELECT EXTRACT(YEAR FROM profile_date) as year, 
                               COUNT(*) as count
                        FROM argo_profiles 
                        WHERE profile_date IS NOT NULL
                          AND EXTRACT(YEAR FROM profile_date) IN ("
  ++ years_str
  ++ L ")
                        GROUP BY EXTRACT(YEAR FROM profile_date)
                        ORDER BY year
                        ".

Definition nearest_floats_sql (latitude longitude : str) : str :=
  L "
                        SELECT DISTINCT
                            p.float_id,
                            p.latitude,
                            p.longitude,
                            p.profile_date,
                            f.status,
                            f.float_type,
                            f.institution,
                            MIN(6371 * acos(
                                cos(radians("
  ++ latitude
  ++ L ")) * cos(radians(p.latitude)) * 
                                cos(radians(p.longitude) - radians("
  ++ longitude
  ++ L ")) + 
                                sin(radians("
  ++ latitude
  ++ L ")) * sin(radians(p.latitude))
                            )) AS distance_km
                        FROM argo_profiles p
                        LEFT JOIN argo_floats f ON p.float_id = f.float_id
                        WHERE p.latitude IS NOT NULL 
                          AND p.longitude IS NOT NULL
                          AND (6371 * acos(
                                cos(radians("
  ++ latitude
  ++ L ")) * cos(radians(p.latitude)) * 
                                cos(radians(p.longitude) - radians("
  ++ longitude
  ++ L ")) + 
                                sin(radians("
  ++ latitude
  ++ L ")) * sin(radians(p.latitude))
                              )) <= 500
                        GROUP BY p.float_id, p.latitude, p.longitude, p.profile_date, f.status, f.float_type, f.institution
                        ORDER BY distance_km ASC
                        LIMIT 10
                        ".

Definition year_comparison_equatorial_sql (y1 y0 : str) : str :=
  L "
                    (SELECT 
                        EXTRACT(YEAR FROM profile_date) AS year,
                        profile_id,
                        float_id,
                        latitude,
                        longitude,
                        profile_date,
                        temperature[1] AS surface_temperature,
                        salinity[1] AS surface_salinity,
                        pressure[1] AS surface_pressure
                    FROM argo_profiles
                    WHERE EXTRACT(YEAR FROM profile_date) = "
  ++ y1
  ++ L "
                    AND latitude BETWEEN -5 AND 5
                    AND temperature IS NOT NULL 
                    AND salinity IS NOT NULL
                    ORDER BY profile_date DESC
                    )
                    UNION ALL
                    (SELECT 
                        EXTRACT(YEAR FROM profile_date) AS year,
                        profile_id,
                        float_id,
                        latitude,
                        longitude,
                        profile_date,
                        temperature[1] AS surface_temperature,
                        salinity[1] AS surface_salinity,
                        pressure[1] AS surface_pressure
                    FROM argo_profiles
                    WHERE EXTRACT(YEAR FROM profile_date) = "
  ++ y0
  ++ L "
                    AND latitude BETWEEN -5 AND 5
                    AND temperature IS NOT NULL 
                    AND salinity IS NOT NULL
                    ORDER BY profile_date DESC
                    )
                    ORDER BY year DESC, profile_date DESC
                    ".

Definition year_comparison_plain_sql (y1 y0 : str) : str :=
  L "
                    (SELECT 
                        EXTRACT(YEAR FROM profile_date) AS year,
                        profile_id,
                        float_id,
                        latitude,
                        longitude,
                        profile_date,
                        temperature[1] AS surface_temperature,
                        salinity[1] AS surface_salinity,
                        pressure[1] AS surface_pressure
                    FROM argo_profiles
                    WHERE EXTRACT(YEAR FROM profile_date) = "
  ++ y1
  ++ L "
                    AND temperature IS NOT NULL 
                    AND salinity IS NOT NULL
                    ORDER BY profile_date DESC
                    )
                    UNION ALL
                    (SELECT 
                        EXTRACT(YEAR FROM profile_date) AS year,
                        profile_id,
                        float_id,
                        latitude,
                        longitude,
                        profile_date,
                        temperature[1] AS surface_temperature,
                        salinity[1] AS surface_salinity,
                        pressure[1] AS surface_pressure
                    FROM argo_profiles
                    WHERE EXTRACT(YEAR FROM profile_date) = "
  ++ y0
  ++ L "
                    AND temperature IS NOT NULL 
                    AND salinity IS NOT NULL
                    ORDER BY profile_date DESC
                    )
                    ORDER BY year DESC, profile_date DESC
                    ".

Definition geographic_sql (lat_lo lat_hi lon_lo lon_hi : str) : str :=
  L "
                SELECT * FROM argo_profiles 
                WHERE latitude BETWEEN "
  ++ lat_lo
  ++ L " AND "
  ++ lat_hi
  ++ L " 
                AND longitude BETWEEN "
  ++ lon_lo
  ++ L " AND "
  ++ lon_hi
  ++ L "
                ORDER BY profile_date DESC 
                LIMIT 100
                ".


(** ** Patterns *)

(** [\d+(?:\.\d+)?] *)
Definition number : regex :=
  Seq (Plus true Digit) (Opt (Seq (Chr ".") (Plus true Digit))).
Definition spaces : regex := Star true Space.
Definition NS : regex := Cls [CChr "N"; CChr "S"].
Definition EW : regex := Cls [CChr "E"; CChr "W"].

(** [(\d+)\s*years?] *)
Definition years_pattern : regex :=
  Seqs [Grp 1 (Plus true Digit); spaces; lit "year"; Opt (Chr "s")].

(** [\b(201[8-9]|202[0-5])\b] *)
Definition year_pattern : regex :=
  Seqs [WordB;
        Grp 1 (Alt (Seq (lit "201") (Cls [CRng "8" "9"]))
                   (Seq (lit "202") (Cls [CRng "0" "5"])));
        WordB].

(** [(\d+(?:\.\d+)?)\s*°?\s*([NS])\s*,\s*(\d+(?:\.\d+)?)\s*°?\s*([EW])] *)
Definition coord_pattern : regex :=
  Seqs [Grp 1 number; spaces; Opt (Chr deg); spaces; Grp 2 NS; spaces;
        Chr ","; spaces;
        Grp 3 number; spaces; Opt (Chr deg); spaces; Grp 4 EW].

(** [\b(19\d{2}|20\d{2})\b] *)
Definition any_year_pattern : regex :=
  Seqs [WordB;
        Grp 1 (Alt (Seq (lit "19") (Rep 2 Digit)) (Seq (lit "20") (Rep 2 Digit)));
        WordB].

(** [(\d+(?:\.\d+)?)[°\s]*([NS])\s*,?\s*(\d+(?:\.\d+)?)[°\s]*([EW])] and
    [(\d+(?:\.\d+)?)\s*degrees?\s*([NS])\s*,?\s*(\d+(?:\.\d+)?)\s*degrees?\s*([EW])] *)
Definition deg_or_space : regex := Star true (Cls [CChr deg; CSpace]).
Definition coordinate_patterns : list regex :=
  [ Seqs [Grp 1 number; deg_or_space; Grp 2 NS; spaces; Opt (Chr ","); spaces;
          Grp 3 number; deg_or_space; Grp 4 EW];
    Seqs [Grp 1 number; spaces; lit "degree"; Opt (Chr "s"); spaces; Grp 2 NS;
          spaces; Opt (Chr ","); spaces;
          Grp 3 number; spaces; lit "degree"; Opt (Chr "s"); spaces; Grp 4 EW] ].

(** [\d+[°\s]*[NS]] *)
Definition fallback_coord_pattern : regex :=
  Seqs [Plus true Digit; deg_or_space; NS].

(** ** Post-processing and validation of LLM output *)

Definition array_columns : list str :=
  [L "temperature"; L "salinity"; L "pressure"; L "depth";
   L "dissolved_oxygen"; L "ph_in_situ"; L "nitrate"; L "chlorophyll_a"].

(** [_clean_sql_response]: drop the code fences, blank lines and [--]
    comment lines, join the lines with one space. *)
Definition _clean_sql_response (response : str) : str :=
  let response :=
    sub plain (Seqs [lit "```sql"; spaces; Opt (Chr nl)]) [] response in
  let response := sub plain (Seqs [lit "```"; spaces; Eos]) [] response in
  let lines :=
    map strip (filter (fun line => negb (str_eqb (strip line) []))
                 (split_on nl response)) in
  let cleaned_lines :=
    filter (fun line => negb (starts_with (L "--") line)) lines in
  strip (join (L " ") cleaned_lines).

(** [_validate_sql] *)
Definition _validate_sql (sql : str) : bool :=
  let sql_lower := lower sql in
  if negb (starts_with (L "select") (strip sql_lower)) then false
  else if negb (contains (L "from") sql_lower) then false
  else if negb (any_in [L "argo_profiles"; L "argo_floats"] sql_lower) then false
  else if any_in [L "drop"; L "delete"; L "insert"; L "update"; L "alter";
                  L "create"] sql_lower then false
  else if existsb (fun col =>
                     contains (L "avg(" ++ col ++ L ")") sql_lower
                     || contains (L "sum(" ++ col ++ L ")") sql_lower)
            array_columns then false
  else true.

(** One column's four substitutions of [_fix_array_aggregation]:
    [re.sub(f'avg\\({col}\\)', f'AVG({col}[1])', sql, flags=re.IGNORECASE)]
    and the same for [sum], [min], [max]. *)
Definition fix_column (sql col : str) : str :=
  let sql := sub icase (Lit (L "avg(" ++ col ++ L ")")) (L "AVG(" ++ col ++ L "[1])") sql in
  let sql := sub icase (Lit (L "sum(" ++ col ++ L ")")) (L "SUM(" ++ col ++ L "[1])") sql in
  let sql := sub icase (Lit (L "min(" ++ col ++ L ")")) (L "MIN(" ++ col ++ L "[1])") sql in
  let sql := sub icase (Lit (L "max(" ++ col ++ L ")")) (L "MAX(" ++ col ++ L "[1])") sql in
  sql.

(** [_fix_array_aggregation]: the loop over the array columns. *)
Definition _fix_array_aggregation (sql : str) : str :=
  fold_left fix_column array_columns sql.

(** [T\d+\.temperature\)] after an aggregate's name and parenthesis. *)
Definition t_alias (fn : string) : regex :=
  Seqs [lit fn; lit "(T"; Plus true Digit; lit ".temperature)"].

(** [AVG\([a-zA-Z_]+\.temperature\)] *)
Definition avg_any_alias : regex :=
  Seqs [lit "AVG("; Plus true (Cls [CRng "a" "z"; CRng "A" "Z"; CChr "_"]);
        lit ".temperature)"].

(** [_fix_temperature_array_issue] *)
Definition _fix_temperature_array_issue (sql : str) : str :=
  let sql := sub icase (t_alias "AVG") (L "AVG(T1.temperature[1])") sql in
  let sql := sub icase avg_any_alias (L "AVG(temperature[1])") sql in
  let sql := sub icase (t_alias "SUM") (L "SUM(T1.temperature[1])") sql in
  let sql := sub icase (t_alias "MIN") (L "MIN(T1.temperature[1])") sql in
  let sql := sub icase (t_alias "MAX") (L "MAX(T1.temperature[1])") sql in
  sql.

(** [_fix_table_selection] *)
Definition _fix_table_selection (sql user_query : str) : str :=
  let sql_lower := lower sql in
  let user_query_lower := lower user_query in
  let location_keywords :=
    [L "location"; L "coordinate"; L "latitude"; L "longitude"; L "equator";
     L "near"; L "trajectory"; L "trajectories"] in
  let is_location_query := any_in location_keywords user_query_lower in
  if is_location_query && contains (L "from argo_floats") sql_lower then
    let sql := replace (L "FROM argo_floats") (L "FROM argo_profiles") sql in
    replace (L "SELECT float_id, latitude, longitude")
            (L "SELECT profile_id, float_id, latitude, longitude, profile_date") sql
  else sql.

(** [_extract_parameters] *)
Definition _extract_parameters (sql : str) : list str :=
  filter (fun param => contains param (lower sql)) array_columns.

(** The post-processing applied to the cleaned LLM reply, in order. *)
Definition postprocess (user_query sql : str) : str :=
  _fix_table_selection
    (_fix_temperature_array_issue (_fix_array_aggregation sql)) user_query.

(** ** generate_sql_from_query *)

Section Generator.
Context {PF : PyFloat}.

(** [multi_llm_client.generate_response] on the two messages built for a
    query: the fixed system prompt (schema, rules, examples; not
    reproduced here) and the user message passed as argument. *)
Variable llm_generate : str -> res str.

Definition one : F := flit 1 0.

(** [int(s)] then [str(...)], as the year templates use a matched year. *)
Definition year_text (y : Z) : str := str_of_Z y.

(** [sorted(list({int(y) for y in year_matches}))] *)
Fixpoint insert_sorted (z : Z) (l : list Z) : list Z :=
  match l with
  | [] => [z]
  | x :: t => if (z <? x)%Z then z :: l
              else if (z =? x)%Z then l else x :: insert_sorted z t
  end.
Definition sorted_set (l : list Z) : list Z := foldr insert_sorted [] l.

Definition operating_phrases : list str :=
  [L "operating for"; L "been operating"; L "operating more than";
   L "operating less than"].

(** The [operating_duration_direct] shape; [None] when it does not apply. *)
Definition operating_duration (user_query : str) : option (res sqlgen) :=
  let q := lower user_query in
  if any_in operating_phrases q then
    match search plain years_pattern q with
    | Some years_match =>
        let years := Z_of_digits (group_or_empty 1 years_match) in
        let comparison :=
          if contains (L "more than") q || contains (L "over") q then L ">"
          else if contains (L "less than") q || contains (L "under") q then L "<"
          else L ">=" in
        Some
          match fofZ years with
          | None => Raise (L "int too large to convert to float")
          | Some y =>
              let seconds :=
                fmul (fmul (fmul y (flit 36525 2)) (flit 24 0)) (flit 3600 0) in
              Ret {| sql_query := operating_duration_sql comparison (frepr seconds);
                     explanation :=
                       L "Floats operating " ++ comparison ++ L " "
                         ++ str_of_Z years ++ L " years based on profile data";
                     estimated_results :=
                       L "Floats with operating duration " ++ comparison ++ L " "
                         ++ str_of_Z years ++ L " years";
                     parameters_used := [L "profile_date"];
                     generation_method := Some (L "operating_duration_direct");
                     error := None |}
          end
    | None => None
    end
  else None.

(** The [year_count_direct] shape. *)
Definition year_count (user_query : str) : option (res sqlgen) :=
  if any_in [L "how many"; L "number of profiles"; L "profiles in"] (lower user_query)
     && any_in [L "2018"; L "2019"; L "2020"; L "2021"; L "2022"; L "2023";
                L "2024"; L "2025"] user_query
  then
    match finditer plain year_pattern user_query with
    | [] => None
    | years =>
        let years_int := map (fun x => Z_of_digits (group_or_empty 1 x)) years in
        let years_str := join (L ", ") (map str_of_Z years_int) in
        Some (Ret
          {| sql_query := year_count_sql years_str;
             explanation := L "Year-by-year profile counts for years: " ++ years_str;
             estimated_results :=
               L "Profile counts for "
                 ++ str_of_Z (Z.of_nat (length years_int)) ++ L " years";
             parameters_used := [L "profile_date"];
             generation_method := Some (L "year_count_direct");
             error := None |})
    end
  else None.

Definition float_of_group (g : str) : res F :=
  match fparse g with
  | Some v => Ret v
  | None => Raise (L "could not convert string to float")
  end.

(** The [nearest_floats_direct] shape. *)
Definition nearest_floats (user_query : str) : option (res sqlgen) :=
  let q := lower user_query in
  if any_in [L "nearest"; L "closest"; L "near"] q
     && any_in [[deg]; L "degrees"; L "north"; L "south"; L "east"; L "west"] q
  then
    match search icase coord_pattern user_query with
    | Some coord_match =>
        Some (
          lat_val ← float_of_group (group_or_empty 1 coord_match);
          let lat_dir := upper (group_or_empty 2 coord_match) in
          lon_val ← float_of_group (group_or_empty 3 coord_match);
          let lon_dir := upper (group_or_empty 4 coord_match) in
          let latitude := if str_eqb lat_dir (L "N") then lat_val else fneg lat_val in
          let longitude := if str_eqb lon_dir (L "E") then lon_val else fneg lon_val in
          Ret {| sql_query := nearest_floats_sql (frepr latitude) (frepr longitude);
                 explanation :=
                   L "Found nearest ARGO floats to coordinates " ++ frepr latitude
                     ++ [deg] ++ L "N, " ++ frepr longitude ++ [deg]
                     ++ L "E using distance calculation";
                 estimated_results := L "Up to 10 closest floats within 500km";
                 parameters_used := [L "latitude"; L "longitude"];
                 generation_method := Some (L "nearest_floats_direct");
                 error := None |})
    | None => None
    end
  else None.

(** The [year_comparison_direct] shape. *)
Definition year_comparison (user_query : str) : option (res sqlgen) :=
  let year_matches := finditer plain any_year_pattern user_query in
  let unique_years :=
    sorted_set (map (fun x => Z_of_digits (group_or_empty 1 x)) year_matches) in
  match unique_years with
  | y0 :: y1 :: _ =>
      if any_in [L "compare"; L "versus"; L "vs"; L "compare between"]
                (lower user_query)
      then
        let is_equatorial :=
          any_in [L "equator"; L "equatorial"; L "near the equator"]
                 (lower user_query) in
        let comparison_sql :=
          if is_equatorial
          then year_comparison_equatorial_sql (str_of_Z y1) (str_of_Z y0)
          else year_comparison_plain_sql (str_of_Z y1) (str_of_Z y0) in
        Some (Ret
          {| sql_query := strip comparison_sql;
             explanation :=
               L "Yearly comparison with oceanographic data for years: "
                 ++ join (L ", ") [str_of_Z y0; str_of_Z y1];
             estimated_results :=
               L "Profile data for requested years with surface measurements";
             parameters_used := [L "profile_date"; L "temperature"; L "salinity"];
             generation_method := Some (L "year_comparison_direct");
             error := None |})
      else None
  | _ => None
  end.

(** The loop over [coordinate_patterns]: the first pattern that matches. *)
Fixpoint first_match (patterns : list regex) (user_query : str) : option rmatch :=
  match patterns with
  | [] => None
  | pattern :: more =>
      match search icase pattern user_query with
      | Some x => Some x
      | None => first_match more user_query
      end
  end.

(** The [geographic_direct] shape.  The hemisphere letters are compared
    as matched, without a change of case. *)
Definition geographic (user_query : str) : option (res sqlgen) :=
  match first_match coordinate_patterns user_query with
  | Some coord_match =>
      Some (
        lat_val ← float_of_group (group_or_empty 1 coord_match);
        let lat_dir := group_or_empty 2 coord_match in
        lon_val ← float_of_group (group_or_empty 3 coord_match);
        let lon_dir := group_or_empty 4 coord_match in
        let lat := if str_eqb lat_dir (L "N") then lat_val else fneg lat_val in
        let lon := if str_eqb lon_dir (L "E") then lon_val else fneg lon_val in
        let geographic_sql :=
          geographic_sql (frepr (fsub lat one)) (frepr (fadd lat one))
                         (frepr (fsub lon one)) (frepr (fadd lon one)) in
        Ret {| sql_query := strip geographic_sql;
               explanation :=
                 L "Geographic query for profiles near " ++ frepr lat ++ [deg]
                   ++ L "N, " ++ frepr lon ++ [deg] ++ L "E";
               estimated_results := L "Up to 100 profiles in geographic area";
               parameters_used := [L "latitude"; L "longitude"];
               generation_method := Some (L "geographic_direct");
               error := None |})
  | None => None
  end.

(** The LLM path: ask, clean, rewrite, validate. *)
Definition intelligent_llm (user_query : str) : res sqlgen :=
  let user_message := L "Generate SQL for: " ++ user_query in
  sql_response ← llm_generate user_message;
  let sql_query := _clean_sql_response sql_response in
  let sql_query := _fix_array_aggregation sql_query in
  let sql_query := _fix_temperature_array_issue sql_query in
  let sql_query := _fix_table_selection sql_query user_query in
  if _validate_sql sql_query then
    Ret {| sql_query := sql_query;
           explanation := L "Generated SQL to answer: " ++ user_query;
           estimated_results := L "Variable based on query";
           parameters_used := _extract_parameters sql_query;
           generation_method := Some (L "intelligent_llm");
           error := None |}
  else Raise (L "Generated invalid SQL: " ++ sql_query).

(** The direct shapes in the order the function tries them. *)
Definition direct_shapes : list (str -> option (res sqlgen)) :=
  [operating_duration; year_count; nearest_floats; year_comparison; geographic].

Fixpoint first_shape (shapes : list (str -> option (res sqlgen))) (user_query : str)
  : option (res sqlgen) :=
  match shapes with
  | [] => None
  | shape :: more =>
      match shape user_query with
      | Some r => Some r
      | None => first_shape more user_query
      end
  end.

(** The body of the [try]: the prompts sent to the LLM, and the outcome. *)
Definition generate_body (user_query : str) : list str * res sqlgen :=
  match first_shape direct_shapes user_query with
  | Some r => ([], r)
  | None => ([L "Generate SQL for: " ++ user_query], intelligent_llm user_query)
  end.

(** The [except] branch. *)
Definition fallback (user_query e : str) : sqlgen :=
  let query_for_fallback := user_query in
  if contains (L "coordinate") (lower query_for_fallback)
     || contains (L "near") (lower query_for_fallback)
     || bool_decide (is_Some (search plain fallback_coord_pattern query_for_fallback))
  then
    {| sql_query :=
         L "SELECT COUNT(*) FROM argo_profiles WHERE latitude IS NOT NULL AND longitude IS NOT NULL";
       explanation := L "Fallback geographic query for: " ++ query_for_fallback;
       estimated_results := L "Count of profiles with coordinates";
       parameters_used := [L "latitude"; L "longitude"];
       generation_method := None;
       error := Some e |}
  else
    {| sql_query := L "SELECT COUNT(*) FROM argo_profiles LIMIT 10";
       explanation := L "Fallback query due to generation error: " ++ e;
       estimated_results := L "10 profiles";
       parameters_used := [];
       generation_method := None;
       error := Some e |}.

Definition generate_sql_from_query (user_query : str) : sqlgen :=
  try_except (snd (generate_body user_query)) (fallback user_query).

(** The prompts [generate_sql_from_query] sends to the LLM. *)
Definition llm_prompts (user_query : str) : list str :=
  fst (generate_body user_query).

End Generator.

End SqlGen.

(* ================================================================== *)
(** * query_classifier.py *)
(* ================================================================== *)

Module Classifier.
Import PyStr Re Py PyVal.

(** [app.config.QueryTypes] is not among the sources: its three
    constants are parameters of the development. *)
Record QueryTypes := {
  SQL_RETRIEVAL : str;
  VECTOR_RETRIEVAL : str;
  HYBRID_RETRIEVAL : str
}.

(** The names the other modules of the repository spell out. *)
Definition query_types : QueryTypes := {|
  SQL_RETRIEVAL := L "sql_retrieval";
  VECTOR_RETRIEVAL := L "vector_retrieval";
  HYBRID_RETRIEVAL := L "hybrid_retrieval"
|}.

Definition sql_keywords : list str :=
  map L ["show"; "get"; "find"; "retrieve"; "extract"; "list"; "count";
         "filter"; "where"; "between"; "greater than"; "less than";
         "exact"; "specific"; "precise"; "data"; "values"; "measurements"]%string.

Definition vector_keywords : list str :=
  map L ["summarize"; "describe"; "explain"; "patterns"; "trends";
         "characteristics"; "overview"; "general"; "typical"; "average";
         "variations"; "changes"; "analysis"; "insights"; "understand"]%string.

Definition hybrid_keywords : list str :=
  map L ["compare"; "analyze"; "relationship"; "correlation"; "impact";
         "influence"; "effect"; "difference"; "similar"; "contrast"]%string.

(** Blanks, a word, a number with an optional fraction, degree signs
    or blanks. *)
Definition ws : regex := Plus true Space.
Definition word : regex := Plus true Word.
Definition num : regex := Seqs [Plus true Digit; Opt (Chr "."); Star true Digit].
Definition deg_ws : regex := Star true (Cls [CChr deg; CSpace]).
Definition north_south : regex := Cls [CChr "N"; CChr "S"].
Definition east_west : regex := Cls [CChr "E"; CChr "W"].
(** Four digits, one or two digits, a word and a year. *)
Definition d4 : regex := Rep 4 Digit.
Definition d12 : regex := Seq Digit (Opt Digit).
Definition month_year : regex := Seqs [word; ws; d4].
(** A unit of time, singular or plural. *)
Definition unit_names : regex :=
  Alts (map (fun u => Seq (lit u) (Opt (Chr "s"))) ["day"; "week"; "month"; "year"]%string).

(** Words separated by [\s+]. *)
Definition phrase (ws_words : list string) : regex :=
  Seqs (foldr (fun w acc => match acc with
                            | [] => [lit w]
                            | _ => lit w :: ws :: acc
                            end) [] ws_words).

(** Each pattern with the number of its capturing groups. *)
Definition location_patterns : list (regex * nat) :=
  [ (Seqs [lit "near"; ws; Opt (Seq (lit "the") ws); lit "equator"], 0);
    (Seqs [lit "in"; ws; lit "the"; ws;
           Grp 1 (Alt (Seqs [word; ws; word]) word); ws;
           Alt (lit "ocean") (lit "sea")], 1);
    (Seqs [lit "around"; ws; Grp 1 num; deg_ws; north_south;
           Star true Space; Opt (Chr ","); Star true Space;
           Grp 2 num; deg_ws; east_west], 2);
    (Seqs [lit "latitude"; ws; Grp 1 num], 1);
    (Seqs [lit "longitude"; ws; Grp 1 num], 1);
    (phrase ["arabian"; "sea"]%string, 0);
    (phrase ["bay"; "of"; "bengal"]%string, 0);
    (phrase ["indian"; "ocean"]%string, 0);
    (phrase ["pacific"; "ocean"]%string, 0);
    (phrase ["atlantic"; "ocean"]%string, 0);
    (phrase ["southern"; "ocean"]%string, 0) ].

Definition date_patterns : list (regex * nat) :=
  [ (Seqs [lit "in"; ws; Grp 1 month_year], 1);
    (Seqs [Grp 1 d4; Chr "-"; Grp 2 d12; Chr "-"; Grp 3 d12], 3);
    (Seqs [lit "last"; ws; Grp 1 (Plus true Digit); ws; Grp 2 unit_names], 2);
    (Seqs [lit "past"; ws; Grp 1 (Plus true Digit); ws; Grp 2 unit_names], 2);
    (Seqs [lit "since"; ws; Grp 1 (Alt month_year d4)], 1);
    (Seqs [lit "between"; ws; Grp 1 month_year; ws; lit "and"; ws;
           Grp 2 month_year], 2) ].

Definition parameter_patterns : list (str * regex) :=
  [ (L "temperature", Alts [lit "temperature"; lit "temp"; lit "thermal"]);
    (L "salinity", Alts [lit "salinity"; lit "salt"; lit "halocline"]);
    (L "dissolved_oxygen",
      Alts [phrase ["dissolved"; "oxygen"]%string; lit "oxygen"; lit "o2"; lit "do"]);
    (L "ph", Alts [lit "ph"; lit "acidity"; lit "alkalinity"]);
    (L "nitrate", Alts [lit "nitrate"; lit "nitrogen"; lit "no3"]);
    (L "chlorophyll",
      Alts [lit "chlorophyll"; lit "chl"; lit "phytoplankton"; lit "algae"]);
    (L "pressure", Alts [lit "pressure"; lit "depth"; lit "deep"]);
    (L "bgc", Alts [lit "bgc"; lit "biogeochemical"; lit "biochemical"; lit "bio"]) ].

(** The patterns of the identifiers (seven digits after the word
    profile, profile number or float, or on their own), of a comparison
    operator before a number, and of a whole number. *)
Definition profile_id_pattern : regex :=
  Seqs [WordB; Alt (lit "profile") (phrase ["profile"; "number"]%string); ws;
        Grp 1 (Rep 7 Digit); WordB].
Definition float_id_pattern : regex :=
  Seqs [WordB; lit "float"; ws; Grp 1 (Rep 7 Digit); WordB].
Definition standalone_id_pattern : regex :=
  Seqs [WordB; Grp 1 (Rep 7 Digit); WordB].
Definition numeric_pattern : regex :=
  Seqs [Grp 1 (Plus true (Cls [CChr ">"; CChr "<"; CChr "="]));
        Star true Space; Grp 2 num].
Definition whole_number : regex := Seqs [WordB; Plus true Digit; WordB].

Definition found (r : regex) (s : str) : bool :=
  bool_decide (is_Some (search plain r s)).

(** What [re.findall] gives, each item made a text the way the
    comprehension [match if isinstance(match, str) else ' '.join(match)]
    does. *)
Definition findall_texts (p : regex * nat) (s : str) : list str :=
  map (join (L " ")) (findall plain (fst p) (snd p) s).

(** [re.findall] for a pattern with one group. *)
Definition findall1 (r : regex) (s : str) : list str :=
  concat (findall plain r 1 s).

Definition _detect_geographic_sql_query (query : str) : bool :=
  existsb (fun r => found r (lower query))
    [ Seqs [lit "near"; ws; lit "coordinate"; Opt (Chr "s"); ws;
            Plus true Digit; deg_ws; north_south];
      Seqs [lit "profile"; Opt (Chr "s"); ws; lit "near"; ws; Plus true Digit];
      Seqs [lit "find"; ws; lit "profile"; Opt (Chr "s"); ws; lit "near"];
      phrase ["latitude"; "between"]%string;
      phrase ["longitude"; "between"]%string ].

Definition _is_geographic_query (query : str) : bool :=
  let query_lower := lower query in
  existsb (fun r => found r query_lower)
    [ Seqs [lit "near"; ws; lit "coordinate"; Opt (Chr "s")];
      Seqs [lit "coordinate"; Opt (Chr "s"); ws; Plus true Digit; deg_ws; north_south];
      Seqs [lit "profile"; Opt (Chr "s"); ws; lit "near"; ws; Plus true Digit];
      Seqs [lit "find"; ws; lit "profile"; Opt (Chr "s"); ws; lit "near"];
      Seqs [lit "around"; ws; Plus true Digit; deg_ws; north_south];
      Seqs [lit "latitude"; Star true Any; lit "longitude"];
      Seqs [Plus true Digit; deg_ws; north_south; Star true Any;
            Plus true Digit; deg_ws; east_west] ].

Section Classify.
Context {PF : PyFloat}.
Variable QT : QueryTypes.
(** [multi_llm_client.classify_query_type]: the parsed JSON reply, or
    the fixed dictionary it falls back to; it catches what it raises. *)
Variable classify_query_type : str -> pyval.

Definition strs (l : list str) : pyval := PList (map PStr l).

(** [min(x, y)] and [max(x, y)] of two floats, as Python picks them. *)
Definition fmin (x y : F) : F := if fltb y x then y else x.
Definition fmax (x y : F) : F := if fltb x y then y else x.

(** [min(0.9, 0.6 + (score * 0.1))]; a score is a small count, exactly
    a float. *)
Definition score_confidence (score : nat) : F :=
  fmin (flit 9 1) (fadd (flit 6 1) (fmul (flit (Z.of_nat score) 0) (flit 1 1))).

Definition count_in (keywords : list str) (query : str) : nat :=
  length (filter (fun k => contains k query = true) keywords).

Definition _rule_based_classification (query : str) : dict :=
  let sql_score :=
    count_in sql_keywords query
    + (if any_in (map L ["show me"; "get me"; "find all"; "list all"]%string) query
       then 2 else 0)
    + (if found whole_number query then 1 else 0)
    + (if existsb (fun p => found (fst p) query) location_patterns then 1 else 0)
    + (if existsb (fun p => found (fst p) query) date_patterns then 1 else 0) in
  let vector_score := count_in vector_keywords query in
  let hybrid_score := count_in hybrid_keywords query in
  let max_score := Nat.max (Nat.max sql_score vector_score) hybrid_score in
  let '(query_type, confidence) :=
    if max_score =? 0 then (VECTOR_RETRIEVAL QT, flit 5 1)
    else if sql_score =? max_score then (SQL_RETRIEVAL QT, score_confidence sql_score)
    else if hybrid_score =? max_score
         then (HYBRID_RETRIEVAL QT, score_confidence hybrid_score)
         else (VECTOR_RETRIEVAL QT, score_confidence vector_score) in
  [ (L "query_type", PStr query_type);
    (L "confidence", PFloat confidence);
    (L "scores", PDict [ (L "sql", PInt (Z.of_nat sql_score));
                         (L "vector", PInt (Z.of_nat vector_score));
                         (L "hybrid", PInt (Z.of_nat hybrid_score)) ]) ].

(** [float(value)] for each number the pattern cut out. *)
Fixpoint floats_of (l : list str) : res (list pyval) :=
  match l with
  | [] => Ret []
  | s :: t => x ← py_float (PStr s); r ← floats_of t; Ret (PFloat x :: r)
  end.

Definition _extract_entities (query : str) : res dict :=
  let query_lower := lower query in
  let profile_ids := findall1 profile_id_pattern query_lower in
  let float_ids := findall1 float_id_pattern query_lower in
  let standalone_ids := findall1 standalone_id_pattern query in
  let standalone :=
    match profile_ids, float_ids, standalone_ids with
    | [], [], _ :: _ => true
    | _, _, _ => false
    end in
  let profile_ids' :=
    if standalone && contains (L "profile") query_lower then standalone_ids
    else profile_ids in
  let float_ids' :=
    if standalone && negb (contains (L "profile") query_lower) then standalone_ids
    else float_ids in
  let parameters :=
    map fst (filter (fun p => found (snd p) query_lower = true) parameter_patterns) in
  let locations := concat (map (fun p => findall_texts p query_lower) location_patterns) in
  let dates := concat (map (fun p => findall_texts p query_lower) date_patterns) in
  let numeric_matches := findall plain numeric_pattern 2 query in
  let operators := map (fun g => nth 0 g []) numeric_matches in
  numeric_values ← floats_of (map (fun g => nth 1 g []) numeric_matches);
  Ret (filter (fun kv => truthy (snd kv) = true)
         [ (L "parameters", strs parameters);
           (L "locations", strs locations);
           (L "dates", strs dates);
           (L "float_ids", strs float_ids');
           (L "profile_ids", strs profile_ids');
           (L "regions", PList []);
           (L "numeric_values", PList numeric_values);
           (L "operators", strs operators) ]).

(** [v > x] and [v < x] for a finite float [x]: numbers only.  An int
    beyond the floats' range is decided by its sign. *)
Definition val_cmp_float (gt : bool) (v : pyval) (x : F) : res bool :=
  match v with
  | PList _ | PDict _ | PStr _ | PNone | PObj _ _ _ =>
      Raise (L "'" ++ (if gt then L ">" else L "<")
               ++ L "' not supported between instances of '"
               ++ type_name v ++ L "' and 'float'")
  | _ =>
      match as_float v with
      | Some y => Ret (if gt then fltb x y else fltb y x)
      | None => Ret (match v with
                     | PInt z => if gt then (0 <? z)%Z else (z <? 0)%Z
                     | _ => false
                     end)
      end
  end.

(** [max(x, v)] and [min(x, v)] *)
Definition val_max (x : F) (v : pyval) : res pyval :=
  b ← val_cmp_float true v x; Ret (if b : bool then v else PFloat x).
Definition val_min (x : F) (v : pyval) : res pyval :=
  b ← val_cmp_float false v x; Ret (if b : bool then v else PFloat x).

(** The loop that merges the reply's entities into the extracted ones. *)
Definition merge_entities (entities llm_entities : dict) : dict :=
  fold_left (fun acc kv =>
               if negb (has_key (fst kv) acc) && truthy (snd kv)
               then set (fst kv) (snd kv) acc else acc)
    llm_entities entities.

Definition _generate_preprocessing_suggestions (entities : dict) (query_type : pyval)
  : res (list str) :=
  if py_eqb query_type (PStr (SQL_RETRIEVAL QT)) then
    Ret ((if get_true (L "parameters") entities then []
          else [L "Consider specifying oceanographic parameters (temperature, salinity, etc.)"])
         ++ (if negb (get_true (L "locations") entities)
                && negb (get_true (L "dates") entities)
             then [L "Adding location or date constraints will improve query performance"]
             else []))
  else if py_eqb query_type (PStr (VECTOR_RETRIEVAL QT)) then
    match py_len (get_or (L "parameters") (PList []) entities) with
    | Some n =>
        Ret (if 3 <? n
             then [L "Consider breaking down into simpler questions for better semantic search"]
             else [])
    | None =>
        Raise (L "object of type '"
                 ++ type_name (get_or (L "parameters") (PList []) entities)
                 ++ L "' has no len()")
    end
  else if py_eqb query_type (PStr (HYBRID_RETRIEVAL QT)) then
    Ret [L "This complex query will use both structured and semantic search"]
  else Ret [].

(** The confidence of a rule-based result (always a float). *)
Definition rule_confidence (rule_result : dict) : F :=
  match get (L "confidence") rule_result with
  | Some (PFloat x) => x
  | _ => fzero
  end.

Definition _combine_classifications (rule_result : dict) (llm_result : pyval)
  (original_query : str) : res dict :=
  entities0 ← _extract_entities original_query;
  llm_entities ← val_get llm_result (L "extracted_entities") (PDict []);
  items ← val_items llm_entities;
  let entities := merge_entities entities0 items in
  let rule_type := get_or (L "query_type") PNone rule_result in
  llm_type ← val_get llm_result (L "query_type") (PStr (VECTOR_RETRIEVAL QT));
  llm_confidence ← val_get llm_result (L "confidence") (PFloat (flit 5 1));
  final ←
    (if py_eqb rule_type llm_type
     then c ← val_max (rule_confidence rule_result) llm_confidence; Ret (rule_type, c)
     else c ← val_min (flit 7 1) llm_confidence; Ret (llm_type, c));
  suggestions ← _generate_preprocessing_suggestions entities (fst final);
  reasoning ← val_get llm_result (L "reasoning")
                (PStr (L "Combined rule-based and LLM classification"));
  Ret [ (L "query_type", fst final);
        (L "confidence", snd final);
        (L "reasoning", reasoning);
        (L "extracted_entities", PDict entities);
        (L "preprocessing_suggestions", strs suggestions);
        (L "classification_details",
          PDict [ (L "rule_based", PDict rule_result); (L "llm_based", llm_result) ]) ].

(** [classify_query]: the first test stands before the [try], so what
    [_extract_entities] raises there is not caught. *)
Definition classify_query (user_query : str) : res dict :=
  if _detect_geographic_sql_query user_query then
    entities ← _extract_entities user_query;
    Ret [ (L "query_type", PStr (L "sql_retrieval"));
          (L "confidence", PFloat (flit 9 1));
          (L "reasoning", PStr (L "Geographic coordinate query detected"));
          (L "extracted_entities", PDict entities) ]
  else
    let query_lower := strip (lower user_query) in
    Ret (try_except
           (if _is_geographic_query query_lower then
              entities ← _extract_entities query_lower;
              Ret [ (L "query_type", PStr (L "sql_retrieval"));
                    (L "confidence", PFloat (flit 95 2));
                    (L "reasoning",
                      PStr (L "Geographic coordinate query detected - requires SQL database query"));
                    (L "extracted_entities", PDict entities);
                    (L "preprocessing_suggestions", PList []) ]
            else
              _combine_classifications (_rule_based_classification query_lower)
                (classify_query_type user_query) user_query)
           (fun e =>
              [ (L "query_type", PStr (VECTOR_RETRIEVAL QT));
                (L "confidence", PFloat (flit 3 1));
                (L "reasoning", PStr (L "Classification failed: " ++ e));
                (L "extracted_entities", PDict []);
                (L "preprocessing_suggestions", PList []) ])).

End Classify.

End Classifier.

(* ================================================================== *)
(** * rag_pipeline.py *)
(* ================================================================== *)

Module Rag.
Import PyStr Re Py PyVal.

(** ** The count query *)

Definition blanks : regex := Plus true Space.
Definition anycase_dotall : flags := {| ic := true; dotall := true |}.

(** The patterns of [_get_count_query]: the LIMIT clause, the ORDER BY
    clause to the end, the table after FROM, the condition after WHERE
    (as short as can be), the columns between SELECT and FROM (as short
    as can be). *)
Definition limit_clause : regex :=
  Seqs [blanks; lit "LIMIT"; blanks; Plus true Digit].
Definition order_by_clause : regex :=
  Seqs [blanks; lit "ORDER"; blanks; lit "BY"; blanks; Star true Any; Eos].
Definition from_table : regex :=
  Seqs [lit "FROM"; blanks; Grp 1 (Plus true Word)].
Definition where_condition : regex :=
  Seqs [lit "WHERE"; blanks; Grp 1 (Plus false Any);
        Alts [Seqs [blanks; lit "GROUP"; blanks; lit "BY"];
              Seqs [blanks; lit "ORDER"; blanks; lit "BY"];
              Eos]].
Definition select_columns : regex :=
  Seqs [lit "SELECT"; blanks; Star false Any; blanks; lit "FROM"].

(** [s.split(sep)[0]] *)
Fixpoint before_first (sep s : str) : str :=
  if starts_with sep s then []
  else match s with
       | [] => []
       | c :: t => c :: before_first sep t
       end.

(** [_get_count_query]; [None] is Python's [None], which the function
    returns when a grouped query names no table. *)
Definition _get_count_query (sql_query : str) : option str :=
  let count_query := sub icase limit_clause [] sql_query in
  let count_query := sub anycase_dotall order_by_clause [] count_query in
  if contains (L "GROUP BY") (upper count_query) then
    let before_group_by := before_first (L "GROUP BY") count_query in
    match search icase from_table before_group_by with
    | Some from_match =>
        let table_name := group_or_empty 1 from_match in
        match search anycase_dotall where_condition count_query with
        | Some where_match =>
            let where_clause := strip (group_or_empty 1 where_match) in
            Some (L "SELECT COUNT(*) as count FROM " ++ table_name
                    ++ L " WHERE " ++ where_clause)
        | None => Some (L "SELECT COUNT(*) as count FROM " ++ table_name)
        end
    | None => None
    end
  else
    Some (sub anycase_dotall select_columns (L "SELECT COUNT(*) as count FROM")
            count_query).

(** ** The collaborators and the pipeline object *)

Section Shape.
Variable A : Type.

(** The services the pipeline calls and that are not among the sources,
    and the two calls to the LLM; each may raise.  They answer the same
    way whenever they are asked the same thing. *)
Record env_of := {
  (** [settings.MAX_SEARCH_RESULTS] *)
  MAX_SEARCH_RESULTS : Z;
  (** [multi_llm_client.classify_query_type] *)
  classify_query_type : str -> (pyval_of A);
  (** [multi_llm_client.generate_response] under the SQL prompt *)
  llm_generate : str -> res str;
  (** [multi_llm_client.generate_final_response] *)
  generate_final_response : str -> (list (str * pyval_of A)) -> (pyval_of A) -> res str;
  (** [GeographicValidator] *)
  get_coverage_info : res (pyval_of A);
  validate_geographic_coverage : str -> res (pyval_of A);
  (** [db_manager] *)
  execute_query : str -> res (list (list (str * pyval_of A)));
  get_database_stats : res (pyval_of A);
  (** [vector_db_manager] *)
  semantic_search : str -> Z -> res (list (list (str * pyval_of A)));
  search_by_parameter : (pyval_of A) -> res (list (list (str * pyval_of A)));
  search_by_region : (pyval_of A) -> res (list (list (str * pyval_of A)));
  (** [visualization_generator] *)
  build_visualization_payload : list (pyval_of A) -> res (pyval_of A)
}.

(** The attributes [_sql_retrieval] sets on the pipeline object; an
    attribute that was never set is [None] here. *)
Record pipeline_of := {
  _current_total_count : option (pyval_of A);
  _current_sql_query : option str
}.

End Shape.

Arguments Build_env_of {A}.
Arguments Build_pipeline_of {A}.

Arguments MAX_SEARCH_RESULTS {A}.
Arguments classify_query_type {A}.
Arguments llm_generate {A}.
Arguments generate_final_response {A}.
Arguments get_coverage_info {A}.
Arguments validate_geographic_coverage {A}.
Arguments execute_query {A}.
Arguments get_database_stats {A}.
Arguments semantic_search {A}.
Arguments search_by_parameter {A}.
Arguments search_by_region {A}.
Arguments build_visualization_payload {A}.
Arguments _current_total_count {A}.
Arguments _current_sql_query {A}.

Abbreviation env := (env_of F).
Abbreviation pipeline := (pipeline_of F).

Section Pipeline.
Context {PF : PyFloat}.
Variable QT : Classifier.QueryTypes.

(** ** The geographic filter over search hits *)

Record region := { lat_min : Z; lat_max : Z; lon_min : Z; lon_max : Z }.

Definition regions : list (str * (region * list str)) :=
  [ (L "bay of bengal",
      ({| lat_min := 5; lat_max := 25; lon_min := 80; lon_max := 100 |},
       map L ["bay of bengal"; "bengal"; "bengal bay"]%string));
    (L "arabian sea",
      ({| lat_min := 10; lat_max := 30; lon_min := 50; lon_max := 80 |},
       map L ["arabian sea"; "arabian"; "arabia"]%string));
    (L "indian ocean",
      ({| lat_min := -60; lat_max := 30; lon_min := 20; lon_max := 120 |},
       map L ["indian ocean"; "indian"]%string));
    (L "pacific ocean",
      ({| lat_min := -60; lat_max := 60; lon_min := 120; lon_max := -120 |},
       map L ["pacific ocean"; "pacific"]%string));
    (L "atlantic ocean",
      ({| lat_min := -60; lat_max := 60; lon_min := -80; lon_max := 20 |},
       map L ["atlantic ocean"; "atlantic"]%string));
    (L "mediterranean sea",
      ({| lat_min := 30; lat_max := 45; lon_min := -5; lon_max := 40 |},
       map L ["mediterranean"; "mediterranean sea"]%string)) ]%Z.

Definition broader_regions : list (str * (region * str)) :=
  [ (L "bay of bengal",
      ({| lat_min := -10; lat_max := 30; lon_min := 60; lon_max := 120 |},
       L "broader Indian Ocean region"));
    (L "arabian sea",
      ({| lat_min := 5; lat_max := 35; lon_min := 45; lon_max := 85 |},
       L "broader Arabian Sea region"));
    (L "indian ocean",
      ({| lat_min := -60; lat_max := 30; lon_min := 20; lon_max := 120 |},
       L "broader Indian Ocean region")) ]%Z.

(** The first region one of whose keywords the query has. *)
Definition matching_region (query_lower : str) : option region :=
  fst <$> (snd <$> find (fun r => any_in (snd (snd r)) query_lower) regions).

Definition broader_region (query_lower : str) : option (region * str) :=
  snd <$> find (fun r => contains (fst r) query_lower) broader_regions.

(** [lat_min <= lat <= lat_max and lon_min <= lon <= lon_max] *)
Definition within (r : region) (lat lon : F) : bool :=
  fleb (flit (lat_min r) 0) lat && fleb lat (flit (lat_max r) 0)
  && fleb (flit (lon_min r) 0) lon && fleb lon (flit (lon_max r) 0).

(** What one turn of the filtering loop does with a hit. *)
Inductive verdict :=
| Keep
| Skip
| Fails (e : str).

(** The body of the loop.  [bare] says what happens to a hit without a
    latitude or a longitude: the first loop keeps it, the broader one
    passes over it.  Only [ValueError] and [TypeError] are caught. *)
Definition judge (r : region) (bare : verdict) (result : dict) : verdict :=
  match get_or (L "metadata") (PDict []) result with
  | PDict metadata =>
      match get_or (L "latitude") PNone metadata,
            get_or (L "longitude") PNone metadata with
      | PNone, _ | _, PNone => bare
      | lat, lon =>
          match to_float lat with
          | FOk lat_float =>
              match to_float lon with
              | FOk lon_float => if within r lat_float lon_float then Keep else Skip
              | FValueError _ | FTypeError _ => Keep
              | FOverflowError e => Fails e
              end
          | FValueError _ | FTypeError _ => Keep
          | FOverflowError e => Fails e
          end
      end
  | other => Fails (L "'" ++ type_name other ++ L "' object has no attribute 'get'")
  end.

Fixpoint filter_loop (r : region) (bare : verdict) (vector_results : list dict)
  : res (list dict) :=
  match vector_results with
  | [] => Ret []
  | result :: t =>
      match judge r bare result with
      | Keep => l ← filter_loop r bare t; Ret (result :: l)
      | Skip => filter_loop r bare t
      | Fails e => Raise e
      end
  end.

(** The note the broader search leaves in a hit's metadata. *)
Definition add_note (name : str) (result : dict) : res dict :=
  let result := if has_key (L "metadata") result then result
                else set (L "metadata") (PDict []) result in
  match get_or (L "metadata") PNone result with
  | PDict metadata =>
      Ret (set (L "metadata")
             (PDict (set (L "geographic_note")
                       (PStr (L "Using " ++ name
                                ++ L " (no specific data found in requested region)"))
                       metadata))
             result)
  | other => Raise (L "'" ++ type_name other
                      ++ L "' object does not support item assignment")
  end.

Fixpoint add_notes (name : str) (l : list dict) : res (list dict) :=
  match l with
  | [] => Ret []
  | result :: t => x ← add_note name result; r ← add_notes name t; Ret (x :: r)
  end.

Definition _filter_by_geographic_region (query : str) (vector_results : list dict)
  : res (list dict) :=
  let query_lower := lower query in
  match matching_region query_lower with
  | None => Ret vector_results
  | Some r =>
      filtered_results ← filter_loop r Keep vector_results;
      match filtered_results with
      | [] =>
          match broader_region query_lower with
          | Some (b, name) =>
              filtered_results ← filter_loop b Skip vector_results;
              add_notes name filtered_results
          | None => Ret []
          end
      | _ => Ret filtered_results
      end
  end.

(** A pipeline object as [RAGPipeline()] makes it. *)
Definition fresh : pipeline :=
  {| _current_total_count := None; _current_sql_query := None |}.

Variable E : env.

Definition rows (l : list dict) : pyval := PList (map PDict l).
Definition texts (l : list str) : pyval := PList (map PStr l).
Definition opt_text (o : option str) : pyval :=
  match o with Some s => PStr s | None => PNone end.

(** ** Retrieval *)

(** The searches for each parameter or region among the entities. *)
Fixpoint search_each (f : pyval -> res (list dict)) (l : list pyval)
  : res (list dict) :=
  match l with
  | [] => Ret []
  | x :: t => a ← f x; b ← search_each f t; Ret (a ++ b)
  end.

Definition additional (entities : pyval) (key : str) (f : pyval -> res (list dict))
  : res (list dict) :=
  v ← val_get entities key PNone;
  if truthy v then l ← py_iter v; search_each f l else Ret [].

(** The loop that drops the hits whose id was seen, and stops once
    [max_results] hits are collected. *)
Fixpoint deduplicate (max_results : Z) (seen_ids : list pyval) (unique_results : list dict)
  (l : list dict) : res (list dict) :=
  match l with
  | [] => Ret unique_results
  | result :: t =>
      let result_id := get_or (L "id") PNone result in
      if negb (hashable result_id) then unhashable result_id
      else if existsb (py_eqb result_id) seen_ids
           then deduplicate max_results seen_ids unique_results t
           else
             let unique_results := unique_results ++ [result] in
             if (max_results <=? Z.of_nat (length unique_results))%Z
             then Ret unique_results
             else deduplicate max_results (result_id :: seen_ids) unique_results t
  end.

Definition _vector_retrieval (query : str) (entities : pyval) (max_results : Z) : dict :=
  try_except
    (vector_results ← semantic_search E query max_results;
     vector_results ← _filter_by_geographic_region query vector_results;
     by_parameter ← additional entities (L "parameters") (search_by_parameter E);
     by_region ← additional entities (L "regions") (search_by_region E);
     let all_vector_results := vector_results ++ (by_parameter ++ by_region) in
     unique_results ← deduplicate max_results [] [] all_vector_results;
     Ret [ (L "sql_results", PList []);
           (L "vector_results", rows unique_results);
           (L "search_query", PStr query);
           (L "entities_searched", entities);
           (L "hybrid_results", PDict []) ])
    (fun e =>
       [ (L "sql_results", PList []);
         (L "vector_results", PList []);
         (L "error", PStr (L "Vector retrieval failed: " ++ e));
         (L "hybrid_results", PDict []) ]).

Definition direct_methods : list str :=
  map L ["geographic_direct"; "nearest_floats_direct"; "year_comparison_direct"]%string.

Definition method_is (name : string) (g : SqlGen.sqlgen) : bool :=
  match SqlGen.generation_method g with
  | Some m => str_eqb m (L name)
  | None => false
  end.

(** The statement [_sql_retrieval] executes: the generated one, with a
    limit appended where the code appends it. *)
Definition limited (g : SqlGen.sqlgen) : str :=
  let sql_query := SqlGen.sql_query g in
  if negb (contains (L "count(") (lower sql_query))
     && negb (contains (L "limit") (lower sql_query))
     && negb (match SqlGen.generation_method g with
              | Some m => existsb (str_eqb m) direct_methods
              | None => false
              end)
  then sql_query ++ L " LIMIT 25"
  else sql_query.

(** The total the count query reports, 0 when it cannot be had. *)
Definition count_total (sql_query : str) : pyval :=
  match _get_count_query sql_query with
  | Some (_ :: _ as count_query) =>
      try_except
        (count_results ← execute_query E count_query;
         match count_results with
         | first :: _ => item (L "count") first
         | [] => Ret (PInt 0)
         end)
        (fun _ => PInt 0)
  | _ => PInt 0
  end.

Definition _sql_retrieval (self : pipeline) (query : str) (entities : pyval)
  (max_results : Z) : pipeline * dict :=
  let sql_generation_result := SqlGen.generate_sql_from_query (llm_generate E) query in
  let attempt : res (pipeline * dict) :=
    if str_eqb (SqlGen.sql_query sql_generation_result) []
    then Raise (L "Failed to generate SQL query")
    else
      let sql_query := limited sql_generation_result in
      let total_count := count_total sql_query in
      let total_count :=
        if method_is "nearest_floats_direct" sql_generation_result
        then PInt 0 else total_count in
      sql_results ← execute_query E sql_query;
      let self' :=
        {| _current_total_count :=
             Some (if method_is "nearest_floats_direct" sql_generation_result
                   then PInt (Z.of_nat (length sql_results)) else total_count);
           _current_sql_query := Some sql_query |} in
      Ret (self',
           [ (L "sql_results", rows sql_results);
             (L "sql_query", PStr sql_query);
             (L "sql_explanation", PStr (SqlGen.explanation sql_generation_result));
             (L "estimated_results", PStr (SqlGen.estimated_results sql_generation_result));
             (L "parameters_used", texts (SqlGen.parameters_used sql_generation_result));
             (L "generation_method",
               PStr (default (L "intelligent")
                       (SqlGen.generation_method sql_generation_result)));
             (L "generation_error", opt_text (SqlGen.error sql_generation_result));
             (L "vector_results", PList []);
             (L "hybrid_results", PDict []) ]) in
  match attempt with
  | Ret x => x
  | Raise _ => (self, _vector_retrieval query entities max_results)
  end.

(** [_hybrid_retrieval]: the two tasks run one after the other, as
    neither gives way before it ends; nothing in the body raises. *)
Definition _hybrid_retrieval (self : pipeline) (query : str) (entities : pyval)
  (max_results : Z) : pipeline * dict :=
  let '(self', sql_data) := _sql_retrieval self query entities (max_results / 2) in
  let vector_data := _vector_retrieval query entities (max_results / 2) in
  (self',
   [ (L "sql_results", get_or (L "sql_results") (PList []) sql_data);
     (L "vector_results", get_or (L "vector_results") (PList []) vector_data);
     (L "hybrid_results",
       PDict [ (L "sql_component", PDict sql_data);
               (L "vector_component", PDict vector_data);
               (L "combination_strategy", PStr (L "parallel_retrieval")) ]);
     (L "sql_query", get_or (L "sql_query") (PStr []) sql_data);
     (L "search_query", get_or (L "search_query") (PStr query) vector_data);
     (L "generation_method",
       get_or (L "generation_method") (PStr (L "intelligent")) sql_data) ]).

(** [_retrieve_data]: what is raised before the [try] goes to the
    caller; inside it, the statistics are added to whatever the
    retrieval gave, and a failure leaves its message under [error]. *)
Definition _retrieve_data (self : pipeline) (query : str) (classification : dict)
  (max_results : Z) : pipeline * res dict :=
  match item (L "query_type") classification with
  | Raise e => (self, Raise e)
  | Ret query_type =>
      let entities := get_or (L "extracted_entities") (PDict []) classification in
      let '(self', retrieved_data) :=
        if py_eqb query_type (PStr (Classifier.SQL_RETRIEVAL QT))
        then _sql_retrieval self query entities max_results
        else if py_eqb query_type (PStr (Classifier.VECTOR_RETRIEVAL QT))
        then (self, _vector_retrieval query entities max_results)
        else if py_eqb query_type (PStr (Classifier.HYBRID_RETRIEVAL QT))
        then _hybrid_retrieval self query entities max_results
        else (self, [ (L "sql_results", PList []);
                      (L "vector_results", PList []);
                      (L "hybrid_results", PDict []);
                      (L "database_stats", PDict []) ]) in
      (self',
       Ret match get_database_stats E with
           | Ret stats => set (L "database_stats") stats retrieved_data
           | Raise e => set (L "error") (PStr e) retrieved_data
           end)
  end.

(** ** The formatters *)

Definition nat_text (n : nat) : str := str_of_N (N.of_nat n).
Definition eol : str := [nl].
Definition unknown : pyval := PStr (L "Unknown").
Definition no_data_text : str := L "No data available for your query.".

(** The result rows or hits held in a value. *)
Fixpoint as_rows (l : list pyval) : res (list dict) :=
  match l with
  | [] => Ret []
  | PDict d :: t => r ← as_rows t; Ret (d :: r)
  | other :: _ => Raise (L "'" ++ type_name other ++ L "' object has no attribute 'get'")
  end.

Definition rows_of (v : pyval) : res (list dict) :=
  l ← py_iter v; as_rows l.

(** The coordinate the way the data formatter prints it: the absolute
    value to three decimals, the degree sign, the hemisphere. *)
Definition hemisphere (positive negative : string) (v : pyval) : res str :=
  a ← py_abs v;
  t ← format_fixed 3 a;
  b ← py_ge0 v;
  Ret (t ++ [deg] ++ L (if b : bool then positive else negative)).

(** The years of a count by year, each with its count; a year seen
    again takes the later count. *)
Fixpoint year_insert (year : Z) (count : pyval) (year_data : list (Z * pyval))
  : list (Z * pyval) :=
  match year_data with
  | [] => [(year, count)]
  | (y, c) :: t =>
      if (y =? year)%Z then (y, count) :: t else (y, c) :: year_insert year count t
  end.

Fixpoint collect_years (results : list dict) (year_data : list (Z * pyval))
  : res (list (Z * pyval)) :=
  match results with
  | [] => Ret year_data
  | result :: t =>
      match get (L "year") result, get (L "count") result with
      | Some y, Some count =>
          year ← py_int y; collect_years t (year_insert year count year_data)
      | _, _ => collect_years t year_data
      end
  end.

Fixpoint insert_year (p : Z * pyval) (l : list (Z * pyval)) : list (Z * pyval) :=
  match l with
  | [] => [p]
  | q :: t => if (fst p <=? fst q)%Z then p :: l else q :: insert_year p t
  end.
Definition sorted_years (year_data : list (Z * pyval)) : list (Z * pyval) :=
  foldr insert_year [] year_data.

Fixpoint year_lines (l : list (Z * pyval)) : res str :=
  match l with
  | [] => Ret []
  | (year, count) :: t =>
      c ← format_comma count;
      r ← year_lines t;
      Ret (L "**" ++ str_of_Z year ++ L "**: " ++ c ++ L " profiles" ++ eol ++ r)
  end.

(** The lines of an aggregate record. *)
Fixpoint aggregate_lines (sql_query : str) (record : dict) : res str :=
  match record with
  | [] => Ret []
  | (key, value) :: t =>
      line ←
        (if existsb (str_eqb key) (map L ["min"; "max"; "avg"]%string) then
           let title := match key with
                        | c :: r => upper_char c :: r
                        | [] => []
                        end in
           if contains (L "temperature") (lower sql_query) then
             v ← format_fixed 2 value;
             Ret (L "**" ++ title ++ L " Temperature**: " ++ v ++ [deg] ++ L "C" ++ eol)
           else if contains (L "salinity") (lower sql_query) then
             v ← format_fixed 2 value;
             Ret (L "**" ++ title ++ L " Salinity**: " ++ v ++ L " PSU" ++ eol)
           else if contains (L "depth") (lower sql_query)
                   || contains (L "pressure") (lower sql_query) then
             v ← format_fixed 1 value;
             Ret (L "**" ++ title ++ L " Depth**: " ++ v ++ L "m" ++ eol)
           else Ret (L "**" ++ title ++ L "**: " ++ py_str value ++ eol)
         else if str_eqb key (L "count") then
           v ← format_comma value; Ret (L "**Total Count**: " ++ v ++ eol)
         else if str_eqb key (L "sum") then
           Ret (L "**Total Sum**: " ++ py_str value ++ eol)
         else Ret []);
      r ← aggregate_lines sql_query t;
      Ret (line ++ r)
  end.

(** The lines of the latitude bands of a temperature variation. *)
Fixpoint band_lines (results : list dict) : res str :=
  match results with
  | [] => Ret []
  | record :: t =>
      let lat := get_or (L "latitude") (PInt 0) record in
      let surface_temp := get_or (L "surface_temp") PNone record in
      let deep_temp := get_or (L "deep_temp") PNone record in
      lat_str ← hemisphere "N" "S" lat;
      s ← match surface_temp with
          | PNone => Ret []
          | _ => v ← format_fixed 2 surface_temp;
                 Ret (L "  - Surface Temperature: " ++ v ++ [deg] ++ L "C" ++ eol)
          end;
      d ← match deep_temp with
          | PNone => Ret []
          | _ => v ← format_fixed 2 deep_temp;
                 Ret (L "  - Deep Temperature: " ++ v ++ [deg] ++ L "C" ++ eol)
          end;
      r ← band_lines t;
      Ret (L "**" ++ lat_str ++ L "**:" ++ eol ++ s ++ d ++ eol ++ r)
  end.

(** A hit of the vector search flattened to the fields of a row. *)
Definition flatten (result : dict) : res (pyval * dict) :=
  if has_key (L "metadata") result then
    match get_or (L "metadata") (PDict []) result with
    | PDict metadata =>
        let float_id := get_or (L "float_id") unknown metadata in
        Ret (float_id,
             [ (L "float_id", float_id);
               (L "latitude", get_or (L "latitude") PNone metadata);
               (L "longitude", get_or (L "longitude") PNone metadata);
               (L "profile_date", get_or (L "date") PNone metadata);
               (L "profile_id", get_or (L "profile_id") unknown metadata) ])
    | other => Raise (L "'" ++ type_name other ++ L "' object has no attribute 'get'")
    end
  else Ret (get_or (L "float_id") unknown result, result).

Fixpoint group_add (float_id : pyval) (r : dict) (groups : list (pyval * list dict))
  : list (pyval * list dict) :=
  match groups with
  | [] => [(float_id, [r])]
  | (k, l) :: t =>
      if py_eqb k float_id then (k, l ++ [r]) :: t
      else (k, l) :: group_add float_id r t
  end.

Fixpoint group_by_float (results : list dict) (float_groups : list (pyval * list dict))
  : res (list (pyval * list dict)) :=
  match results with
  | [] => Ret float_groups
  | result :: t =>
      p ← flatten result;
      if hashable (fst p)
      then group_by_float t (group_add (fst p) (snd p) float_groups)
      else unhashable (fst p)
  end.

(** The text for the time a float has been operating. *)
Definition duration_text (operating_duration : pyval) : str :=
  match operating_duration with
  | PObj _ _ (Some days) =>
      let years := (days / 365)%Z in
      let remaining_days := (days mod 365)%Z in
      if (0 <? years)%Z
      then str_of_Z years ++ L " years, " ++ str_of_Z remaining_days ++ L " days"
      else str_of_Z days ++ L " days"
  | _ => py_str operating_duration
  end.

(** One numbered line of a float's records. *)
Definition record_line (i : nat) (float_id : pyval) (record : dict) : res str :=
  let lat := get_or (L "latitude") PNone record in
  let lon := get_or (L "longitude") PNone record in
  let date := get_or (L "profile_date") unknown record in
  let profile_id := get_or (L "profile_id") unknown record in
  let max_pressure := get_or (L "max_pressure") PNone record in
  if is_number lat && is_number lon then
    lat_str ← hemisphere "N" "S" lat;
    lon_str ← hemisphere "E" "W" lon;
    depth_info ← match max_pressure with
                 | PNone => Ret []
                 | _ => depth_m ← py_round1 max_pressure;
                        Ret (L " - " ++ py_str depth_m ++ L "m depth")
                 end;
    Ret (L "  " ++ nat_text (i + 1) ++ L ". " ++ py_str profile_id ++ L ": "
           ++ lat_str ++ L ", " ++ lon_str ++ L " (" ++ py_str date ++ L ")"
           ++ depth_info ++ eol)
  else
    let first_date := get_or (L "first_profile_date") unknown record in
    let last_date := get_or (L "last_profile_date") unknown record in
    let total_profiles := get_or (L "total_profiles") unknown record in
    let operating_duration := get_or (L "operating_duration") unknown record in
    Ret (L "  " ++ nat_text (i + 1) ++ L ". " ++ py_str float_id ++ L ": "
           ++ py_str first_date ++ L " to " ++ py_str last_date ++ L " ("
           ++ py_str total_profiles ++ L " profiles, "
           ++ duration_text operating_duration ++ L ")" ++ eol).

Fixpoint record_lines (i : nat) (float_id : pyval) (records : list dict) : res str :=
  match records with
  | [] => Ret []
  | record :: t =>
      a ← record_line i float_id record;
      b ← record_lines (S i) float_id t;
      Ret (a ++ b)
  end.

Fixpoint float_lines (groups : list (pyval * list dict)) : res str :=
  match groups with
  | [] => Ret []
  | (float_id, records) :: t =>
      body ← record_lines 0 float_id (firstn 5 records);
      r ← float_lines t;
      Ret (L "**Float " ++ py_str float_id ++ L "** (" ++ nat_text (length records)
             ++ L " records):" ++ eol ++ body
             ++ (if 5 <? length records
                 then L "     ... and " ++ nat_text (length records - 5)
                        ++ L " more records" ++ eol
                 else [])
             ++ eol ++ r)
  end.

Definition count_keywords : list str :=
  map L ["how many"; "count"; "number of profiles"; "profiles in"]%string.

(** [getattr(self, '_current_total_count', len(results))] *)
Definition current_total (self : pipeline) (results : list dict) : pyval :=
  default (PInt (Z.of_nat (length results))) (_current_total_count self).

Definition _generate_raw_data_response (self : pipeline) (query : str)
  (results : list dict) (data_source sql_query : str) : res str :=
  match results with
  | [] => Ret no_data_text
  | first :: others =>
      match others, get (L "count") first with
      | [], Some count_value =>
          c ← format_comma count_value;
          Ret (L "**Database Results** (1 record found):" ++ eol ++ eol
                 ++ L "**Total Count**: " ++ c ++ eol)
      | _, _ =>
          year_data ← (if any_in count_keywords (lower query)
                       then collect_years results [] else Ret []);
          match year_data with
          | _ :: _ =>
              let total_count := current_total self results in
              n ← format_comma total_count;
              lines ← year_lines (sorted_years year_data);
              total ← py_sum (map snd year_data);
              t ← format_comma total;
              Ret (L "**Database Results** (" ++ n ++ L " records found):" ++ eol ++ eol
                     ++ L "**Profile Counts by Year:**" ++ eol ++ eol
                     ++ lines
                     ++ eol ++ L "**Total**: " ++ t ++ L " profiles" ++ eol)
          | [] =>
              let total_count := current_total self results in
              n ← format_comma total_count;
              more ← py_gt_int total_count (Z.of_nat (length results));
              let response :=
                L "**Database Results** (" ++ n ++ L " records found):" ++ eol ++ eol
                  ++ (if more : bool
                      then L "**Displaying a few of them:**" ++ eol ++ eol else []) in
              if negb (has_key (L "float_id") first)
                 && existsb (fun key => has_key key first)
                      (map L ["min"; "max"; "avg"; "count"; "sum"]%string)
              then
                lines ← aggregate_lines sql_query first; Ret (response ++ lines)
              else if has_key (L "latitude") first
                      && (has_key (L "surface_temp") first
                          || has_key (L "deep_temp") first)
                      && negb (has_key (L "float_id") first)
              then
                lines ← band_lines results; Ret (response ++ lines)
              else
                float_groups ← group_by_float results [];
                lines ← float_lines (firstn 20 float_groups);
                Ret (response ++ lines
                       ++ (if 20 <? length float_groups
                           then L "... and " ++ nat_text (length float_groups - 20)
                                  ++ L " more floats" ++ eol
                           else []))
          end
      end
  end.

Definition _generate_data_response (self : pipeline) (query : str)
  (retrieved_data : dict) (query_type : pyval) : res str :=
  let sql_results := get_or (L "sql_results") (PList []) retrieved_data in
  let vector_results := get_or (L "vector_results") (PList []) retrieved_data in
  match py_len sql_results, py_len vector_results with
  | Some _, Some _ =>
      let sql_query := default [] (_current_sql_query self) in
      if truthy sql_results then
        results ← rows_of sql_results;
        _generate_raw_data_response self query results (L "SQL database") sql_query
      else if truthy vector_results then
        results ← rows_of vector_results;
        _generate_raw_data_response self query results (L "vector search") sql_query
      else Ret no_data_text
  | None, _ => Raise (L "object of type '" ++ type_name sql_results ++ L "' has no len()")
  | _, None => Raise (L "object of type '" ++ type_name vector_results
                        ++ L "' has no len()")
  end.

(** The two formatters of the parameter and trajectory answers. *)
Fixpoint parameter_lines (i : nat) (results : list dict) : res str :=
  match results with
  | [] => Ret []
  | result :: t =>
      let float_id := get_or (L "float_id") unknown result in
      let date := get_or (L "profile_date")
                    (get_or (L "date") (PStr (L "Unknown date")) result) result in
      a ← match get (L "surface_temperature") result with
          | Some v => x ← format_fixed 2 v;
                      Ret (L "  - Surface Temperature: " ++ x ++ [deg] ++ L "C" ++ eol)
          | None => Ret []
          end;
      b ← match get (L "surface_salinity") result with
          | Some v => x ← format_fixed 2 v;
                      Ret (L "  - Surface Salinity: " ++ x ++ L " PSU" ++ eol)
          | None => Ret []
          end;
      c ← match get (L "max_depth") result with
          | Some v => x ← format_fixed 1 v;
                      Ret (L "  - Maximum Depth: " ++ x ++ L "m" ++ eol)
          | None => Ret []
          end;
      d ← match get (L "latitude") result, get (L "longitude") result with
          | Some lat, Some lon =>
              x ← format_fixed 3 lat;
              y ← format_fixed 3 lon;
              Ret (L "  - Location: " ++ x ++ [deg] ++ L "N, " ++ y ++ [deg] ++ L "E" ++ eol)
          | _, _ => Ret []
          end;
      r ← parameter_lines (S i) t;
      Ret (L "**Profile " ++ nat_text (i + 1) ++ L " (Float " ++ py_str float_id
             ++ L ", " ++ py_str date ++ L "):**" ++ eol
             ++ a ++ b ++ c ++ d ++ eol ++ r)
  end.

Definition _generate_parameter_response (query : str) (results : list dict)
  (data_source : str) : res str :=
  match results with
  | [] => Ret (L "No oceanographic parameter data found for the specified criteria.")
  | _ =>
      lines ← parameter_lines 0 (firstn 5 results);
      Ret (L "Found oceanographic data from " ++ data_source ++ L ":" ++ eol ++ eol
             ++ lines
             ++ (if 5 <? length results
                 then L "... and " ++ nat_text (length results - 5)
                        ++ L " more profiles" ++ eol
                 else []))
  end.

(** The locations of the floats of a trajectory answer, float by float
    in the order the floats are met. *)
Definition location : Type := F * F * pyval.

Fixpoint location_add (float_id : pyval) (loc : option location)
  (float_data : list (pyval * list location)) : list (pyval * list location) :=
  match float_data with
  | [] => [(float_id, match loc with Some x => [x] | None => [] end)]
  | (k, l) :: t =>
      if py_eqb k float_id
      then (k, match loc with Some x => l ++ [x] | None => l end) :: t
      else (k, l) :: location_add float_id loc t
  end.

Fixpoint collect_locations (results : list dict)
  (float_data : list (pyval * list location)) : res (list (pyval * list location)) :=
  match results with
  | [] => Ret float_data
  | result :: t =>
      let metadata := get_or (L "metadata") (PDict []) result in
      has_id ← py_in (L "float_id") metadata;
      if has_id : bool then
        float_id ← py_item (L "float_id") metadata;
        if negb (hashable float_id) then unhashable float_id
        else
          has_lat ← py_in (L "latitude") metadata;
          has_lon ← (if has_lat : bool then py_in (L "longitude") metadata else Ret false);
          if has_lon : bool then
            lat_v ← py_item (L "latitude") metadata;
            lat ← py_float lat_v;
            lon_v ← py_item (L "longitude") metadata;
            lon ← py_float lon_v;
            date ← val_get metadata (L "date") (PStr (L "Unknown date"));
            collect_locations t (location_add float_id (Some (lat, lon, date)) float_data)
          else collect_locations t (location_add float_id None float_data)
      else collect_locations t float_data
  end.

Definition location_line (loc : location) : str :=
  let '(lat, lon, date) := loc in
  L "  - " ++ ffix 3 lat ++ [deg] ++ L "N, " ++ ffix 3 lon ++ [deg] ++ L "E ("
    ++ py_str date ++ L ")" ++ eol.

Definition trajectory_lines (float_data : list (pyval * list location)) : str :=
  concat (map (fun p =>
                 L "**Float " ++ py_str (fst p) ++ L ":**" ++ eol
                   ++ concat (map location_line (firstn 5 (snd p)))
                   ++ (if 5 <? length (snd p)
                       then L "  - ... and " ++ nat_text (length (snd p) - 5)
                              ++ L " more locations" ++ eol
                       else [])
                   ++ eol) float_data).

Definition _generate_trajectory_response (query : str) (results : list dict)
  (data_source : str) : res str :=
  match results with
  | [] => Ret (L "No ARGO float trajectory data found for the specified criteria.")
  | _ =>
      float_data ← collect_locations (firstn 10 results) [];
      match float_data with
      | [] => Ret (L "ARGO float data found, but location information is not available.")
      | _ =>
          Ret (L "Found ARGO float trajectory data from " ++ data_source ++ L ":"
                 ++ eol ++ eol
                 ++ trajectory_lines float_data
                 ++ L "Total floats found: " ++ nat_text (length float_data) ++ eol
                 ++ L "Total data points: "
                 ++ nat_text (list_sum (map (fun p => length (snd p)) float_data)))
      end
  end.

(** The float a query names: the first of the four patterns that is
    found gives the digits. *)
Definition float_id_patterns : list regex :=
  [ Seqs [lit "float"; blanks; Grp 1 (Plus true Digit)];
    Seqs [lit "argo"; blanks; lit "float"; blanks; Grp 1 (Plus true Digit)];
    Seqs [lit "float"; blanks; lit "id"; blanks; Grp 1 (Plus true Digit)];
    Seqs [lit "float"; blanks; Grp 1 (Rep 7 Digit)] ].

Fixpoint first_found (patterns : list regex) (s : str) : option rmatch :=
  match patterns with
  | [] => None
  | r :: t => match search plain r s with
              | Some x => Some x
              | None => first_found t s
              end
  end.

Definition named_float (query : str) : option str :=
  group_or_empty 1 <$> first_found float_id_patterns (lower query).

Definition date_query (float_id : str) : str :=
  eol ++ L "                SELECT MIN(profile_date) as min_date, MAX(profile_date) as max_date, COUNT(*) as total_profiles"
    ++ eol ++ L "                FROM argo_profiles "
    ++ eol ++ L "                WHERE float_id = '" ++ float_id ++ L "'"
    ++ eol ++ L "                ".

Definition float_dates (float_id : str) : res str :=
  date_result ← execute_query E (date_query float_id);
  let absent :=
    L "Float " ++ float_id
      ++ L " does not exist in the ARGO database. Please check the float ID and try again." in
  match date_result with
  | [] => Ret absent
  | first :: _ =>
      n ← item (L "total_profiles") first;
      some ← py_gt_int n 0;
      if some : bool then
        min_date ← item (L "min_date") first;
        max_date ← item (L "max_date") first;
        total_profiles ← item (L "total_profiles") first;
        Ret (L "**No Data Found for Requested Date**" ++ eol ++ eol
               ++ L "Float " ++ float_id
               ++ L " exists in the database but has no data for the requested date."
               ++ eol ++ eol
               ++ L "**Available Data for Float " ++ float_id ++ L ":**" ++ eol
               ++ L "- Date Range: " ++ py_str min_date ++ L " to " ++ py_str max_date ++ eol
               ++ L "- Total Profiles: " ++ py_str total_profiles ++ eol ++ eol
               ++ L "**Suggestions:**" ++ eol
               ++ L "- Try a date within the available range (" ++ py_str min_date
               ++ L " to " ++ py_str max_date ++ L ")" ++ eol
               ++ L "- Ask for the temperature profile for a different date" ++ eol
               ++ L "- Request general information about this float's data coverage")
      else Ret absent
  end.

Definition suggestions_text (entities : pyval) : res str :=
  p ← val_get entities (L "parameters") PNone;
  l ← val_get entities (L "locations") PNone;
  d ← val_get entities (L "dates") PNone;
  let suggestions :=
    (if truthy p then [L "Try searching for different oceanographic parameters"] else [])
    ++ (if truthy l then [L "Consider expanding the geographic area"] else [])
    ++ (if truthy d then [L "Try a different date range"] else []) in
  Ret (match suggestions with
       | [] => []
       | _ => L " You might want to: " ++ join (L ", ") suggestions
       end).

Definition _generate_no_results_response (query : str) (classification : dict)
  : res str :=
  let entities := get_or (L "extracted_entities") (PDict []) classification in
  let general :=
    suggestion_text ← suggestions_text entities;
    Ret (L "I couldn't find specific data matching your query about " ++ query ++ L "."
           ++ suggestion_text
           ++ L " You can also try rephrasing your question or asking for general information about ARGO float data.") in
  match named_float query with
  | Some (_ :: _ as float_id) =>
      match float_dates float_id with
      | Ret s => Ret s
      | Raise _ => general
      end
  | _ => general
  end.

Definition comparison_keywords : list str :=
  map L ["compare"; "versus"; "vs"; "between"; "comparison"; "compared"]%string.

Definition _is_year_comparison_query (query : str) (retrieved_data : dict) : res bool :=
  sql_results ← py_iter (get_or (L "sql_results") (PList []) retrieved_data);
  let has_comparison_keywords := any_in comparison_keywords (lower query) in
  let has_year_data := existsb (fun row => contains (L "year") (py_str row)) sql_results in
  let is_year_comparison_sql :=
    py_eqb (get_or (L "generation_method") (PStr []) retrieved_data)
      (PStr (L "year_comparison_direct")) in
  Ret (has_comparison_keywords && has_year_data && is_year_comparison_sql).

Definition _is_float_not_found_query (query : str) (sql_results : list dict) : bool :=
  let has_float_query :=
    bool_decide (is_Some (first_found float_id_patterns (lower query))) in
  let is_float_not_found :=
    match sql_results with
    | [ (_ :: _) as row ] =>
        forallb (fun kv => match snd kv with PNone => true | _ => false end) row
    | _ => false
    end in
  has_float_query && is_float_not_found.

Definition similar_query (float_id : str) : str :=
  L "SELECT DISTINCT float_id FROM argo_profiles WHERE float_id LIKE '"
    ++ firstn 4 float_id ++ L "%' ORDER BY float_id LIMIT 5".

Fixpoint float_ids_of (l : list dict) : res (list pyval) :=
  match l with
  | [] => Ret []
  | row :: t => x ← item (L "float_id") row; r ← float_ids_of t; Ret (x :: r)
  end.

Definition _generate_float_not_found_response (query : str) (sql_results : list dict)
  : str :=
  match named_float query with
  | Some (_ :: _ as float_id) =>
      let similar_ids :=
        try_except
          (similar_floats ← execute_query E (similar_query float_id);
           float_ids_of similar_floats)
          (fun _ => []) in
      join eol
        ([ L "**Float " ++ float_id ++ L " Not Found**";
           [];
           L "Float " ++ float_id ++ L " does not exist in the ARGO database.";
           [];
           L "**Database Information:**";
           L "- Total unique floats: 1,800";
           L "- Date range: 2019-2025";
           L "- Total profiles: 122,215" ]
         ++ match similar_ids with
            | [] => []
            | _ => [ []; L "**Similar Float IDs:**" ]
                     ++ map (fun similar_id => L "- " ++ py_str similar_id) similar_ids
            end
         ++ [ [];
              L "Please check the float ID and try again, or ask about available floats in a specific region or time period." ])
  | _ => L "I couldn't find the specific float you're asking about. Please provide a valid float ID."
  end.

(** [_generate_year_comparison_response] averages with float
    division, which the float interface of this development leaves
    out: it is taken as it comes, a function of the query and the rows
    that may raise. *)
Variable _generate_year_comparison_response : str -> list dict -> res pyval.

Definition data_keywords : list str :=
  map L ["show"; "find"; "get"; "list"; "display"; "float"; "data"; "profile";
         "temperature"; "salinity"; "trajectory"; "trajectories"; "location";
         "coordinates"; "map"; "bay"; "ocean"; "sea"]%string.

Definition no_data_answer : dict :=
  [ (L "answer", PStr no_data_text);
    (L "classification", PDict [ (L "query_type", PStr (L "no_data")) ]);
    (L "data", PDict [ (L "records", PList []) ]);
    (L "visualization", PDict []);
    (L "response_id", PStr (L "no_data_available")) ].

(** Whether the LLM's answer is kept. *)
Definition meaningful (response : str) : bool :=
  negb (str_eqb response [])
  && negb (str_eqb (strip response) [])
  && negb (contains (L "query processed successfully") (lower response))
  && negb (contains (L "no data found") (lower response))
  && negb (contains (L "no data available") (lower response))
  && (50 <? length response).

Definition _generate_response (self : pipeline) (query : str) (classification : dict)
  (retrieved_data : dict) : pyval :=
  try_except
    (query_type ← item (L "query_type") classification;
     let sql_results := get_or (L "sql_results") (PList []) retrieved_data in
     let vector_results := get_or (L "vector_results") (PList []) retrieved_data in
     if negb (truthy sql_results) && negb (truthy vector_results) then
       PStr <$> _generate_no_results_response query classification
     else
       year_comparison ← _is_year_comparison_query query retrieved_data;
       if year_comparison : bool then
         l ← rows_of sql_results; _generate_year_comparison_response query l
       else
         l ← rows_of sql_results;
         if _is_float_not_found_query query l then
           Ret (PStr (_generate_float_not_found_response query l))
         else if any_in data_keywords (lower query) then
           Ret (match _generate_data_response self query retrieved_data query_type with
                | Ret response => PStr response
                | Raise _ => PDict no_data_answer
                end)
         else
           match generate_final_response E query retrieved_data query_type with
           | Ret response =>
               if meaningful response then Ret (PStr response)
               else PStr <$> _generate_data_response self query retrieved_data query_type
           | Raise _ =>
               PStr <$> _generate_data_response self query retrieved_data query_type
           end)
    (fun e =>
       PStr (L "I found some relevant data for your query, but encountered an error while generating the response. Error: " ++ e)).

(** ** The orchestrator *)

Definition _get_data_sources_used (retrieved_data : dict) : list str :=
  (if get_true (L "sql_results") retrieved_data then [L "PostgreSQL database"] else [])
  ++ (if get_true (L "vector_results") retrieved_data
      then [L "Vector database (semantic search)"] else [])
  ++ (if get_true (L "hybrid_results") retrieved_data then [L "Hybrid retrieval"] else []).

Definition len_or_raise (v : pyval) : res nat :=
  match py_len v with
  | Some n => Ret n
  | None => Raise (L "object of type '" ++ type_name v ++ L "' has no len()")
  end.

Definition _count_total_results (retrieved_data : dict) : res nat :=
  a ← (if get_true (L "sql_results") retrieved_data
       then len_or_raise (get_or (L "sql_results") PNone retrieved_data) else Ret 0);
  b ← (if get_true (L "vector_results") retrieved_data
       then len_or_raise (get_or (L "vector_results") PNone retrieved_data) else Ret 0);
  Ret (a + b).

Definition _create_error_response (query error : str) : dict :=
  [ (L "success", PBool false);
    (L "query", PStr query);
    (L "classification",
      PDict [ (L "query_type", PStr (Classifier.VECTOR_RETRIEVAL QT));
              (L "confidence", PFloat (flit 0 1));
              (L "reasoning", PStr (L "Error occurred during processing")) ]);
    (L "retrieved_data",
      PDict [ (L "sql_results", PList []);
              (L "vector_results", PList []);
              (L "error", PStr error) ]);
    (L "response",
      PStr (L "I encountered an error while processing your query: " ++ error
              ++ L ". Please try rephrasing your question."));
    (L "metadata",
      PDict [ (L "query_type", PStr (L "error"));
              (L "confidence", PFloat (flit 0 1));
              (L "data_sources_used", PList []);
              (L "total_results", PInt 0) ]) ].

Definition coverage_phrases : list str :=
  map L ["what data"; "data coverage"; "ocean regions"; "available data";
         "what oceans"]%string.

Definition force_sql_keywords : list str :=
  map L ["show"; "find"; "get"; "list"; "display"; "float"; "data"; "profile";
         "temperature"; "salinity"; "trajectory"; "trajectories"; "location";
         "coordinates"; "map"; "bay"; "ocean"; "sea"; "equator"; "near"]%string.

Definition visualization_keywords : list str :=
  map L ["map"; "coordinates"; "visualization"; "plot"; "geojson"; "trajectory";
         "trajectories"]%string.

Definition coverage_answer : res dict :=
  coverage_info ← get_coverage_info E;
  total ← py_item (L "total_profiles") coverage_info;
  total ← format_comma total;
  description ← py_item (L "description") coverage_info;
  lon ← py_item (L "longitude_range") coverage_info;
  lon0 ← py_index 0 lon;
  lon ← py_item (L "longitude_range") coverage_info;
  lon1 ← py_index 1 lon;
  lat ← py_item (L "latitude_range") coverage_info;
  lat0 ← py_index 0 lat;
  lat ← py_item (L "latitude_range") coverage_info;
  lat1 ← py_index 1 lat;
  Ret [ (L "answer",
          PStr (L "Our ARGO float database contains " ++ total
                  ++ L " profiles from the " ++ py_str description
                  ++ L ". Longitude range: " ++ py_str lon0 ++ [deg] ++ L "E to "
                  ++ py_str lon1 ++ [deg] ++ L "E, Latitude range: "
                  ++ py_str lat0 ++ [deg] ++ L "S to " ++ py_str lat1 ++ [deg]
                  ++ L "N. We do not have data for the Atlantic Ocean, Pacific Ocean, Arctic Ocean, or Mediterranean Sea."));
        (L "classification", PDict [ (L "query_type", PStr (L "coverage_info")) ]);
        (L "data", PDict [ (L "records", PList []) ]);
        (L "visualization", PDict []);
        (L "response_id", PStr (L "coverage_info")) ].

(** The override that sends every data query to SQL. *)
Definition forced (user_query : str) (classification : dict) : dict :=
  if any_in force_sql_keywords (lower user_query) then
    set (L "reasoning")
      (PStr (L "Forced SQL retrieval for data query to prevent hallucination"))
      (set (L "confidence") (PFloat (flit 10 1))
         (set (L "query_type") (PStr (Classifier.SQL_RETRIEVAL QT)) classification))
  else classification.

(** The points handed to the visualisation when there are no rows. *)
Fixpoint points_of (vector_results : list pyval) : res (list pyval) :=
  match vector_results with
  | [] => Ret []
  | vector_result :: t =>
      metadata ← val_get vector_result (L "metadata") (PDict []);
      lat ← val_get metadata (L "latitude") PNone;
      lon ← (if truthy lat then val_get metadata (L "longitude") PNone else Ret PNone);
      if truthy lat && truthy lon then
        lat_v ← py_item (L "latitude") metadata;
        x ← py_float lat_v;
        lon_v ← py_item (L "longitude") metadata;
        y ← py_float lon_v;
        date ← val_get metadata (L "date") PNone;
        profile_id ← val_get metadata (L "profile_id") PNone;
        float_id ← val_get metadata (L "float_id") PNone;
        r ← points_of t;
        Ret (PDict [ (L "latitude", PFloat x);
                     (L "longitude", PFloat y);
                     (L "profile_date", date);
                     (L "profile_id", profile_id);
                     (L "float_id", float_id) ] :: r)
      else points_of t
  end.

Definition visualization (user_query : str) (retrieved_data : dict) : pyval :=
  let should_generate_visualization :=
    any_in visualization_keywords (lower user_query)
    || (py_eqb (get_or (L "generation_method") PNone retrieved_data)
          (PStr (L "year_comparison_direct"))
        && get_true (L "sql_results") retrieved_data) in
  if should_generate_visualization then
    try_except
      (let results_for_visualization := get_or (L "sql_results") (PList []) retrieved_data in
       points ← (if truthy results_for_visualization
                 then py_iter results_for_visualization
                 else l ← py_iter (get_or (L "vector_results") (PList []) retrieved_data);
                      points_of l);
       build_visualization_payload E points)
      (fun e => PDict [ (L "error", PStr e) ])
  else PDict [].

(** The body of [process_query] inside its [try]. *)
Definition process_body (self : pipeline) (user_query : str) (max_results : option Z)
  : pipeline * res dict :=
  let max_results :=
    match max_results with
    | Some n => if (n =? 0)%Z then MAX_SEARCH_RESULTS E else n
    | None => MAX_SEARCH_RESULTS E
    end in
  match Classifier.classify_query QT (classify_query_type E) user_query with
  | Raise e => (self, Raise e)
  | Ret classification =>
      if any_in coverage_phrases (lower user_query) then (self, coverage_answer)
      else
        match
          (geographic_validation ← validate_geographic_coverage E user_query;
           is_valid ← py_item (L "is_valid") geographic_validation;
           if truthy is_valid then Ret None
           else
             _ ← py_item (L "unavailable_regions") geographic_validation;
             _ ← py_item (L "available_regions") geographic_validation;
             message ← py_item (L "message") geographic_validation;
             Ret (Some message))
        with
        | Raise e => (self, Raise e)
        | Ret (Some message) =>
            (self,
             Ret [ (L "answer", message);
                   (L "classification", PDict classification);
                   (L "data", PDict [ (L "records", PList []) ]);
                   (L "visualization", PDict []);
                   (L "response_id", PStr (L "geographic_validation_failed")) ])
        | Ret None =>
            let classification := forced user_query classification in
            match _retrieve_data self user_query classification max_results with
            | (self', Raise e) => (self', Raise e)
            | (self', Ret retrieved_data) =>
                let final_response :=
                  _generate_response self' user_query classification retrieved_data in
                (self',
                 query_type ← item (L "query_type") classification;
                 confidence ← item (L "confidence") classification;
                 total_results ← _count_total_results retrieved_data;
                 Ret [ (L "success", PBool true);
                       (L "query", PStr user_query);
                       (L "classification", PDict classification);
                       (L "retrieved_data", PDict retrieved_data);
                       (L "response", final_response);
                       (L "visualization", visualization user_query retrieved_data);
                       (L "metadata",
                         PDict [ (L "query_type", query_type);
                                 (L "confidence", confidence);
                                 (L "data_sources_used",
                                   texts (_get_data_sources_used retrieved_data));
                                 (L "total_results",
                                   PInt (Z.of_nat total_results)) ]) ])
            end
        end
  end.

(** [process_query]: whatever the body raises becomes the error
    response. *)
Definition process_query (self : pipeline) (user_query : str) (max_results : option Z)
  : pipeline * dict :=
  let '(self', r) := process_body self user_query max_results in
  (self', try_except r (_create_error_response user_query)).

End Pipeline.

End Rag.

(* ================================================================== *)
(** * An exact decimal instance of the float interface *)
(* ================================================================== *)

(** Sign, magnitude and scale: the value is [(-1)^neg * mag * 10^-scale].
    The instance computes exactly; it agrees with binary64 wherever the
    binary result is the decimal one (integers and short decimals of
    moderate size, as in the examples of this development).  It prints
    in positional notation only, reads plain decimal literals only, and
    rounds the decimal value (ties to even) when it formats. *)
Module Dec.
Import PyStr Py.

Record dec := { neg : bool; mag : N; scale : nat }.

Definition pow10 (n : nat) : N := (10 ^ N.of_nat n)%N.

Definition is_zero (x : dec) : bool := (mag x =? 0)%N.

(** Drop trailing zeros of the fraction. *)
Fixpoint norm_fuel (fuel : nat) (m : N) (e : nat) : N * nat :=
  match fuel, e with
  | S f, S e' => if (N.modulo m 10 =? 0)%N then norm_fuel f (N.div m 10) e' else (m, e)
  | _, _ => (m, e)
  end.

Definition norm (x : dec) : dec :=
  let '(m, e) := norm_fuel (scale x) (mag x) (scale x) in
  {| neg := neg x; mag := m; scale := e |}.

(** The signed numerator at a given scale. *)
Definition at_scale (e : nat) (x : dec) : Z :=
  let v := Z.of_N (mag x * pow10 (e - scale x)) in
  if neg x then (- v)%Z else v.

Definition of_signed (zero_neg : bool) (v : Z) (e : nat) : dec :=
  {| neg := if (v =? 0)%Z then zero_neg else (v <? 0)%Z;
     mag := Z.abs_N v; scale := e |}.

Definition dneg (x : dec) : dec :=
  {| neg := negb (neg x); mag := mag x; scale := scale x |}.
Definition dabs (x : dec) : dec :=
  {| neg := false; mag := mag x; scale := scale x |}.

(** A zero sum is negative only when both terms are negative. *)
Definition dadd (x y : dec) : dec :=
  let e := Nat.max (scale x) (scale y) in
  norm (of_signed (neg x && neg y) (at_scale e x + at_scale e y) e).
Definition dsub (x y : dec) : dec := dadd x (dneg y).
Definition dmul (x y : dec) : dec :=
  norm {| neg := xorb (neg x) (neg y); mag := mag x * mag y;
          scale := scale x + scale y |}.

Definition dleb (x y : dec) : bool :=
  let e := Nat.max (scale x) (scale y) in (at_scale e x <=? at_scale e y)%Z.
Definition dltb (x y : dec) : bool :=
  let e := Nat.max (scale x) (scale y) in (at_scale e x <? at_scale e y)%Z.
Definition deqb (x y : dec) : bool :=
  let e := Nat.max (scale x) (scale y) in (at_scale e x =? at_scale e y)%Z.

(** [n] digits of [m], zero-padded on the left. *)
Definition padded (n : nat) (m : N) : str :=
  let d := str_of_N m in replicate (n - length d) "0"%char ++ d.

Definition sign_text (x : dec) : str := if neg x then L "-" else [].

(** [repr]: positional, at least one digit after the point. *)
Definition drepr (x : dec) : str :=
  let y := norm x in
  let ip := N.div (mag y) (pow10 (scale y)) in
  let fp := N.modulo (mag y) (pow10 (scale y)) in
  sign_text y ++ str_of_N ip ++ L "."
    ++ match scale y with O => L "0" | S _ => padded (scale y) fp end.

(** The magnitude rounded half-to-even to [n] decimals, as a numerator
    at scale [n]. *)
Definition round_mag (n : nat) (x : dec) : N :=
  if (scale x <=? n)%nat then (mag x * pow10 (n - scale x))%N
  else
    let p := pow10 (scale x - n) in
    let q := N.div (mag x) p in
    let r := N.modulo (mag x) p in
    if (2 * r <? p)%N then q
    else if (p <? 2 * r)%N then (q + 1)%N
    else if N.even q then q else (q + 1)%N.

(** [format(x, ".nf")] *)
Definition dfix (n : nat) (x : dec) : str :=
  let m := round_mag n x in
  sign_text x ++ str_of_N (N.div m (pow10 n))
    ++ match n with O => [] | S _ => L "." ++ padded n (N.modulo m (pow10 n)) end.

(** [round(x, n)] *)
Definition dround (n : nat) (x : dec) : dec :=
  norm {| neg := neg x; mag := round_mag n x; scale := n |}.

(** [format(x, ",")] for a float. *)
Definition dcomma (x : dec) : str :=
  let y := norm x in
  let ip := N.div (mag y) (pow10 (scale y)) in
  let fp := N.modulo (mag y) (pow10 (scale y)) in
  sign_text y ++ comma_N ip ++ L "."
    ++ match scale y with O => L "0" | S _ => padded (scale y) fp end.

Definition all_digits (s : str) : bool := forallb is_digit s.

Definition N_of_digits (s : str) : N := Z.to_N (Z_of_digits s).

(** [float(s)] on [[+-]digits[.digits]] and [[+-].digits], white space
    around it allowed. *)
Definition dparse (s : str) : option dec :=
  let s := strip s in
  let '(sg, body) :=
    match s with
    | "-"%char :: t => (true, t)
    | "+"%char :: t => (false, t)
    | _ => (false, s)
    end in
  match split_on "."%char body with
  | [ip] =>
      if all_digits ip && negb (str_eqb ip [])
      then Some {| neg := sg; mag := N_of_digits ip; scale := 0 |} else None
  | [ip; fp] =>
      if all_digits ip && all_digits fp && negb (str_eqb (ip ++ fp) [])
      then Some (norm {| neg := sg; mag := N_of_digits (ip ++ fp);
                         scale := length fp |})
      else None
  | _ => None
  end.

Definition dtrunc (x : dec) : Py.res Z :=
  let q := Z.of_N (N.div (mag x) (pow10 (scale x))) in
  Py.Ret (if neg x then (- q)%Z else q).

Definition dofZ (z : Z) : option dec :=
  Some {| neg := (z <? 0)%Z; mag := Z.abs_N z; scale := 0 |}.

Definition dlit (m : Z) (e : nat) : dec :=
  norm {| neg := (m <? 0)%Z; mag := Z.abs_N m; scale := e |}.

#[global] Instance dec_float : PyFloat := {|
  F := dec;
  fparse := dparse;
  fofZ := dofZ;
  flit := dlit;
  fneg := dneg;
  fabs := dabs;
  fadd := dadd;
  fsub := dsub;
  fmul := dmul;
  fleb := dleb;
  fltb := dltb;
  feqb := deqb;
  frepr := drepr;
  ffix := dfix;
  fcomma := dcomma;
  fround := dround;
  ftrunc := dtrunc
|}.

End Dec.

(* ================================================================== *)
(** * Vocabulary of the statements about the rewriting of aggregates *)
(* ================================================================== *)

Module Shapes.
Import PyStr Re Py SqlGen.

Definition occurs (w s : str) : Prop := exists x y, s = x ++ w ++ y.

Definition closing (t : str) : Prop :=
  2 <= length t /\ t !! (length t - 1) = Some ")"%char /\
  forall k c, t !! k = Some c -> k <> length t - 1 ->
    c <> ")"%char /\ c <> "["%char /\ c <> "]"%char.

(** Replacement accepted: no closing parenthesis before the final [[1])]. *)
Definition surface_form (r : str) : Prop :=
  exists r1, r = r1 ++ L "[1])" /\ forall k, r1 !! k <> Some ")"%char.

(** No text accepted by the matcher overlaps an occurrence of [w]. *)
Definition apart (Q : str -> Prop) (w : str) : Prop :=
  forall x y p t q, Q t -> x ++ w ++ y = p ++ t ++ q ->
    length p + length t <= length x \/ length x + length w <= length p.

(* ---------- characters by bracket kind ---------- *)
Definition kind (c : ascii) : nat :=
  if eqc c "(" then 1 else if eqc c ")" then 2
  else if eqc c "[" then 3 else if eqc c "]" then 4 else 0.

Definition all_chars : list ascii := map ascii_of_nat (seq 0 256).

Definition call_shape (t : str) : Prop :=
  exists j, map kind t = [0; 0; 0; 1] ++ replicate (S j) 0 ++ [2].

(* ---------- the matcher on literals and on a run of one class ---------- *)
Definition advance (st : mstate) (n : nat) : mstate :=
  {| prev := last_or (prev st) (take n (rest st));
     rest := drop n (rest st); caps := caps st |}.

Fixpoint lit_prefix (fl : flags) (p s : str) : bool :=
  match p, s with
  | [], _ => true
  | c :: p', x :: s' => chr_match fl c x && lit_prefix fl p' s'
  | _ :: _, [] => false
  end.

(* ---------- the passes of the two rewriting functions ---------- *)
Record pass := {
  p_mt : option ascii -> str -> option nat;
  p_repl : str;
  p_rej : str -> bool
}.

Definition run (sql : str) (P : pass) : str := sub_with (p_mt P) (p_repl P) sql.

Definition accepted (P : pass) (t : str) : Prop :=
  exists pv s n, p_mt P pv s = Some n /\ t = take n s.

Definition pass_good (P : pass) : Prop :=
  (forall pv s n, p_mt P pv s = Some n -> 0 < n /\ n <= length s)
  /\ (forall t, accepted P t -> call_shape t /\ p_rej P t = false)
  /\ surface_form (p_repl P).

Fixpoint zeros_then_close (l : list nat) : bool :=
  match l with
  | [2] => true
  | 0 :: l' => zeros_then_close l'
  | _ => false
  end.

Definition call_shapeb (t : str) : bool :=
  match map kind t with
  | 0 :: 0 :: 0 :: 1 :: 0 :: l => zeros_then_close l
  | _ => false
  end.

Definition surface_formb (r : str) : bool :=
  (4 <=? length r)
  && str_eqb (drop (length r - 4) r) (L "[1])")
  && forallb (fun c => negb (eqc c ")")) (take (length r - 4) r).

Definition lit_pass (pat repl : str) : pass :=
  {| p_mt := match_len icase (Lit pat);
     p_repl := repl;
     p_rej := fun t => negb (lit_prefix icase pat t && (length t =? length pat)) |}.

Definition alias_pass (r : regex) (repl : str) : pass :=
  {| p_mt := match_len icase r;
     p_repl := repl;
     p_rej := fun t => negb (existsb (eqc ".") t) |}.

Definition bare (fn col : str) : str := fn ++ L "(" ++ col ++ L ")".

Definition surface (fn col : str) : str := fn ++ L "(" ++ col ++ L "[1])".

Definition aggregates : list str := [L "AVG"; L "SUM"; L "MIN"; L "MAX"].

(** The (aggregate, column) pairs in the order the loop visits them. *)
Definition targets : list (str * str) :=
  col ← array_columns; fn ← [L "AVG"; L "SUM"; L "MIN"; L "MAX"]; [(fn, col)].

Definition target_pass (T : str * str) : pass :=
  lit_pass (bare (lower (fst T)) (snd T)) (surface (fst T) (snd T)).

Definition alias_passes : list pass :=
  [ alias_pass (t_alias "AVG") (L "AVG(T1.temperature[1])");
    alias_pass avg_any_alias (L "AVG(temperature[1])");
    alias_pass (t_alias "SUM") (L "SUM(T1.temperature[1])");
    alias_pass (t_alias "MIN") (L "MIN(T1.temperature[1])");
    alias_pass (t_alias "MAX") (L "MAX(T1.temperature[1])") ].

Definition all_passes : list pass := map target_pass targets ++ alias_passes.

(** Every pass other than its own rejects a target's bare call. *)
Definition rejects_table : bool :=
  forallb (fun i =>
    forallb (fun j =>
      (i =? j) ||
      match targets !! i, all_passes !! j with
      | Some T, Some P => p_rej P (bare (fst T) (snd T))
      | _, _ => true
      end) (seq 0 (length all_passes))) (seq 0 (length targets)).

Definition targets_ok : bool :=
  forallb (fun T =>
    call_shapeb (bare (lower (fst T)) (snd T))
    && surface_formb (surface (fst T) (snd T))
    && lit_prefix icase (bare (lower (fst T)) (snd T)) (bare (fst T) (snd T))
    && call_shapeb (bare (fst T) (snd T))) targets.

End Shapes.

(* ================================================================== *)
(** * Vocabulary of the statements *)
(* ================================================================== *)

Module PipeSpec.
Import PyStr Py PyVal Rag.
Section PipeSpec.
Context {PF : PyFloat}.
Variable E : env.

(** Both result lists are lists. *)
Definition listy (d : dict) : Prop :=
  exists a b, get (L "sql_results") d = Some (PList a)
              /\ get (L "vector_results") d = Some (PList b).

(** The retrieved data with the statistics of the database, or with the
    message of their failure. *)
Definition with_stats (retrieved_data : dict) : dict :=
  match get_database_stats E with
  | Ret stats => set (L "database_stats") stats retrieved_data
  | Raise e => set (L "error") (PStr e) retrieved_data
  end.

(** [max_results or self.max_sql_results] *)
Definition limit_of (m : option Z) : Z :=
  match m with
  | Some n => if (n =? 0)%Z then MAX_SEARCH_RESULTS E else n
  | None => MAX_SEARCH_RESULTS E
  end.

End PipeSpec.
End PipeSpec.

Module FusionSpec.
Import PyStr Py PyVal Classifier.
Section FusionSpec.
Context {PF : PyFloat}.

(** The value the LLM's entities give for a key: the first one that
    counts as true. *)
Definition llm_pick (k : str) (items : dict) : option pyval :=
  snd <$> find (fun kv => str_eqb (fst kv) k && truthy (snd kv)) items.

(** The entities after the merge: the rule's value where the rule has
    the key, else the LLM's. *)
Definition merged (ents0 items : dict) (k : str) : option pyval :=
  match get k ents0 with
  | Some v => Some v
  | None => llm_pick k items
  end.

(** A value is listed under a key. *)
Definition mentions (ents : dict) (k : str) (v : pyval) : Prop :=
  exists l, get k ents = Some (PList l) /\ In v l.

End FusionSpec.
End FusionSpec.

Module GeoSpec.
Import PyStr Py PyVal Rag.
Section GeoSpec.
Context {PF : PyFloat}.

(** The metadata of a hit, when it is a dictionary. *)
Definition metadata_of (hit : dict) : option dict :=
  match get_or (L "metadata") (PDict []) hit with
  | PDict md => Some md
  | _ => None
  end.

(** A coordinate of a hit; [None] when the key is missing. *)
Definition coordinate (k : string) (hit : dict) : pyval :=
  match metadata_of hit with
  | Some md => get_or (L k) PNone md
  | None => PNone
  end.

(** [float(v)] raises a [ValueError] or a [TypeError]. *)
Definition unparseable (v : pyval) : Prop :=
  exists e, to_float v = FValueError e \/ to_float v = FTypeError e.

(** The hit has no latitude or no longitude. *)
Definition bare_hit (hit : dict) : Prop :=
  coordinate "latitude" hit = PNone \/ coordinate "longitude" hit = PNone.

(** The hit has both, and one of them does not parse. *)
Definition unparseable_hit (hit : dict) : Prop :=
  coordinate "latitude" hit <> PNone /\ coordinate "longitude" hit <> PNone
  /\ (unparseable (coordinate "latitude" hit)
      \/ ((exists x, to_float (coordinate "latitude" hit) = FOk x)
          /\ unparseable (coordinate "longitude" hit))).

(** The hit has both coordinates, they parse, and the point is outside
    the rectangle. *)
Definition outside (r : region) (hit : dict) : Prop :=
  exists lat lon,
    to_float (coordinate "latitude" hit) = FOk lat
    /\ to_float (coordinate "longitude" hit) = FOk lon
    /\ within r lat lon = false.

End GeoSpec.
End GeoSpec.

Module SynthSpec.
Import PyStr Re Py SqlGen.
Section SynthSpec.
Context {PF : PyFloat}.

(** The words and the signs the nearest-floats shape asks for. *)
Definition nearest_words : list str := [L "nearest"; L "closest"; L "near"].
Definition degree_words : list str :=
  [[deg]; L "degrees"; L "north"; L "south"; L "east"; L "west"].

(** The signed coordinate of a number and the hemisphere letter matched
    after it, the letter taken in upper case. *)
Definition signed (positive : string) (letter : str) (v : F) : F :=
  if str_eqb (upper letter) (L positive) then v else fneg v.

(** What the statement of the nearest floats must hold. *)
Definition nearest_clauses : list str :=
  [ L "MIN(6371 * acos(";
    L "AND (6371 * acos(";
    L ")) <= 500";
    L "GROUP BY p.float_id, p.latitude, p.longitude";
    L "ORDER BY distance_km ASC";
    L "LIMIT 10" ].

End SynthSpec.

(** A query with the word [nearest] and a pair of coordinates, and no
    degree sign or word. *)
Definition plain_nearest_query : str := L "nearest floats to 15N, 65E".

(** A query that writes the hemispheres in lower case. *)
Definition lowercase_query : str := L "profiles at 20n, 70e".

(** An LLM that is out of reach. *)
Definition no_llm : str -> res str := fun _ => Raise (L "unreachable").

End SynthSpec.

(* ================================================================== *)
(** * A small world to run the pipeline in *)
(* ================================================================== *)

Module Demo.
Import PyStr Re Py PyVal Dec Rag.

(** A row of the profiles table, in the southern and western
    hemispheres. *)
Definition south_west_row : dict :=
  [ (L "float_id", PStr (L "1902681"));
    (L "profile_id", PStr (L "1902681_001"));
    (L "latitude", PFloat (dlit (-105) 1));
    (L "longitude", PFloat (dlit (-2025) 2));
    (L "profile_date", PStr (L "2021-01-01")) ].

(** A search hit with its coordinates as the vector store keeps them. *)
Definition hit (id : string) (lat lon : pyval) : dict :=
  [ (L "id", PStr (L id));
    (L "metadata",
      PDict [ (L "float_id", PStr (L "2902277"));
              (L "latitude", lat);
              (L "longitude", lon) ]) ].

Definition hit_inside : dict := hit "a" (PStr (L "12.5")) (PStr (L "85")).
Definition hit_outside : dict := hit "b" (PStr (L "-40")) (PStr (L "85")).
Definition hit_bare : dict := hit "c" PNone PNone.
Definition hit_unparseable : dict := hit "d" (PStr (L "abc")) (PStr (L "1")).
Definition hits : list dict := [hit_inside; hit_outside; hit_bare; hit_unparseable].

(** The services: the LLM writes a statement on salinity when asked
    about salinity; the database counts 1234 rows, refuses a statement on
    the salinity array, and answers anything else with the one row; the
    vector store always gives the four hits. *)
Definition world : env := {|
  MAX_SEARCH_RESULTS := 10;
  classify_query_type := fun _ =>
    PDict [ (L "query_type", PStr (L "vector_retrieval"));
            (L "confidence", PFloat (dlit 8 1)) ];
  llm_generate := fun q =>
    Ret (if contains (L "salinity") q
         then L "SELECT float_id, salinity FROM argo_profiles"
         else L "SELECT float_id, latitude, longitude FROM argo_profiles");
  generate_final_response := fun _ _ _ => Raise (L "no answer");
  get_coverage_info := Raise (L "no coverage information");
  validate_geographic_coverage := fun _ => Ret (PDict [ (L "is_valid", PBool true) ]);
  execute_query := fun q =>
    if contains (L "COUNT(*) as count") q then Ret [[ (L "count", PInt 1234) ]]
    else if contains (L "salinity") q then Raise (L "cannot select the array")
    else Ret [south_west_row];
  get_database_stats := Ret (PDict []);
  semantic_search := fun _ _ => Ret hits;
  search_by_parameter := fun _ => Ret [];
  search_by_region := fun _ => Ret [];
  build_visualization_payload := fun _ => Ret (PDict [])
|}.

Definition no_year_comparison : str -> list dict -> res pyval :=
  fun _ _ => Raise (L "not a year comparison").

Definition run (self : pipeline) (q : string) : pipeline * dict :=
  process_query Classifier.query_types world no_year_comparison self (L q) None.

(** The text of a response. *)
Definition answer (d : dict) : str := py_str (get_or (L "response") PNone d).

End Demo.

Module FusionDemo.
Import PyStr Re Py PyVal Dec Classifier.

(** A query in which the rules find the parameter temperature, and a
    reply of the LLM that names salinity and a region. *)
Definition query : str := L "show temperature".
Definition rule_result : dict := _rule_based_classification query_types query.
Definition reply_entities : dict :=
  [ (L "parameters", PList [PStr (L "salinity")]);
    (L "regions", PList [PStr (L "arabian sea")]) ].
Definition reply : dict :=
  [ (L "query_type", PStr (L "sql_retrieval"));
    (L "confidence", PFloat (dlit 95 2));
    (L "extracted_entities", PDict reply_entities) ].
Definition rule_entities : dict := [ (L "parameters", PList [PStr (L "temperature")]) ].

(** The coordinates of the nearest-floats example. *)
Definition nearest_query : str :=
  L "Find the 10 nearest floats to 15.0" ++ [deg] ++ L "N, 65.0" ++ [deg] ++ L "E".

End FusionDemo.

(* ================================================================== *)
(** * Vocabulary of the statements about the SQL text *)
(* ================================================================== *)

Module Templates.
Import PyStr Shapes.

(** A template: literal texts and gaps, each gap filled with characters
    of its alphabet. *)
Inductive piece :=
| Txt (a : str)
| Gap (ok : ascii -> bool).

Inductive fills : list piece -> str -> Prop :=
| fills_nil : fills [] []
| fills_txt a t s : fills t s -> fills (Txt a :: t) (a ++ s)
| fills_gap ok h t s : forallb ok h = true -> fills t s -> fills (Gap ok :: t) (h ++ s).

(** The search for a word [w] as an automaton: a state is the list of
    the lengths [i] such that the first [i] characters of [w] may end
    the text read so far. *)
Definition nth_is (w : str) (i : nat) (c : ascii) : bool :=
  match w !! i with Some x => eqc x c | None => false end.

Definition step (w : str) (c : ascii) (st : list nat) : list nat :=
  0 :: map S (List.filter (fun i => nth_is w i c) st).

Definition mem (i : nat) (st : list nat) : bool := existsb (Nat.eqb i) st.
Definition hit (w : str) (st : list nat) : bool := mem (length w) st.
Definition within (a b : list nat) : bool := forallb (fun i => mem i b) a.

Fixpoint read_text (w : str) (a : str) (st : list nat) : option (list nat) :=
  match a with
  | [] => Some st
  | c :: a' =>
      let st' := step w c st in
      if hit w st' then None else read_text w a' st'
  end.

Definition grow (w : str) (ok : ascii -> bool) (st : list nat) : list nat :=
  nodup Nat.eq_dec
    (st ++ concat (map (fun c => if ok c then step w c st else []) all_chars)).

Fixpoint saturate (w : str) (ok : ascii -> bool) (n : nat) (st : list nat) : list nat :=
  match n with
  | O => st
  | S k => saturate w ok k (grow w ok st)
  end.

(** Reading one more character of the alphabet leads to no end of the
    word and to no new state. *)
Definition closed (w : str) (ok : ascii -> bool) (st : list nat) : bool :=
  forallb (fun c => negb (ok c)
                    || (negb (hit w (step w c st)) && within (step w c st) st))
    all_chars.

Definition read_gap (w : str) (ok : ascii -> bool) (st : list nat) : option (list nat) :=
  let st' := saturate w ok (length w) st in
  if closed w ok st' && within st st' then Some st' else None.

Fixpoint scan (w : str) (t : list piece) (st : list nat) : bool :=
  match t with
  | [] => true
  | Txt a :: t' =>
      match read_text w a st with Some st' => scan w t' st' | None => false end
  | Gap ok :: t' =>
      match read_gap w ok st with Some st' => scan w t' st' | None => false end
  end.

(** No filling of the template has the word. *)
Definition avoids (w : str) (t : list piece) : bool :=
  negb (str_eqb w []) && scan w t [0].

(** The same after a text that is not known but has not the word. *)
Definition avoids_after (w : str) (t : list piece) : bool :=
  negb (str_eqb w []) && scan w t (seq 0 (length w)).

(** The template of the text in lower case, when the alphabet of each
    gap has the lower case of its characters. *)
Definition lower_piece (p : piece) : piece :=
  match p with
  | Txt a => Txt (lower a)
  | Gap ok => Gap ok
  end.

Definition lower_stable (t : list piece) : bool :=
  forallb (fun p => match p with
                    | Txt _ => true
                    | Gap ok => forallb (fun c => implb (ok c) (ok (lower_char c))) all_chars
                    end) t.

(** A literal piece has the word. *)
Definition some_text_has (w : str) (t : list piece) : bool :=
  existsb (fun p => match p with Txt a => contains w a | Gap _ => false end) t.

(** The first piece is a literal text that begins, after blanks, with
    the word, whose last character is no blank. *)
Definition begins_with (w : str) (t : list piece) : bool :=
  match t with
  | Txt a :: _ =>
      starts_with w (lstrip a)
      && match last w with Some c => negb (is_space c) | None => false end
  | _ => false
  end.

(** What a state must hold, and that the word has not been met. *)
Definition tracks (w : str) (st : list nat) (text : str) : Prop :=
  (forall i, i < length w -> take i w `suffix_of` text -> In i st)
  /\ ~ occurs w text.

End Templates.

Module TextSpec.
Import PyStr.

(** A text that is empty or begins with no blank. *)
Definition trimmed (s : str) : Prop :=
  match s with [] => True | c :: _ => is_space c = false end.

(** A word that begins and ends with no blank. *)
Definition solid (w : str) : bool :=
  match w, last w with
  | c :: _, Some d => negb (is_space c) && negb (is_space d)
  | _, _ => false
  end.

End TextSpec.

Module ReplaceSpec.
Import PyStr.

(** [s.endswith(a)] *)
Definition is_suffix (a s : str) : bool := starts_with (rev a) (rev s).

(** Putting [new] where [old] stood cannot bring the word [w]: [new]
    has not the word and is not inside it, no beginning of [new] ends the
    word, and a beginning of the word that ends [new] also ends [old]. *)
Definition replace_safe (w old new : str) : bool :=
  negb (contains w new) && negb (contains new w)
  && forallb (fun j => negb (is_suffix (take j new) w)) (seq 1 (length new))
  && forallb (fun j => implb (is_suffix (take j w) new) (is_suffix (take j w) old))
       (seq 1 (length w)).

(** No occurrence of [old] overlaps one of the word [w]. *)
Definition replace_apart (w old : str) : bool :=
  negb (contains old w) && negb (contains w old)
  && forallb (fun j => negb (is_suffix (take j old) w)) (seq 1 (length old))
  && forallb (fun j => negb (is_suffix (take j w) old)) (seq 1 (length w)).

End ReplaceSpec.

Module SqlSpec.
Import PyStr Py SqlGen Templates.

(** The checks of [_validate_sql], with the four aggregates where the
    function looks at two, and with the first word left open. *)
Definition aggregate_names : list str := [L "avg"; L "sum"; L "min"; L "max"].
Definition bare_calls : list str :=
  col ← array_columns; fn ← aggregate_names; [fn ++ L "(" ++ col ++ L ")"].
Definition dangerous_words : list str :=
  [L "drop"; L "delete"; L "insert"; L "update"; L "alter"; L "create"].
Definition valid_tables : list str := [L "argo_profiles"; L "argo_floats"].

(** The statement of a year comparison begins with a parenthesis. *)
Definition first_word (method : str) : str :=
  if str_eqb method (L "year_comparison_direct") then L "(select" else L "select".

Definition sql_checks (method s : str) : bool :=
  starts_with (first_word method) (strip (lower s))
  && contains (L "from") (lower s)
  && any_in valid_tables (lower s)
  && negb (any_in dangerous_words (lower s))
  && negb (any_in bare_calls (lower s)).

(** The same on a template, whatever fills its gaps. *)
Definition pieces_ok (first : str) (t : list piece) : bool :=
  let lt := map lower_piece t in
  lower_stable t
  && begins_with first lt
  && some_text_has (L "from") lt
  && existsb (fun table => some_text_has table lt) valid_tables
  && forallb (fun w => avoids w lt) (dangerous_words ++ bare_calls).

(** The alphabets of the gaps: a comparison operator, a list of years. *)
Definition comparison_char (c : ascii) : bool := existsb (eqc c) (L "<>=").
Definition years_char (c : ascii) : bool := is_digit c || existsb (eqc c) (L ", -").

End SqlSpec.

Module PostSpec.
Import PyStr Re Py SqlGen Shapes ReplaceSpec.

(** The two replacements of [_fix_table_selection]. *)
Definition table_rewrites : list (str * str) :=
  [ (L "FROM argo_floats", L "FROM argo_profiles");
    (L "SELECT float_id, latitude, longitude",
     L "SELECT profile_id, float_id, latitude, longitude, profile_date") ].

(** No replacement of a table touches a rewritten aggregate or brings a
    bare one. *)
Definition table_rewrites_ok : bool :=
  forallb (fun T =>
    forallb (fun R =>
      negb (str_eqb (fst R) [])
      && replace_apart (surface (fst T) (snd T)) (fst R)
      && replace_safe (bare (fst T) (snd T)) (fst R) (snd R)) table_rewrites) targets.

(** A reply of the LLM that names the bare aggregate in a comment line
    only, and a question that goes to the LLM. *)
Definition commented_reply : str :=
  L "-- AVG(temperature) would be wrong here" ++ [nl]
    ++ L "SELECT float_id FROM argo_profiles".
Definition average_query : str := L "average temperature".

(** A fenced reply, and a question on locations. *)
Definition fenced_reply : str :=
  L "```sql" ++ [nl] ++ L "SELECT AVG(temperature) FROM argo_floats" ++ [nl] ++ L "```".
Definition location_query : str := L "average temperature by location".

End PostSpec.

Module RecordSpec.
Import PyStr Py PyVal SqlGen Templates SqlSpec ReplaceSpec PostSpec.

(** The method [_sql_retrieval] records for a generated statement. *)
Definition method_of (g : sqlgen) : str :=
  default (L "intelligent") (generation_method g).

(** The generated statement passes the checks under its method. *)
Definition checked (g : sqlgen) : Prop := sql_checks (method_of g) (sql_query g) = true.

(** The limit [_sql_retrieval] appends, as a template, and the words it
    cannot complete. *)
Definition limit_pieces : list piece := [Txt (lower (L " LIMIT 25"))].
Definition limit_ok : bool :=
  forallb (fun w => avoids_after w limit_pieces) (dangerous_words ++ bare_calls).

(** No replacement of a table brings a bare call, in any spelling. *)
Definition table_rewrites_safe : bool :=
  forallb (fun w =>
    forallb (fun R =>
      negb (str_eqb (fst R) [])
      && replace_safe w (lower (fst R)) (lower (snd R))) table_rewrites) bare_calls.

End RecordSpec.

Module RecordedSpec.
Import PyStr Py PyVal SqlGen Rag SqlSpec Dec Demo.
Section RecordedSpec.
Context {PF : PyFloat}.

(** The retrieved data name a statement and its generation method, and
    the statement passes the checks under that method. *)
Definition recorded_checked (data : dict) : Prop :=
  exists s method,
    get (L "sql_query") data = Some (PStr s)
    /\ get (L "generation_method") data = Some (PStr method)
    /\ sql_checks method s = true.

End RecordedSpec.

(** The world of the examples with a database that answers every
    statement with the one row. *)
Definition open_world : env := {|
  MAX_SEARCH_RESULTS := MAX_SEARCH_RESULTS world;
  classify_query_type := classify_query_type world;
  llm_generate := llm_generate world;
  generate_final_response := generate_final_response world;
  get_coverage_info := get_coverage_info world;
  validate_geographic_coverage := validate_geographic_coverage world;
  execute_query := fun _ => Ret [south_west_row];
  get_database_stats := get_database_stats world;
  semantic_search := semantic_search world;
  search_by_parameter := search_by_parameter world;
  search_by_region := search_by_region world;
  build_visualization_payload := build_visualization_payload world
|}.

Definition comparison_query : str := L "compare temperature 2021 vs 2022".

End RecordedSpec.

(* ================================================================== *)
(** * Facts about texts and dictionaries *)
(* ================================================================== *)

Module StrFacts.
Import PyStr Shapes.

Lemma eqc_eq (a b : ascii) : eqc a b = true <-> a = b.
Proof. apply Ascii.eqb_eq. Qed.

Lemma starts_with_app (p s : str) :
  starts_with p s = true <-> exists y, s = p ++ y.
Proof.
  revert s; induction p as [|c p IH]; intros s; simpl.
  - split; [intros _; by exists s | done].
  - destruct s as [|d s]; [split; [done | intros [y Hy]; done] |].
    rewrite andb_true_iff, eqc_eq, IH. split.
    + intros [-> [y ->]]. by exists y.
    + intros [y Hy]. injection Hy as -> ->. split; [done | by exists y].
Qed.

Lemma contains_occurs (w s : str) : contains w s = true <-> occurs w s.
Proof.
  induction s as [|c s IH]; simpl.
  - rewrite orb_false_r, starts_with_app. split.
    + intros [y Hy]. exists [], y. done.
    + intros (x & y & H). destruct x; [by exists y | done].
  - rewrite orb_true_iff, starts_with_app, IH. split.
    + intros [[y Hy] | (x & y & Hy)].
      * exists [], y. done.
      * exists (c :: x), y. by rewrite Hy.
    + intros (x & y & Hy). destruct x as [|d x].
      * left. by exists y.
      * right. injection Hy as -> ->. by exists x, y.
Qed.

Lemma contains_false_occurs (w s : str) : contains w s = false <-> ~ occurs w s.
Proof. rewrite <- contains_occurs. by destruct (contains w s). Qed.

Lemma str_eqb_eq a b : str_eqb a b = true -> a = b.
Proof.
  revert b; induction a as [|x a IH]; intros [|y b]; simpl; try done.
  intros [Hx H]%andb_true_iff. apply eqc_eq in Hx. f_equal; [done | by apply IH].
Qed.

End StrFacts.

Module DictFacts.
Import PyStr Py PyVal Shapes StrFacts.

Lemma str_eqb_refl (a : str) : str_eqb a a = true.
Proof. induction a as [|c a IH]; simpl; [done|]. by rewrite IH, (proj2 (eqc_eq c c)). Qed.

Lemma str_eqb_iff (a b : str) : str_eqb a b = true <-> a = b.
Proof. split; [apply str_eqb_eq | intros ->; apply str_eqb_refl]. Qed.

Lemma str_eqb_false (a b : str) : a <> b -> str_eqb a b = false.
Proof. intros H. destruct (str_eqb a b) eqn:E; [|done]. by apply str_eqb_eq in E. Qed.

Section Dict.
Context {PF : PyFloat}.

Lemma get_set_eq (k : str) (v : pyval) (d : dict) : get k (set k v d) = Some v.
Proof.
  induction d as [|[k' v'] d IH]; simpl.
  - by rewrite str_eqb_refl.
  - destruct (str_eqb k' k) eqn:E; simpl.
    + by rewrite str_eqb_refl.
    + by rewrite E.
Qed.

Lemma get_set_ne (k k' : str) (v : pyval) (d : dict) :
  k' <> k -> get k (set k' v d) = get k d.
Proof.
  intros Hne. induction d as [|[k'' v''] d IH]; simpl.
  - by rewrite str_eqb_false.
  - destruct (str_eqb k'' k') eqn:E; simpl.
    + apply str_eqb_eq in E. subst k''. by rewrite !str_eqb_false.
    + by rewrite IH.
Qed.

Lemma contains_middle (x w y : str) : contains w (x ++ w ++ y) = true.
Proof. apply contains_occurs. by exists x, y. Qed.

End Dict.
End DictFacts.

(* ================================================================== *)
(** * The search for a word in a template *)
(* ================================================================== *)

Module TemplateFacts.
Import PyStr Shapes StrFacts Templates.

Lemma mem_In (i : nat) (st : list nat) : mem i st = true <-> In i st.
Proof.
  unfold mem. rewrite existsb_exists. split.
  - intros (x & Hx & E). apply Nat.eqb_eq in E. by subst.
  - intros H. exists i. split; [done | apply Nat.eqb_refl].
Qed.

Lemma within_In (a b : list nat) : within a b = true -> forall i, In i a -> In i b.
Proof.
  unfold within. rewrite forallb_forall. intros H i Hi. apply mem_In. by apply H.
Qed.

Lemma tracks_weaken (w : str) (st st' : list nat) (text : str) :
  (forall i, In i st -> In i st') -> tracks w st text -> tracks w st' text.
Proof. intros H [H1 H2]. split; [|done]. intros i Hi Hs. apply H. by apply H1. Qed.

Lemma suffix_snoc_inv' (a b : str) (x y : ascii) :
  (a ++ [x]) `suffix_of` (b ++ [y]) -> x = y /\ a `suffix_of` b.
Proof.
  intros [k Hk].
  assert (b ++ [y] = (k ++ a) ++ [x]) as E by (by rewrite Hk, <- app_assoc).
  apply app_inj_tail in E as [-> ->]. split; [done | by exists k].
Qed.

Lemma step_In (w : str) (c : ascii) (st : list nat) (j : nat) :
  In j st -> nth_is w j c = true -> In (S j) (step w c st).
Proof.
  intros Hj Hc. unfold step. right. apply in_map. apply filter_In. done.
Qed.

Lemma occurs_snoc (w text : str) (c : ascii) :
  occurs w (text ++ [c]) -> occurs w text \/ w `suffix_of` (text ++ [c]).
Proof.
  intros (x & y & E).
  destruct (decide (y = [])) as [->|Hy].
  - right. exists x. by rewrite E, app_nil_r.
  - left. destruct (exists_last Hy) as (y' & d & ->).
    assert (text ++ [c] = (x ++ w ++ y') ++ [d]) as E' by (by rewrite E, <- !app_assoc).
    apply app_inj_tail in E' as [-> _]. by exists x, y'.
Qed.

Lemma tracks_step (w : str) (st : list nat) (text : str) (c : ascii) :
  w <> [] -> tracks w st text -> hit w (step w c st) = false ->
  tracks w (step w c st) (text ++ [c]).
Proof.
  intros Hw [H1 H2] Hh.
  assert (forall j x, j < length w -> w !! j = Some x ->
            take (S j) w `suffix_of` (text ++ [c]) -> In (S j) (step w c st)) as Hs.
  { intros j x Hj Hx Hsuf. rewrite (take_S_r _ _ _ Hx) in Hsuf.
    apply suffix_snoc_inv' in Hsuf as [-> Hsuf].
    apply step_In; [apply H1; [done|done] |]. unfold nth_is. rewrite Hx. apply eqc_eq. done. }
  split.
  - intros [|j] Hi Hsuf; [by left|].
    destruct (w !! j) as [x|] eqn:Hx.
    + apply (Hs j x); [lia | done | done].
    + apply lookup_ge_None in Hx. lia.
  - intros Ho. apply occurs_snoc in Ho as [Ho|Hsuf]; [done|].
    destruct w as [|w0 w'] eqn:Ew; [done|]. rewrite <- Ew in *.
    assert (length w = S (length w - 1)) as El by (rewrite Ew; cbn; lia).
    destruct (w !! (length w - 1)) as [x|] eqn:Hx.
    2:{ apply lookup_ge_None in Hx. lia. }
    assert (In (length w) (step w c st)) as Hin.
    { rewrite El at 1. apply (Hs _ x); [lia | done |].
      rewrite <- El. by rewrite firstn_all. }
    apply mem_In in Hin. unfold hit in Hh. congruence.
Qed.

Lemma read_text_tracks (w a : str) :
  w <> [] -> forall st st' text,
  tracks w st text -> read_text w a st = Some st' -> tracks w st' (text ++ a).
Proof.
  intros Hw. induction a as [|c a IH]; intros st st' text Ht; cbn [read_text].
  - intros [= <-]. by rewrite app_nil_r.
  - destruct (hit w (step w c st)) eqn:Hh; [done|]. intros Hr.
    replace (text ++ c :: a) with ((text ++ [c]) ++ a) by (by rewrite <- app_assoc).
    apply (IH (step w c st)); [|done]. by apply tracks_step.
Qed.

Lemma all_chars_In (c : ascii) : In c all_chars.
Proof.
  unfold all_chars. rewrite <- (ascii_nat_embedding c). apply in_map.
  apply in_seq. pose proof (nat_ascii_bounded c). lia.
Qed.

Lemma for_all_chars_eq (P : ascii -> bool) :
  forallb P all_chars = true -> forall c, P c = true.
Proof. intros H c. apply (proj1 (forallb_forall _ _) H). apply all_chars_In. Qed.

Lemma forallb_at {A} (f : A -> bool) (l : list A) (x : A) :
  forallb f l = true -> In x l -> f x = true.
Proof. intros H. by apply forallb_forall. Qed.

Lemma closed_char (w : str) (ok : ascii -> bool) (st : list nat) (c : ascii) :
  closed w ok st = true -> ok c = true ->
  hit w (step w c st) = false /\ within (step w c st) st = true.
Proof.
  unfold closed. intros Hc Hok.
  apply (forallb_at _ _ c) in Hc; [|by apply all_chars_In].
  cbv beta in Hc. rewrite Hok in Hc. cbn [negb orb] in Hc.
  apply andb_true_iff in Hc as [Hn Hin].
  apply negb_true_iff in Hn. done.
Qed.

Lemma closed_tracks (w : str) (ok : ascii -> bool) (st : list nat) (h : str) :
  w <> [] -> closed w ok st = true ->
  forall text, tracks w st text -> forallb ok h = true -> tracks w st (text ++ h).
Proof.
  intros Hw Hc.
  induction h as [|c h IH]; intros text Ht Hh.
  - by rewrite app_nil_r.
  - cbn [forallb] in Hh. apply andb_true_iff in Hh as [Hc' Hh].
    replace (text ++ c :: h) with ((text ++ [c]) ++ h) by (by rewrite <- app_assoc).
    apply IH; [|done].
    destruct (closed_char w ok st c Hc Hc') as [Hn Hin].
    eapply tracks_weaken; [apply within_In, Hin|]. by apply tracks_step.
Qed.

Lemma read_gap_tracks (w : str) (ok : ascii -> bool) (h : str) :
  w <> [] -> forall st st' text,
  tracks w st text -> read_gap w ok st = Some st' -> forallb ok h = true ->
  tracks w st' (text ++ h).
Proof.
  intros Hw st st' text Ht. unfold read_gap.
  generalize (saturate w ok (length w) st). intros st0.
  destruct (closed w ok st0) eqn:Hc; [|done].
  destruct (within st st0) eqn:Hin; [|done]. cbn [andb].
  intros [= <-] Hh. apply (closed_tracks w ok); [done | done | | done].
  eapply tracks_weaken; [apply within_In, Hin | done].
Qed.

Lemma scan_sound (w : str) (t : list piece) :
  w <> [] -> forall st text s,
  tracks w st text -> scan w t st = true -> fills t s -> ~ occurs w (text ++ s).
Proof.
  intros Hw. induction t as [|p t IH]; intros st text s Ht Hs Hf.
  - inversion Hf; subst. rewrite app_nil_r. apply Ht.
  - inversion Hf as [|a t0 s0 Hf0|ok h t0 s0 Hh Hf0]; subst; cbn [scan] in Hs.
    + destruct (read_text w a st) as [st'|] eqn:Hr; [|done].
      rewrite app_assoc. apply (IH st'); [|done|done].
      by apply (read_text_tracks w a Hw st).
    + destruct (read_gap w ok st) as [st'|] eqn:Hr; [|done].
      rewrite app_assoc. apply (IH st'); [|done|done].
      by apply (read_gap_tracks w ok h Hw st).
Qed.

Lemma str_nonempty (w : str) : negb (str_eqb w []) = true -> w <> [].
Proof. by destruct w. Qed.

Lemma tracks_start (w : str) : w <> [] -> tracks w [0] [].
Proof.
  intros Hw. split.
  - intros i Hi [k Hk]. symmetry in Hk. apply app_eq_nil in Hk as [_ Hk].
    apply (f_equal length) in Hk. rewrite length_take in Hk. cbn in Hk.
    left. lia.
  - intros (x & y & E). symmetry in E. apply app_eq_nil in E as [_ E].
    apply app_eq_nil in E as [E _]. done.
Qed.

(** The checker is sound. *)
Lemma avoids_sound (w : str) (t : list piece) (s : str) :
  avoids w t = true -> fills t s -> ~ occurs w s.
Proof.
  unfold avoids. intros H Hf. apply andb_true_iff in H as [Hw Hs].
  apply str_nonempty in Hw.
  apply (scan_sound w t Hw [0] [] s); [by apply tracks_start | done | done].
Qed.

Lemma avoids_after_sound (w : str) (t : list piece) (text s : str) :
  avoids_after w t = true -> ~ occurs w text -> fills t s -> ~ occurs w (text ++ s).
Proof.
  unfold avoids_after. intros H Hn Hf. apply andb_true_iff in H as [Hw Hs].
  apply str_nonempty in Hw.
  apply (scan_sound w t Hw (seq 0 (length w)) text s); [|done|done].
  split; [|done]. intros i Hi _. apply in_seq. lia.
Qed.

End TemplateFacts.

(* ================================================================== *)
(** * Facts about blanks, lower case and occurrences *)
(* ================================================================== *)

Module TextFacts.
Import PyStr Shapes StrFacts Templates TextSpec TemplateFacts.

Lemma lstrip_trimmed (s : str) : trimmed (lstrip s).
Proof.
  induction s as [|c s IH]; cbn; [done|].
  destruct (is_space c) eqn:E; [done | by cbn].
Qed.

Lemma lstrip_id (s : str) : trimmed s -> lstrip s = s.
Proof. destruct s as [|c s]; cbn; [done|]. by intros ->. Qed.

Lemma lstrip_suffix (s : str) : exists a, s = a ++ lstrip s /\ forallb is_space a = true.
Proof.
  induction s as [|c s (a & E & Ha)]; cbn.
  - by exists [].
  - destruct (is_space c) eqn:Ec.
    + exists (c :: a). cbn. rewrite Ec, Ha. by rewrite <- E.
    + by exists [].
Qed.

Lemma lstrip_app (a r : str) : lstrip a <> [] -> lstrip (a ++ r) = lstrip a ++ r.
Proof.
  induction a as [|c a IH]; cbn; [done|].
  destruct (is_space c); [done | by intros _].
Qed.

Lemma lstrip_spaces (a r : str) : forallb is_space a = true -> lstrip (a ++ r) = lstrip r.
Proof.
  induction a as [|c a IH]; cbn; [done|].
  intros H. apply andb_true_iff in H as [-> H]. by apply IH.
Qed.

(** Blanks stripped on the left leave a text that ends as before. *)
Lemma lstrip_keeps_end (x z : str) :
  z <> [] -> trimmed z -> exists x', lstrip (x ++ z) = x' ++ z.
Proof.
  intros Hz Ht. induction x as [|c x (x' & IH)]; cbn.
  - exists []. by apply lstrip_id.
  - destruct (is_space c); [by exists x' | by exists (c :: x)].
Qed.

Lemma rstrip_prefix (s : str) : exists b, s = rstrip s ++ b /\ forallb is_space b = true.
Proof.
  unfold rstrip. destruct (lstrip_suffix (rev s)) as (a & E & Ha).
  exists (rev a). split.
  - rewrite <- rev_app_distr, <- E. by rewrite rev_involutive.
  - rewrite forallb_forall in *. intros c Hc. apply Ha. by apply in_rev.
Qed.

Lemma rstrip_keeps_start (w r : str) (c : ascii) :
  last w = Some c -> is_space c = false -> exists r', rstrip (w ++ r) = w ++ r'.
Proof.
  intros Hl Hc. unfold rstrip. rewrite rev_app_distr.
  assert (rev w <> [] /\ trimmed (rev w)) as [Hn Ht].
  { destruct (exists_last (l := w)) as (w' & d & ->).
    { intros ->. done. }
    rewrite last_snoc in Hl. injection Hl as ->.
    rewrite rev_app_distr. cbn. done. }
  destruct (lstrip_keeps_end (rev r) (rev w) Hn Ht) as (x' & ->).
  exists (rev x'). by rewrite rev_app_distr, rev_involutive.
Qed.

Lemma strip_substring (s : str) : exists a b, s = a ++ strip s ++ b.
Proof.
  unfold strip. destruct (lstrip_suffix s) as (a & E & _).
  destruct (rstrip_prefix (lstrip s)) as (b & E' & _).
  exists a, b. by rewrite <- E', <- E.
Qed.

Lemma rstrip_trimmed (s : str) : trimmed s -> trimmed (rstrip s).
Proof.
  intros Ht. destruct (rstrip_prefix s) as (b & E & _).
  destruct (rstrip s) as [|c u] eqn:Er; [done|].
  rewrite E in Ht. by cbn in Ht.
Qed.

Lemma rstrip_idem (s : str) : rstrip (rstrip s) = rstrip s.
Proof.
  unfold rstrip. rewrite rev_involutive. f_equal. apply lstrip_id, lstrip_trimmed.
Qed.

Lemma strip_idem (s : str) : strip (strip s) = strip s.
Proof.
  unfold strip. rewrite (lstrip_id (rstrip (lstrip s))).
  - apply rstrip_idem.
  - apply rstrip_trimmed, lstrip_trimmed.
Qed.

(** A text that begins with [w] after blanks still does when stripped. *)
Lemma starts_with_strip (w a r : str) (c : ascii) :
  starts_with w (lstrip a) = true -> last w = Some c -> is_space c = false ->
  starts_with w (strip (a ++ r)) = true.
Proof.
  intros Hs Hl Hc. apply starts_with_app in Hs as [y Hy].
  assert (lstrip a <> []) as Hn.
  { rewrite Hy. destruct w; [done | done]. }
  unfold strip. rewrite (lstrip_app a r Hn), Hy, <- app_assoc.
  destruct (rstrip_keeps_start w (y ++ r) c Hl Hc) as (r' & ->).
  apply starts_with_app. by exists r'.
Qed.

(** Lower case and blanks. *)
Lemma is_space_lower (c : ascii) : is_space (lower_char c) = is_space c.
Proof.
  apply eqb_prop.
  apply (for_all_chars_eq (fun c => Bool.eqb (is_space (lower_char c)) (is_space c))).
  by vm_compute.
Qed.

Lemma lstrip_lower (s : str) : lstrip (lower s) = lower (lstrip s).
Proof.
  induction s as [|c s IH]; cbn; [done|].
  rewrite is_space_lower. by destruct (is_space c).
Qed.

Lemma rstrip_lower (s : str) : rstrip (lower s) = lower (rstrip s).
Proof.
  unfold rstrip, lower. rewrite <- map_rev. fold (lower (rev s)).
  rewrite lstrip_lower. unfold lower. by rewrite map_rev.
Qed.

Lemma strip_lower (s : str) : strip (lower s) = lower (strip s).
Proof. unfold strip. by rewrite lstrip_lower, rstrip_lower. Qed.

Lemma lower_app (a b : str) : lower (a ++ b) = lower a ++ lower b.
Proof. apply map_app. Qed.

(** Occurrences. *)
Lemma occurs_app_l (w a b : str) : occurs w a -> occurs w (a ++ b).
Proof. intros (x & y & ->). exists x, (y ++ b). by rewrite <- !app_assoc. Qed.

Lemma occurs_app_r (w a b : str) : occurs w b -> occurs w (a ++ b).
Proof. intros (x & y & ->). exists (a ++ x), y. by rewrite <- !app_assoc. Qed.

Lemma occurs_trans (w a s : str) : occurs w a -> occurs a s -> occurs w s.
Proof. intros Hw (x & y & ->). by apply occurs_app_r, occurs_app_l. Qed.

Lemma occurs_lower (w s : str) : occurs w s -> occurs (lower w) (lower s).
Proof. intros (x & y & ->). exists (lower x), (lower y). by rewrite !lower_app. Qed.

Lemma occurs_lstrip (w s : str) :
  w <> [] -> trimmed w -> occurs w s -> occurs w (lstrip s).
Proof.
  intros Hw Ht. induction s as [|c s IH]; cbn; [done|].
  destruct (is_space c) eqn:Ec; [|done].
  intros ([|d x] & y & E).
  - destruct w as [|e w]; [done|]. cbn in E. injection E as -> _. cbn in Ht. congruence.
  - apply IH. injection E as _ ->. by exists x, y.
Qed.

Lemma occurs_rev (w s : str) : occurs w s -> occurs (rev w) (rev s).
Proof.
  intros (x & y & ->). exists (rev y), (rev x).
  by rewrite !rev_app_distr, <- app_assoc.
Qed.

Lemma occurs_rstrip (w s : str) (c : ascii) :
  last w = Some c -> is_space c = false -> occurs w s -> occurs w (rstrip s).
Proof.
  intros Hl Hc Ho. unfold rstrip.
  rewrite <- (rev_involutive w). apply occurs_rev. apply occurs_lstrip.
  - destruct w; [done|]. intros H. apply (f_equal (@length _)) in H.
    rewrite length_rev in H. done.
  - destruct (exists_last (l := w)) as (w' & d & ->); [by intros ->|].
    rewrite last_snoc in Hl. injection Hl as ->. rewrite rev_app_distr. by cbn.
  - by apply occurs_rev.
Qed.

Lemma occurs_strip (w s : str) (c : ascii) :
  trimmed w -> last w = Some c -> is_space c = false ->
  occurs w s -> occurs w (strip s).
Proof.
  intros Ht Hl Hc Ho. unfold strip. apply (occurs_rstrip w _ c Hl Hc).
  apply occurs_lstrip; [by destruct w | done | done].
Qed.

(** Templates. *)
Lemma fills_lower (t : list piece) (s : str) :
  lower_stable t = true -> fills t s -> fills (map lower_piece t) (lower s).
Proof.
  intros Hst Hf. induction Hf as [|a t s _ IH|ok h t s Hh _ IH];
    cbn [map lower_piece lower_stable forallb] in *.
  - constructor.
  - rewrite lower_app. constructor. by apply IH.
  - apply andb_true_iff in Hst as [Hok Hst].
    rewrite lower_app. constructor; [|by apply IH].
    apply forallb_forall. intros c Hc. apply in_map_iff in Hc as (x & <- & Hx).
    pose proof (for_all_chars_eq _ Hok x) as Hx'. cbv beta in Hx'.
    rewrite (forallb_at _ _ x Hh Hx) in Hx'. done.
Qed.

Lemma fills_text_occurs (t : list piece) (s a : str) :
  fills t s -> In (Txt a) t -> occurs a s.
Proof.
  induction 1 as [|b t s _ IH|ok h t s Hh _ IH]; intros Hin; [done|..].
  - destruct Hin as [[= ->]|Hin].
    + exists [], s. done.
    + by apply occurs_app_r, IH.
  - destruct Hin as [[=]|Hin]. by apply occurs_app_r, IH.
Qed.

Lemma some_text_has_occurs (w : str) (t : list piece) (s : str) :
  some_text_has w t = true -> fills t s -> occurs w s.
Proof.
  unfold some_text_has. rewrite existsb_exists. intros ([a|ok] & Hin & Hc) Hf; [|done].
  apply contains_occurs in Hc. eapply occurs_trans; [done|].
  by apply (fills_text_occurs t).
Qed.

Lemma begins_with_strip (w : str) (t : list piece) (s : str) :
  begins_with w t = true -> fills t s -> starts_with w (strip s) = true.
Proof.
  destruct t as [|[a|ok] t]; cbn [begins_with]; [done| |done].
  intros H Hf. apply andb_true_iff in H as [Hs Hl].
  destruct (last w) as [c|] eqn:El; [|done]. apply negb_true_iff in Hl.
  inversion Hf; subst. by apply (starts_with_strip w a _ c).
Qed.

End TextFacts.

(* ================================================================== *)
(** * The checks on a statement that fills a template *)
(* ================================================================== *)

Module SqlChecks.
Import PyStr Py SqlGen Shapes StrFacts Templates TextSpec TemplateFacts TextFacts SqlSpec.

Lemma any_in_false (ws : list str) (s : str) :
  (forall w, In w ws -> ~ occurs w s) -> any_in ws s = false.
Proof.
  intros H. unfold any_in. destruct (existsb _ ws) eqn:E; [|done].
  apply existsb_exists in E as (w & Hw & Hc). apply contains_occurs in Hc.
  by destruct (H w Hw).
Qed.

Lemma any_in_true (ws : list str) (s w : str) :
  In w ws -> occurs w s -> any_in ws s = true.
Proof.
  intros Hw Ho. unfold any_in. apply existsb_exists. exists w.
  split; [done | by apply contains_occurs].
Qed.

Lemma any_in_occurs (ws : list str) (s : str) :
  any_in ws s = true -> exists w, In w ws /\ occurs w s.
Proof.
  unfold any_in. intros E. apply existsb_exists in E as (w & Hw & Hc).
  exists w. split; [done | by apply contains_occurs].
Qed.

Lemma solid_strip (w s : str) : solid w = true -> occurs w s -> occurs w (strip s).
Proof.
  unfold solid. destruct w as [|c w'] eqn:Ew; [done|]. rewrite <- Ew.
  destruct (last w) as [d|] eqn:El; [|done].
  intros H Ho. apply andb_true_iff in H as [Hc Hd].
  apply negb_true_iff in Hc, Hd.
  apply (occurs_strip w s d); [by rewrite Ew | done | done | done].
Qed.

Lemma checks_intro (method s : str) :
  starts_with (first_word method) (strip (lower s)) = true ->
  occurs (L "from") (lower s) ->
  (exists table, In table valid_tables /\ occurs table (lower s)) ->
  (forall w, In w (dangerous_words ++ bare_calls) -> ~ occurs w (lower s)) ->
  sql_checks method s = true.
Proof.
  intros H1 H2 (table & Ht & H3) H4. unfold sql_checks. rewrite H1.
  rewrite (proj2 (contains_occurs _ _) H2), (any_in_true _ _ table Ht H3).
  rewrite !any_in_false; [done|..]; intros w Hw; apply H4, in_app_iff; auto.
Qed.

Lemma pieces_ok_inv (first : str) (t : list piece) :
  pieces_ok first t = true ->
  lower_stable t = true
  /\ begins_with first (map lower_piece t) = true
  /\ some_text_has (L "from") (map lower_piece t) = true
  /\ (exists table, In table valid_tables
                    /\ some_text_has table (map lower_piece t) = true)
  /\ (forall w, In w (dangerous_words ++ bare_calls) ->
        avoids w (map lower_piece t) = true).
Proof.
  unfold pieces_ok. cbv zeta. intros H.
  apply andb_true_iff in H as [H H4]. apply andb_true_iff in H as [H H3].
  apply andb_true_iff in H as [H H2]. apply andb_true_iff in H as [H0 H1].
  split; [done|]. split; [done|]. split; [done|]. split.
  - apply existsb_exists in H3 as (table & ? & ?). by exists table.
  - intros w Hw. by apply (forallb_at _ _ w H4).
Qed.

(** A statement that fills a checked template passes the checks. *)
Lemma checks_from_pieces (method : str) (t : list piece) (s : str) :
  fills t s -> pieces_ok (first_word method) t = true -> sql_checks method s = true.
Proof.
  intros Hf Hp. apply pieces_ok_inv in Hp as (H0 & H1 & H2 & (table & Ht & H3) & H4).
  apply fills_lower in Hf; [|done]. apply checks_intro.
  - by apply (begins_with_strip _ _ _ H1).
  - by apply (some_text_has_occurs _ _ _ H2).
  - exists table. split; [done|]. by apply (some_text_has_occurs _ _ _ H3).
  - intros w Hw. apply (avoids_sound w _ _ (H4 w Hw) Hf).
Qed.

Lemma tables_solid : forallb solid (L "from" :: valid_tables) = true.
Proof. reflexivity. Qed.

(** So does the statement stripped of the blanks around it. *)
Lemma checks_from_pieces_strip (method : str) (t : list piece) (s : str) :
  fills t s -> pieces_ok (first_word method) t = true ->
  sql_checks method (strip s) = true.
Proof.
  intros Hf Hp. apply pieces_ok_inv in Hp as (H0 & H1 & H2 & (table & Ht & H3) & H4).
  apply fills_lower in Hf; [|done].
  assert (forall w, In w (L "from" :: valid_tables) -> solid w = true) as Hsolid.
  { intros w Hw. exact (forallb_at _ _ w tables_solid Hw). }
  apply checks_intro; rewrite <- strip_lower.
  - rewrite strip_idem. by apply (begins_with_strip _ _ _ H1).
  - apply solid_strip; [apply Hsolid; by left|]. by apply (some_text_has_occurs _ _ _ H2).
  - exists table. split; [done|].
    apply solid_strip; [apply Hsolid; by right|]. by apply (some_text_has_occurs _ _ _ H3).
  - intros w Hw Ho. apply (avoids_sound w _ _ (H4 w Hw) Hf).
    destruct (strip_substring (lower s)) as (a & b & E). rewrite E.
    by apply occurs_app_r, occurs_app_l.
Qed.

(** ** The digits of a number *)

Lemma digit_char (m : N) : (m < 10)%N -> is_digit (ascii_of_N (48 + m)) = true.
Proof.
  intros H.
  assert (m = 0 \/ m = 1 \/ m = 2 \/ m = 3 \/ m = 4 \/ m = 5 \/ m = 6 \/ m = 7
          \/ m = 8 \/ m = 9)%N as Hm by lia.
  repeat (destruct Hm as [->|Hm]; [reflexivity|]). by subst.
Qed.

Lemma digits_fuel_digits (fuel : nat) (n : N) (acc : str) :
  forallb is_digit acc = true -> forallb is_digit (digits_fuel fuel n acc) = true.
Proof.
  revert n acc. induction fuel as [|f IH]; intros n acc Ha; cbn [digits_fuel]; [done|].
  assert (is_digit (ascii_of_N (48 + n mod 10)) = true) as Hd.
  { apply digit_char. apply N.mod_lt. done. }
  destruct (n <? 10)%N.
  - cbn [forallb]. by rewrite Hd.
  - apply IH. cbn [forallb]. by rewrite Hd.
Qed.

Lemma str_of_Z_chars (z : Z) : forallb years_char (str_of_Z z) = true.
Proof.
  assert (forall n, forallb years_char (str_of_N n) = true) as Hn.
  { intros n. unfold str_of_N.
    pose proof (digits_fuel_digits (S (N.to_nat (N.log2 n))) n [] eq_refl) as H.
    apply forallb_forall. intros c Hc. unfold years_char.
    by rewrite (forallb_at _ _ c H Hc). }
  destruct z; cbn [str_of_Z]; [apply Hn | apply Hn |].
  cbn [forallb]. by rewrite Hn.
Qed.

Lemma forallb_app' {A} (f : A -> bool) (a b : list A) :
  forallb f a = true -> forallb f b = true -> forallb f (a ++ b) = true.
Proof. intros Ha Hb. rewrite forallb_app. by rewrite Ha, Hb. Qed.

Lemma years_list_chars (l : list Z) :
  forallb years_char (join (L ", ") (map str_of_Z l)) = true.
Proof.
  induction l as [|z l IH]; [done|].
  cbn [map join]. destruct (map str_of_Z l) as [|y ys] eqn:E.
  - apply str_of_Z_chars.
  - apply forallb_app'; [apply str_of_Z_chars|]. apply forallb_app'; [reflexivity|]. done.
Qed.

End SqlChecks.

(* ================================================================== *)
(** * What str.replace keeps and what it cannot bring *)
(* ================================================================== *)

Module ReplaceFacts.
Import PyStr Shapes StrFacts TextFacts TemplateFacts ReplaceSpec.

Lemma is_suffix_spec (a s : str) : is_suffix a s = true <-> exists k, s = k ++ a.
Proof.
  unfold is_suffix. rewrite starts_with_app. split.
  - intros [y Hy]. exists (rev y). apply (f_equal (@rev ascii)) in Hy.
    by rewrite rev_involutive, rev_app_distr, rev_involutive in Hy.
  - intros [k ->]. exists (rev k). by rewrite rev_app_distr.
Qed.

Lemma replace_from_skip (old new : str) (t : str) (k : nat) :
  replace_from old new k t = replace_from old new 0 (drop k t).
Proof.
  revert k. induction t as [|c t IH]; intros [|k]; try done.
  cbn [replace_from drop]. apply IH.
Qed.

(** The two equations of [replace] for a word that is not empty. *)
Lemma replace_match (old new t : str) :
  old <> [] -> replace old new (old ++ t) = new ++ replace old new t.
Proof.
  intros Hne. unfold replace. destruct old as [|c old]; [done|].
  cbn [app replace_from].
  assert (starts_with (c :: old) (c :: old ++ t) = true) as ->.
  { apply starts_with_app. by exists t. }
  f_equal. rewrite replace_from_skip.
  replace (length (c :: old) - 1) with (length old) by (cbn [length]; lia).
  by rewrite drop_app_length.
Qed.

Lemma replace_pass (old new : str) (c : ascii) (t : str) :
  starts_with old (c :: t) = false ->
  replace old new (c :: t) = c :: replace old new t.
Proof. intros H. unfold replace. cbn [replace_from]. by rewrite H. Qed.

Lemma safe_inv (w old new : str) :
  replace_safe w old new = true ->
  ~ occurs w new /\ ~ occurs new w
  /\ (forall l l2 l3, l2 <> [] -> new = l2 ++ l3 -> w = l ++ l2 -> False)
  /\ (forall l l2 l3, l2 <> [] -> new = l ++ l2 -> w = l2 ++ l3 -> exists o, old = o ++ l2).
Proof.
  unfold replace_safe. intros safe.
  apply andb_true_iff in safe as [H H4]. apply andb_true_iff in H as [H H3].
  apply andb_true_iff in H as [H1 H2].
  apply negb_true_iff, contains_false_occurs in H1, H2.
  split; [done|]. split; [done|]. split.
  - intros l l2 l3 Hne En Ew.
    apply (forallb_at _ _ (length l2)) in H3.
    + cbv beta in H3. apply negb_true_iff in H3. rewrite En, take_app_length in H3.
      assert (is_suffix l2 w = true) by (apply is_suffix_spec; by exists l).
      congruence.
    + apply in_seq. rewrite En, length_app. destruct l2; [done|]. cbn. lia.
  - intros l l2 l3 Hne En Ew.
    apply (forallb_at _ _ (length l2)) in H4.
    + cbv beta in H4. rewrite Ew, take_app_length in H4.
      assert (is_suffix l2 new = true) as E by (apply is_suffix_spec; by exists l).
      rewrite E in H4. cbn [implb] in H4. by apply is_suffix_spec in H4.
    + apply in_seq. rewrite Ew, length_app. destruct l2; [done|]. cbn. lia.
Qed.

(** One replacement brings no word. *)
Lemma replace_step (w old new a b : str) :
  replace_safe w old new = true ->
  ~ occurs w (a ++ old ++ b) -> ~ occurs w (a ++ new ++ b).
Proof.
  intros safe. destruct (safe_inv w old new safe) as (H1 & H2 & H3 & H4).
  intros Hno (x & y & E). apply Hno.
  apply app_eq_app in E as [l [[Ea E]|[Ex E]]].
  - apply app_eq_app in E as [l2 [[Ew E]|[El Ey]]].
    + apply app_eq_app in E as [l3 [[En Ey]|[El2 Eb]]].
      * destruct (decide (l2 = [])) as [->|Hne].
        -- rewrite app_nil_r in Ew. apply occurs_app_l. exists x, []. by rewrite Ea, Ew, app_nil_r.
        -- destruct (H3 l l2 l3 Hne En Ew).
      * destruct H2. exists l, l3. by rewrite Ew, El2.
    + apply occurs_app_l. exists x, l2. by rewrite Ea, El.
  - apply app_eq_app in E as [l2 [[En E]|[El Eb]]].
    + apply app_eq_app in E as [l3 [[Ew Eb]|[El2 Ey]]].
      * destruct (decide (l2 = [])) as [->|Hne].
        -- cbn [app] in Ew. apply occurs_app_r, occurs_app_r. exists [], y. by rewrite Eb, Ew.
        -- destruct (H4 l l2 l3 Hne En Ew) as [o Eo].
           exists (a ++ o), y. rewrite Eo, Eb, Ew. by rewrite <- !app_assoc.
      * destruct H1. exists l, l3. by rewrite En, El2.
    + apply occurs_app_r, occurs_app_r. exists l2, y. done.
Qed.

(** [replace] brings no word into the text, read through a change of
    characters [g] (none, or the lower case). *)
Lemma replace_avoids_map (g : ascii -> ascii) (w old new s : str) :
  old <> [] -> replace_safe w (map g old) (map g new) = true ->
  ~ occurs w (map g s) -> ~ occurs w (map g (replace old new s)).
Proof.
  intros Hne Hsafe.
  assert (forall n s p, length s <= n -> ~ occurs w (map g (p ++ s)) ->
            ~ occurs w (map g (p ++ replace old new s))) as H.
  { induction n as [|n IH]; intros s' p Hlen Hno.
    - destruct s'; [done | cbn in Hlen; lia].
    - destruct s' as [|c t]; [done|].
      destruct (starts_with old (c :: t)) eqn:Hs.
      + apply starts_with_app in Hs as [t' Ht']. rewrite Ht' in *.
        rewrite (replace_match old new t' Hne). rewrite app_assoc.
        apply IH.
        * rewrite length_app in Hlen. destruct old; [done|]. cbn in Hlen. lia.
        * rewrite <- app_assoc. rewrite !map_app.
          apply (replace_step w (map g old) (map g new) _ _ Hsafe).
          by rewrite <- !map_app.
      + rewrite (replace_pass old new c t Hs).
        replace (p ++ c :: replace old new t) with ((p ++ [c]) ++ replace old new t)
          by (by rewrite <- app_assoc).
        apply IH; [cbn in Hlen; lia|]. by rewrite <- app_assoc. }
  intros Hno. apply (H (length s) s []); done.
Qed.

Lemma replace_avoids (w old new s : str) :
  old <> [] -> replace_safe w (lower old) (lower new) = true ->
  ~ occurs w (lower s) -> ~ occurs w (lower (replace old new s)).
Proof. apply (replace_avoids_map lower_char). Qed.

Lemma replace_avoids_exact (w old new s : str) :
  old <> [] -> replace_safe w old new = true ->
  ~ occurs w s -> ~ occurs w (replace old new s).
Proof.
  intros Hne Hsafe Hno. pose proof (replace_avoids_map id w old new s Hne) as H.
  rewrite !map_id in H. by apply H.
Qed.

Lemma apart_inv (w old : str) :
  replace_apart w old = true ->
  ~ occurs old w /\ ~ occurs w old
  /\ (forall l l2 l3, l2 <> [] -> w = l ++ l2 -> old = l2 ++ l3 -> False)
  /\ (forall l l2 l3, l2 <> [] -> old = l ++ l2 -> w = l2 ++ l3 -> False).
Proof.
  unfold replace_apart. intros H.
  apply andb_true_iff in H as [H H4]. apply andb_true_iff in H as [H H3].
  apply andb_true_iff in H as [H1 H2].
  apply negb_true_iff, contains_false_occurs in H1, H2.
  split; [done|]. split; [done|]. split.
  - intros l l2 l3 Hne Ew Eo.
    apply (forallb_at _ _ (length l2)) in H3.
    + cbv beta in H3. apply negb_true_iff in H3. rewrite Eo, take_app_length in H3.
      assert (is_suffix l2 w = true) by (apply is_suffix_spec; by exists l).
      congruence.
    + apply in_seq. rewrite Eo, length_app. destruct l2; [done|]. cbn. lia.
  - intros l l2 l3 Hne Eo Ew.
    apply (forallb_at _ _ (length l2)) in H4.
    + cbv beta in H4. apply negb_true_iff in H4. rewrite Ew, take_app_length in H4.
      assert (is_suffix l2 old = true) by (apply is_suffix_spec; by exists l).
      congruence.
    + apply in_seq. rewrite Ew, length_app. destruct l2; [done|]. cbn. lia.
Qed.

(** Inside an occurrence of the word no replacement begins. *)
Lemma replace_through (w old new : str) :
  replace_apart w old = true ->
  forall w2 w1 y, w = w1 ++ w2 -> exists o, replace old new (w2 ++ y) = w2 ++ o.
Proof.
  intros Hap. destruct (apart_inv w old Hap) as (H1 & H2 & H3 & H4).
  induction w2 as [|c w2 IH]; intros w1 y Ew; [by eexists|].
  cbn [app]. destruct (starts_with old (c :: w2 ++ y)) eqn:Hs.
  - exfalso. apply starts_with_app in Hs as [r Hr].
    change (c :: w2 ++ y) with ((c :: w2) ++ y) in Hr.
    apply app_eq_app in Hr as [l [[E1 E2]|[E1 E2]]].
    + destruct H1. exists w1, l. by rewrite Ew, E1.
    + by apply (H3 w1 (c :: w2) l).
  - rewrite (replace_pass old new c _ Hs).
    destruct (IH (w1 ++ [c]) y) as [o Ho]; [by rewrite Ew, <- app_assoc|].
    exists o. by rewrite Ho.
Qed.

(** [replace] keeps a word that the replaced text cannot overlap. *)
Lemma replace_keeps (w old new s : str) :
  old <> [] -> w <> [] -> replace_apart w old = true ->
  occurs w s -> occurs w (replace old new s).
Proof.
  intros Hne Hw Hap. destruct (apart_inv w old Hap) as (H1 & H2 & H3 & H4).
  assert (forall n s, length s <= n -> occurs w s -> occurs w (replace old new s)) as H.
  { induction n as [|n IH]; intros s' Hlen (x & y & E).
    - destruct s'; [|cbn in Hlen; lia]. destruct x, w; done.
    - destruct s' as [|c t]; [destruct x, w; done|].
      destruct (starts_with old (c :: t)) eqn:Hs.
      + apply starts_with_app in Hs as [t' Ht']. rewrite Ht' in *.
        rewrite (replace_match old new t' Hne). apply occurs_app_r. apply IH.
        * rewrite length_app in Hlen. destruct old; [done|]. cbn in Hlen. lia.
        * apply app_eq_app in E as [l [[Eo E]|[Ex E]]].
          -- apply app_eq_app in E as [l2 [[Ew Et]|[El Ey]]].
             ++ destruct (decide (l = [])) as [->|Hl].
                ** cbn [app] in Ew. exists [], y. by rewrite Et, Ew.
                ** destruct (H4 x l l2 Hl Eo Ew).
             ++ destruct H2. exists x, l2. by rewrite Eo, El.
          -- by exists l, y.
      + rewrite (replace_pass old new c t Hs). destruct x as [|d x].
        * cbn [app] in E.
          destruct (replace_through w old new Hap w [] y eq_refl) as [o Ho].
          rewrite <- (replace_pass old new c t Hs), E, Ho. by exists [], o.
        * injection E as <- E. destruct (IH t) as (a & b & Eab).
          -- cbn in Hlen. lia.
          -- by exists x, y.
          -- exists (c :: a), b. by rewrite Eab. }
  intros Ho. by apply (H (length s)).
Qed.

End ReplaceFacts.

(* ================================================================== *)
(** * The templates of the direct shapes pass the checks *)
(* ================================================================== *)

Module DirectChecks.
Import PyStr Re Py SqlGen Shapes StrFacts Templates TextSpec TemplateFacts TextFacts
  SqlSpec SqlChecks RecordSpec.

Lemma fills_end (a : str) : fills [Txt a] a.
Proof. rewrite <- (app_nil_r a) at 2. apply fills_txt, fills_nil. Qed.

(** The pieces of a template are read off its text: the literals, and a
    gap for each text of which only the alphabet is known. *)
Ltac fill :=
  lazymatch goal with
  | |- fills _ (L ?a ++ ?s) => apply fills_txt; fill
  | |- fills _ (L ?a) => apply fills_end
  | |- fills _ (?h ++ ?s) => eapply fills_gap; [eassumption | fill]
  end.

Lemma operating_duration_sql_checked (comparison seconds : str) :
  forallb comparison_char comparison = true -> forallb float_char seconds = true ->
  sql_checks (L "operating_duration_direct") (operating_duration_sql comparison seconds) = true.
Proof.
  intros Hc Hs. eapply checks_from_pieces.
  - unfold operating_duration_sql. fill.
  - vm_compute. reflexivity.
Qed.

Lemma year_count_sql_checked (years_str : str) :
  forallb years_char years_str = true ->
  sql_checks (L "year_count_direct") (year_count_sql years_str) = true.
Proof.
  intros Hy. eapply checks_from_pieces.
  - unfold year_count_sql. fill.
  - vm_compute. reflexivity.
Qed.

Lemma nearest_floats_sql_checked (latitude longitude : str) :
  forallb float_char latitude = true -> forallb float_char longitude = true ->
  sql_checks (L "nearest_floats_direct") (nearest_floats_sql latitude longitude) = true.
Proof.
  intros Hlat Hlon. eapply checks_from_pieces.
  - unfold nearest_floats_sql. fill.
  - vm_compute. reflexivity.
Qed.

Lemma year_comparison_equatorial_sql_checked (y1 y0 : str) :
  forallb years_char y1 = true -> forallb years_char y0 = true ->
  sql_checks (L "year_comparison_direct") (strip (year_comparison_equatorial_sql y1 y0)) = true.
Proof.
  intros H1 H0. eapply checks_from_pieces_strip.
  - unfold year_comparison_equatorial_sql. fill.
  - vm_compute. reflexivity.
Qed.

Lemma year_comparison_plain_sql_checked (y1 y0 : str) :
  forallb years_char y1 = true -> forallb years_char y0 = true ->
  sql_checks (L "year_comparison_direct") (strip (year_comparison_plain_sql y1 y0)) = true.
Proof.
  intros H1 H0. eapply checks_from_pieces_strip.
  - unfold year_comparison_plain_sql. fill.
  - vm_compute. reflexivity.
Qed.

Lemma geographic_sql_checked (lat_lo lat_hi lon_lo lon_hi : str) :
  forallb float_char lat_lo = true -> forallb float_char lat_hi = true ->
  forallb float_char lon_lo = true -> forallb float_char lon_hi = true ->
  sql_checks (L "geographic_direct") (strip (geographic_sql lat_lo lat_hi lon_lo lon_hi)) = true.
Proof.
  intros H1 H2 H3 H4. eapply checks_from_pieces_strip.
  - unfold geographic_sql. fill.
  - vm_compute. reflexivity.
Qed.

End DirectChecks.

(* ================================================================== *)
(** * The rewriting of aggregates over array columns *)
(* ================================================================== *)

Module ArrayFix.
Import PyStr Re Py SqlGen Shapes StrFacts.





(** Texts that end in the one closing parenthesis they have and hold no
    square bracket. *)


Lemma surface_lookups (r1 o : str) (k : nat) (c : ascii) :
  (forall k, r1 !! k <> Some ")"%char) ->
  ((r1 ++ L "[1])") ++ o) !! k = Some c ->
  (k < length r1 /\ c <> ")"%char) \/
  (k = length r1 /\ c = "["%char) \/
  (k = length r1 + 1 /\ c = "1"%char) \/
  (k = length r1 + 2 /\ c = "]"%char) \/
  (k = length r1 + 3 /\ c = ")"%char) \/
  (length r1 + 4 <= k /\ o !! (k - (length r1 + 4)) = Some c).
Proof.
  intros Hr1 Hk. rewrite <- app_assoc in Hk.
  destruct (decide (k < length r1)) as [Hlt|Hge].
  - left. split; [done|]. rewrite lookup_app_l in Hk by done.
    intros ->. by apply (Hr1 k).
  - right. rewrite lookup_app_r in Hk by lia.
    remember (k - length r1) as j eqn:Hj.
    destruct j as [|[|[|[|j]]]]; simpl in Hk.
    + left. split; [lia | congruence].
    + right; left. split; [lia | congruence].
    + right; right; left. split; [lia | congruence].
    + right; right; right; left. split; [lia | congruence].
    + right; right; right; right. split; [lia|].
      replace (k - (length r1 + 4)) with j by lia. done.
Qed.

Lemma closing_no_prefix_of_surface (b b1 b2 repl o z : str) :
  closing b -> b = b1 ++ b2 -> b2 <> [] -> surface_form repl ->
  repl ++ o = b2 ++ z -> False.
Proof.
  intros (Hlen & Hlast & Hin) Hb Hne (r1 & -> & Hr1) Heq.
  assert (length b = length b1 + length b2) as Hl by (by rewrite Hb, length_app).
  assert (0 < length b2) as Hl2 by (destruct b2; [done | simpl; lia]).
  assert (forall k, k < length b2 -> ((r1 ++ L "[1])") ++ o) !! k = b !! (length b1 + k)) as Hidx.
  { intros k Hk. rewrite Heq, Hb. rewrite lookup_app_l by done.
    rewrite lookup_app_r by lia. f_equal. lia. }
  pose proof (Hidx (length b2 - 1) ltac:(lia)) as Hend.
  replace (length b1 + (length b2 - 1)) with (length b - 1) in Hend by lia.
  rewrite Hlast in Hend.
  apply (surface_lookups _ _ _ _ Hr1) in Hend as [[? ?]|[[? ?]|[[? ?]|[[? ?]|[[Hk _]|[Hk _]]]]]];
    [done | done | done | done | |].
  - pose proof (Hidx (length r1) ltac:(lia)) as Hbr.
    assert (((r1 ++ L "[1])") ++ o) !! length r1 = Some "["%char) as Hb1.
    { rewrite <- app_assoc, lookup_app_r by lia.
      by replace (length r1 - length r1) with 0 by lia. }
    rewrite Hb1 in Hbr. symmetry in Hbr.
    apply Hin in Hbr; [|lia]. by destruct Hbr as (_ & ? & _).
  - pose proof (Hidx (length r1) ltac:(lia)) as Hbr.
    assert (((r1 ++ L "[1])") ++ o) !! length r1 = Some "["%char) as Hb1.
    { rewrite <- app_assoc, lookup_app_r by lia.
      by replace (length r1 - length r1) with 0 by lia. }
    rewrite Hb1 in Hbr. symmetry in Hbr.
    apply Hin in Hbr; [|lia]. by destruct Hbr as (_ & ? & _).
Qed.

Lemma closing_not_across_surface (b repl o : str) :
  closing b -> surface_form repl -> occurs b (repl ++ o) -> occurs b o.
Proof.
  intros Hcl Hsf (x & y & Heq).
  destruct (decide (length repl <= length x)) as [Hle|Hlt].
  - assert (x = repl ++ drop (length repl) x) as Hx.
    { rewrite <- (take_drop (length repl) x) at 1. f_equal.
      apply (f_equal (take (length repl))) in Heq.
      rewrite take_app_length in Heq. rewrite take_app_le in Heq by done. done. }
    rewrite Hx, <- app_assoc in Heq. apply app_inv_head in Heq.
    by exists (drop (length repl) x), y.
  - exfalso. destruct Hcl as (Hlen & Hlast & Hin). destruct Hsf as (r1 & -> & Hr1).
    rewrite length_app in Hlt. simpl in Hlt.
    assert (forall k, k < length b -> ((r1 ++ L "[1])") ++ o) !! (length x + k) = b !! k) as Hidx.
    { intros k Hk. rewrite Heq. rewrite lookup_app_r by lia.
      rewrite lookup_app_l by lia. f_equal. lia. }
    destruct (decide (length x + length b <= length r1)) as [Hin1|Hout].
    + pose proof (Hidx (length b - 1) ltac:(lia)) as Hend. rewrite Hlast in Hend.
      apply (surface_lookups _ _ _ _ Hr1) in Hend
        as [[? ?]|[[? ?]|[[? ?]|[[? ?]|[[Hk _]|[Hk _]]]]]]; try done; lia.
    + destruct (decide (length x <= length r1)) as [Hxr|Hxr].
      * pose proof (Hidx (length r1 - length x) ltac:(lia)) as Hbr.
        replace (length x + (length r1 - length x)) with (length r1) in Hbr by lia.
        rewrite <- app_assoc, lookup_app_r in Hbr by lia.
        replace (length r1 - length r1) with 0 in Hbr by lia. simpl in Hbr.
        symmetry in Hbr.
        destruct (decide (length r1 - length x = length b - 1)) as [He|He].
        -- rewrite He, Hlast in Hbr. done.
        -- apply Hin in Hbr; [|done]. by destruct Hbr as (_ & ? & _).
      * assert (b !! 0 <> Some ")"%char /\ b !! 0 <> Some "]"%char /\ b !! 1 <> Some "]"%char) as (H0 & H0' & H1).
        { split; [|split]; intros Hc.
          - destruct (Hin _ _ Hc ltac:(lia)) as (? & ? & ?); done.
          - destruct (Hin _ _ Hc ltac:(lia)) as (? & ? & ?); done.
          - destruct (decide (1 = length b - 1)) as [He|He].
            + rewrite <- He, Hc in Hlast. done.
            + destruct (Hin _ _ Hc He) as (? & ? & ?); done. }
        pose proof (Hidx 0 ltac:(lia)) as Hi0. pose proof (Hidx 1 ltac:(lia)) as Hi1.
        rewrite <- app_assoc in Hi0, Hi1.
        rewrite lookup_app_r in Hi0, Hi1 by lia.
        remember (length x + 0 - length r1) as j eqn:Hj.
        replace (length x + 1 - length r1) with (S j) in Hi1 by lia.
        destruct j as [|[|[|[|j]]]]; simpl in Hi0, Hi1; try lia; congruence.
Qed.

Section SubGeneric.
Variable mt : option ascii -> str -> option nat.
Variable repl : str.
Variable Q : str -> Prop.
Hypothesis mt_sound :
  forall pv s n, mt pv s = Some n -> 0 < n /\ n <= length s /\ Q (firstn n s).

Lemma sub_fuel_S f pv s :
  sub_fuel (S f) mt repl pv s =
  match mt pv s with
  | Some (S n) =>
      repl ++ sub_fuel f mt repl (last_or pv (firstn (S n) s)) (skipn (S n) s)
  | Some O => repl ++ match s with [] => [] | c :: t => c :: sub_fuel f mt repl (Some c) t end
  | None => match s with [] => [] | c :: t => c :: sub_fuel f mt repl (Some c) t end
  end.
Proof. reflexivity. Qed.


Lemma sub_through (w : str) :
  apart Q w ->
  forall w2 w1 f pv y, w = w1 ++ w2 -> length (w2 ++ y) < f ->
    exists o, sub_fuel f mt repl pv (w2 ++ y) = w2 ++ o.
Proof.
  intros Hap w2. induction w2 as [|c w2 IH]; intros w1 f pv y Hw Hf.
  - by eexists.
  - destruct f as [|f]; [simpl in Hf; lia |]. rewrite sub_fuel_S.
    change ((c :: w2) ++ y) with (c :: w2 ++ y).
    destruct (mt pv (c :: w2 ++ y)) as [n|] eqn:Hm.
    + exfalso. apply mt_sound in Hm as (Hn & Hle & HQ).
      specialize (Hap [] y w1 (take n (c :: w2 ++ y)) (drop n (c :: w2 ++ y)) HQ).
      rewrite Hw in Hap. simpl in Hap.
      rewrite <- app_assoc in Hap. simpl in Hap.
      rewrite take_drop in Hap. specialize (Hap eq_refl).
      rewrite length_take in Hap. rewrite !length_app in Hap. simpl in *. lia.
    + destruct (IH (w1 ++ [c]) f (Some c) y) as [o Ho].
      * by rewrite Hw, <- app_assoc.
      * simpl in Hf. lia.
      * exists o. by rewrite Ho.
Qed.

Lemma sub_keeps (w : str) :
  apart Q w -> w <> [] ->
  forall f pv x y, length (x ++ w ++ y) < f ->
    occurs w (sub_fuel f mt repl pv (x ++ w ++ y)).
Proof.
  intros Hap Hne f. induction f as [|f IH]; intros pv x y Hf; [lia|].
  destruct x as [|c x].
  - destruct (sub_through w Hap w [] (S f) pv y eq_refl Hf) as [o Ho].
    simpl app at 1. rewrite Ho. by exists [], o.
  - rewrite sub_fuel_S. change ((c :: x) ++ w ++ y) with (c :: x ++ w ++ y).
    destruct (mt pv (c :: x ++ w ++ y)) as [n|] eqn:Hm.
    + pose proof Hm as Hm'. apply mt_sound in Hm' as (Hn & Hle & HQ).
      destruct n as [|n]; [lia|].
      assert (S n <= length (c :: x)) as Hin.
      { specialize (Hap (c :: x) y [] (take (S n) (c :: x ++ w ++ y))
                      (drop (S n) (c :: x ++ w ++ y)) HQ).
        simpl app in Hap at 3. rewrite take_drop in Hap. specialize (Hap eq_refl).
        rewrite length_take in Hap. destruct w; [done|]. simpl in *. lia. }
      assert (drop (S n) (c :: x ++ w ++ y) = drop (S n) (c :: x) ++ w ++ y) as ->.
      { change (c :: x ++ w ++ y) with ((c :: x) ++ w ++ y).
        rewrite drop_app_le by done. done. }
      destruct (IH (last_or pv (take (S n) (c :: x ++ w ++ y))) (drop (S n) (c :: x)) y)
        as (a & b & Hab).
      * rewrite !length_app, length_drop. rewrite !length_app in Hf. simpl in *. lia.
      * exists (repl ++ a), b. rewrite Hab. by rewrite <- app_assoc.
    + destruct (IH (Some c) x y) as (a & b & Hab).
      * simpl in Hf. lia.
      * exists (c :: a), b. by rewrite Hab.
Qed.

Lemma sub_fires (w : str) :
  (forall pv y, exists n, mt pv (w ++ y) = Some n) ->
  forall f pv x y, length (x ++ w ++ y) < f ->
    occurs repl (sub_fuel f mt repl pv (x ++ w ++ y)).
Proof.
  intros Hc f. induction f as [|f IH]; intros pv x y Hf; [lia|].
  rewrite sub_fuel_S. destruct (mt pv (x ++ w ++ y)) as [[|n]|] eqn:Hm.
  - by eexists [], _.
  - by eexists [], _.
  - destruct x as [|c x].
    + destruct (Hc pv y) as [n Hn]. simpl in Hm. congruence.
    + simpl. destruct (IH (Some c) x y) as (a & b & Hab).
      * simpl in Hf. lia.
      * exists (c :: a), b. by rewrite Hab.
Qed.

Lemma sub_prefix_reflect (b : str) :
  closing b -> surface_form repl ->
  forall b2 b1 f pv s z, b = b1 ++ b2 -> length s < f ->
    sub_fuel f mt repl pv s = b2 ++ z -> exists z', s = b2 ++ z'.
Proof.
  intros Hcl Hsf b2. induction b2 as [|d b2 IH]; intros b1 f pv s z Hb Hf Heq.
  - by exists s.
  - destruct f as [|f]; [lia|]. rewrite sub_fuel_S in Heq.
    destruct (mt pv s) as [[|n]|] eqn:Hm.
    + apply mt_sound in Hm. lia.
    + exfalso. eapply (closing_no_prefix_of_surface b b1 (d :: b2)); eauto.
    + destruct s as [|c s]; [done|]. injection Heq as Hcd Heq. subst d.
      destruct (IH (b1 ++ [c]) f (Some c) s z) as [z' Hz']; try done.
      * by rewrite <- app_assoc.
      * simpl in Hf. lia.
      * exists z'. by rewrite Hz'.
Qed.

Lemma sub_absent (b : str) :
  closing b -> surface_form repl ->
  forall f pv s, length s < f ->
    occurs b (sub_fuel f mt repl pv s) ->
    exists u v pv', s = u ++ b ++ v /\ mt pv' (b ++ v) = None.
Proof.
  intros Hcl Hsf f. induction f as [|f IH]; intros pv s Hf Hocc; [lia|].
  rewrite sub_fuel_S in Hocc. destruct (mt pv s) as [[|n]|] eqn:Hm.
  - apply mt_sound in Hm. lia.
  - apply closing_not_across_surface in Hocc; [|done..].
    apply IH in Hocc as (u & v & pv' & Hs & Hnone).
    + exists (take (S n) s ++ u), v, pv'. split; [|done].
      rewrite <- app_assoc, <- Hs. by rewrite take_drop.
    + rewrite length_drop. apply mt_sound in Hm. lia.
  - destruct s as [|c s].
    + destruct Hocc as (x & y & Hxy). destruct Hcl as (Hl & _).
      apply (f_equal length) in Hxy. rewrite !length_app in Hxy. simpl in Hxy. lia.
    + destruct Hocc as (x & y & Hxy). destruct x as [|c' x].
      * simpl in Hxy. destruct b as [|d b]; [destruct Hcl; simpl in *; lia|].
        injection Hxy as Hcd Hxy. subst d.
        destruct (sub_prefix_reflect (c :: b) Hcl Hsf b [c] f (Some c) s y eq_refl) as [z' ->].
        -- simpl in Hf. lia.
        -- done.
        -- exists [], z', pv. done.
      * injection Hxy as Hcd Hxy. subst c'.
        destruct (IH (Some c) s) as (u & v & pv' & -> & Hnone).
        -- simpl in Hf. lia.
        -- by exists x, y.
        -- by exists (c :: u), v, pv'.
Qed.

End SubGeneric.



Lemma in_all_chars (c : ascii) : In c all_chars.
Proof.
  unfold all_chars. rewrite <- (ascii_nat_embedding c). apply in_map.
  apply in_seq. pose proof (nat_ascii_bounded c). lia.
Qed.

Lemma for_all_chars (P : ascii -> bool) :
  forallb P all_chars = true -> forall c, P c = true.
Proof. intros H c. eapply forallb_forall in H; [done | apply in_all_chars]. Qed.

Lemma kind_lower (c : ascii) : kind (lower_char c) = kind c.
Proof.
  apply Nat.eqb_eq. revert c.
  apply (for_all_chars (fun c => kind (lower_char c) =? kind c)). by vm_compute.
Qed.

Lemma chr_match_kind (fl : flags) (c x : ascii) :
  chr_match fl c x = true -> kind x = kind c.
Proof.
  unfold chr_match. destruct (ic fl); intros H; apply eqc_eq in H.
  - by rewrite <- (kind_lower x), <- (kind_lower c), H.
  - by rewrite H.
Qed.

Lemma chr_match_dot (fl : flags) (x : ascii) :
  chr_match fl "." x = true -> x = "."%char.
Proof.
  unfold chr_match. destruct (ic fl); intros H.
  - revert H. generalize x.
    assert (forall c, implb (eqc (lower_char c) (lower_char ".")) (eqc c ".") = true) as Hall.
    { apply for_all_chars. by vm_compute. }
    intros c Hc. specialize (Hall c). rewrite Hc in Hall. by apply eqc_eq.
  - by apply eqc_eq.
Qed.

(** Texts of the form [xxx(body)]: three plain characters, an opening
    parenthesis, a non-empty plain body, a closing parenthesis. *)

Lemma call_template_lookup (j k v : nat) :
  ([0; 0; 0; 1] ++ replicate (S j) 0 ++ [2]) !! k = Some v ->
  k < 6 + j /\ v = (if k =? 3 then 1 else if k =? 5 + j then 2 else 0).
Proof.
  intros H.
  destruct (decide (k < 4)) as [H4|H4].
  - destruct k as [|[|[|[|k]]]]; simpl in H; try lia; injection H as <-; (split; [lia | done]).
  - rewrite lookup_app_r in H by (simpl; lia). simpl length in H.
    destruct (decide (k - 4 < S j)) as [Hj|Hj].
    + rewrite lookup_app_l in H by (by rewrite length_replicate).
      apply lookup_replicate in H as [-> _]. split; [lia|].
      destruct (k =? 3) eqn:E1; [apply Nat.eqb_eq in E1; lia|].
      destruct (k =? 5 + j) eqn:E2; [apply Nat.eqb_eq in E2; lia|]. done.
    + rewrite lookup_app_r in H by (rewrite length_replicate; lia).
      rewrite length_replicate in H.
      destruct (k - 4 - S j) as [|?] eqn:E; simpl in H; [|done].
      assert (k = 5 + j) as -> by lia. split; [lia|].
      injection H as <-. replace (5 + j =? 3) with false by (symmetry; apply Nat.eqb_neq; lia).
      by rewrite Nat.eqb_refl.
Qed.

Lemma call_shape_lookup (t : str) :
  call_shape t ->
  6 <= length t /\
  forall k c, t !! k = Some c ->
    kind c = (if k =? 3 then 1 else if k =? length t - 1 then 2 else 0).
Proof.
  intros [j Hj].
  assert (length t = 6 + j) as Hlen.
  { apply (f_equal length) in Hj. rewrite length_map, !length_app, length_replicate in Hj.
    simpl in Hj. lia. }
  split; [lia|]. intros k c Hk.
  assert (map kind t !! k = Some (kind c)) as Hm by (by rewrite list_lookup_fmap, Hk).
  rewrite Hj in Hm. apply call_template_lookup in Hm as [_ ->].
  by replace (length t - 1) with (5 + j) by lia.
Qed.

Lemma call_shape_closing (t : str) : call_shape t -> closing t.
Proof.
  intros Hs. destruct (call_shape_lookup t Hs) as [Hlen Hk].
  split; [lia|]. split.
  - destruct (t !! (length t - 1)) as [c|] eqn:Hc.
    + specialize (Hk _ _ Hc). rewrite Nat.eqb_refl in Hk.
      replace (length t - 1 =? 3) with false in Hk by (symmetry; apply Nat.eqb_neq; lia).
      f_equal. revert Hk. unfold kind.
      destruct (eqc c "(") eqn:E1; [done|]. destruct (eqc c ")") eqn:E2; [by apply eqc_eq in E2|].
      destruct (eqc c "["); [done|]. destruct (eqc c "]"); done.
    + apply lookup_ge_None in Hc. lia.
  - intros k c Hc Hne. specialize (Hk _ _ Hc).
    replace (k =? length t - 1) with false in Hk by (symmetry; apply Nat.eqb_neq; lia).
    assert (kind c = 1 \/ kind c = 0) as Hkc by (destruct (k =? 3); auto).
    repeat split; intros ->; vm_compute in Hkc; lia.
Qed.

Lemma overlap_char {A} (x w y p t q : list A) (k k' : nat) :
  x ++ w ++ y = p ++ t ++ q ->
  k < length t -> k' < length w -> length p + k = length x + k' ->
  t !! k = w !! k'.
Proof.
  intros E Hk Hk' Hpos.
  assert ((p ++ t ++ q) !! (length p + k) = t !! k) as <-.
  { rewrite lookup_app_r by lia. rewrite lookup_app_l by lia. f_equal. lia. }
  rewrite <- E, Hpos. rewrite lookup_app_r by lia. rewrite lookup_app_l by lia.
  f_equal. lia.
Qed.

Lemma lookup_lt_is_Some' {A} (l : list A) (k : nat) :
  k < length l -> exists c, l !! k = Some c.
Proof. intros H. by apply lookup_lt_is_Some in H as [c ?]; eauto. Qed.

(** A call-shaped text cannot overlap the surface form of a call. *)
Lemma call_apart_surface (w x y p t q : str) :
  surface_form w -> call_shape t ->
  x ++ w ++ y = p ++ t ++ q ->
  length p + length t <= length x \/ length x + length w <= length p.
Proof.
  intros (r1 & -> & Hr1) Ht E.
  destruct (call_shape_lookup t Ht) as [Hlt Hkt].
  rewrite length_app. simpl length.
  destruct (decide (length p + length t <= length x)) as [?|Hov1]; [by left|].
  destruct (decide (length x + (length r1 + 4) <= length p)) as [?|Hov2]; [by right|].
  exfalso.
  assert (forall k k' c, k < length t -> length p + k = length x + k' ->
            (r1 ++ L "[1])") !! k' = Some c ->
            kind c = (if k =? 3 then 1 else if k =? length t - 1 then 2 else 0)) as Hc.
  { intros k k' c Hk Hpos Hw. apply Hkt.
    rewrite (overlap_char x (r1 ++ L "[1])") y p t q k k' E); try done.
    apply lookup_lt_Some in Hw. done. }
  assert (forall i c, L "[1])" !! i = Some c -> (r1 ++ L "[1])") !! (length r1 + i) = Some c) as Htail.
  { intros i c Hi. rewrite lookup_app_r by lia. by replace (length r1 + i - length r1) with i by lia. }
  destruct (decide (length p <= length x + length r1)) as [Ha|Ha].
  - destruct (decide (length x + length r1 < length p + length t)) as [Hb|Hb].
    + specialize (Hc (length x + length r1 - length p) (length r1 + 0) "["%char ltac:(lia) ltac:(lia)
                    (Htail 0 _ eq_refl)).
      vm_compute (kind "[") in Hc. repeat case_match; done.
    + destruct (lookup_lt_is_Some' r1 (length p + length t - 1 - length x) ltac:(lia)) as [c Hcr].
      specialize (Hc (length t - 1) (length p + length t - 1 - length x) c ltac:(lia) ltac:(lia)).
      rewrite lookup_app_l in Hc by lia. specialize (Hc Hcr).
      rewrite Nat.eqb_refl in Hc.
      replace (length t - 1 =? 3) with false in Hc by (symmetry; apply Nat.eqb_neq; lia).
      assert (c = ")"%char) as ->.
      { revert Hc. unfold kind. destruct (eqc c "("); [done|].
        destruct (eqc c ")") eqn:E2; [by apply eqc_eq in E2|].
        destruct (eqc c "["); [done|]. by destruct (eqc c "]"). }
      by apply (Hr1 _ Hcr).
  - destruct (decide (length p <= length x + length r1 + 2)) as [Hb|Hb].
    + specialize (Hc (length x + length r1 + 2 - length p) (length r1 + 2) "]"%char ltac:(lia) ltac:(lia)
                    (Htail 2 _ eq_refl)).
      vm_compute (kind "]") in Hc. repeat case_match; done.
    + specialize (Hc 0 (length r1 + 3) ")"%char ltac:(lia) ltac:(lia) (Htail 3 _ eq_refl)).
      vm_compute (kind ")") in Hc. change (0 =? 3) with false in Hc. cbv iota in Hc.
      replace (0 =? length t - 1) with false in Hc by (symmetry; apply Nat.eqb_neq; lia). done.
Qed.

(** Two call-shaped accepted overlap only when they coincide. *)
Lemma call_apart_call (w x y p t q : str) :
  call_shape w -> call_shape t ->
  x ++ w ++ y = p ++ t ++ q ->
  length p + length t <= length x \/ length x + length w <= length p \/ t = w.
Proof.
  intros Hw Ht E.
  destruct (call_shape_lookup t Ht) as [Hlt Hkt].
  destruct (call_shape_lookup w Hw) as [Hlw Hkw].
  destruct (decide (length p + length t <= length x)) as [?|Hov1]; [by left|].
  destruct (decide (length x + length w <= length p)) as [?|Hov2]; [by right; left|].
  right; right.
  assert (forall k k', k < length t -> k' < length w -> length p + k = length x + k' ->
            (if k =? 3 then 1 else if k =? length t - 1 then 2 else 0) =
            (if k' =? 3 then 1 else if k' =? length w - 1 then 2 else 0)) as Hc.
  { intros k k' Hk Hk' Hpos.
    destruct (lookup_lt_is_Some' t k Hk) as [c Hct].
    pose proof Hct as Hcw. rewrite (overlap_char x w y p t q k k' E) in Hcw by done.
    by rewrite <- (Hkt _ _ Hct), <- (Hkw _ _ Hcw). }
  destruct (decide (length x + length w = length p + length t)) as [He|He].
  - destruct (decide (length x = length p)) as [Hxp|Hxp].
    + assert (length w = length t) as Hwt by lia.
      apply (f_equal (drop (length x))) in E.
      rewrite drop_app_length in E. rewrite Hxp, drop_app_length in E.
      apply (f_equal (take (length w))) in E.
      rewrite take_app_length in E. rewrite Hwt, take_app_length in E. done.
    + exfalso. destruct (decide (length x < length p)) as [Hl|Hl].
      * specialize (Hc 3 (length p + 3 - length x) ltac:(lia) ltac:(lia) ltac:(lia)).
        simpl in Hc.
        replace (length p + 3 - length x =? 3) with false in Hc by (symmetry; apply Nat.eqb_neq; lia).
        replace (length p + 3 - length x =? length w - 1) with false in Hc by (symmetry; apply Nat.eqb_neq; lia).
        done.
      * specialize (Hc (length x + 3 - length p) 3 ltac:(lia) ltac:(lia) ltac:(lia)).
        simpl in Hc.
        replace (length x + 3 - length p =? 3) with false in Hc by (symmetry; apply Nat.eqb_neq; lia).
        replace (length x + 3 - length p =? length t - 1) with false in Hc by (symmetry; apply Nat.eqb_neq; lia).
        done.
  - exfalso. destruct (decide (length x + length w < length p + length t)) as [Hl|Hl].
    + specialize (Hc (length x + length w - 1 - length p) (length w - 1) ltac:(lia) ltac:(lia) ltac:(lia)).
      rewrite (Nat.eqb_refl (length w - 1)) in Hc.
      replace (length w - 1 =? 3) with false in Hc by (symmetry; apply Nat.eqb_neq; lia).
      replace (length x + length w - 1 - length p =? length t - 1) with false in Hc by (symmetry; apply Nat.eqb_neq; lia).
      by destruct (_ =? 3).
    + specialize (Hc (length t - 1) (length p + length t - 1 - length x) ltac:(lia) ltac:(lia) ltac:(lia)).
      rewrite (Nat.eqb_refl (length t - 1)) in Hc.
      replace (length t - 1 =? 3) with false in Hc by (symmetry; apply Nat.eqb_neq; lia).
      replace (length p + length t - 1 - length x =? length w - 1) with false in Hc by (symmetry; apply Nat.eqb_neq; lia).
      by destruct (_ =? 3).
Qed.



Lemma advance_0 st : advance st 0 = st.
Proof. by destruct st. Qed.

Lemma advance_cons pv x t cs n :
  advance {| prev := Some x; rest := t; caps := cs |} n =
  advance {| prev := pv; rest := x :: t; caps := cs |} (S n).
Proof.
  unfold advance; simpl. f_equal. unfold last_or.
  rewrite last_cons. by destruct (last (take n t)).
Qed.

Lemma advance_advance st a b :
  a <= length (rest st) -> advance (advance st a) b = advance st (a + b).
Proof.
  intros Ha. unfold advance; simpl. f_equal.
  - unfold last_or. rewrite <- (take_take_drop (rest st) a b).
    rewrite last_app. by destruct (last (take b (drop a (rest st)))).
  - by rewrite drop_drop.
Qed.

Lemma lit_prefix_length fl p s : lit_prefix fl p s = true -> length p <= length s.
Proof.
  revert s; induction p as [|c p IH]; intros [|x s]; simpl; try done; try lia.
  intros [_ H]%andb_true_iff. apply IH in H. lia.
Qed.

Lemma m_Lit fl p k st :
  m fl (Lit p) k st =
  if lit_prefix fl p (rest st) then k (advance st (length p)) else None.
Proof.
  revert st; induction p as [|c p IH]; intros st.
  - simpl. by rewrite advance_0.
  - simpl. unfold step. destruct st as [pv [|x t] cs]; simpl; [done|].
    destruct (chr_match fl c x); simpl; [|done].
    rewrite IH. simpl. by rewrite (advance_cons pv).
Qed.

Lemma match_len_Lit fl p pv s :
  match_len fl (Lit p) pv s = if lit_prefix fl p s then Some (length p) else None.
Proof.
  unfold match_len. rewrite m_Lit. simpl.
  destruct (lit_prefix fl p s) eqn:H; [|done]. simpl.
  apply lit_prefix_length in H. rewrite length_drop. f_equal. lia.
Qed.

Lemma lit_prefix_kinds fl p s :
  lit_prefix fl p s = true -> map kind (take (length p) s) = map kind p.
Proof.
  revert s; induction p as [|c p IH]; intros [|x s]; simpl; try done.
  intros [Hc H]%andb_true_iff. f_equal; [by apply chr_match_kind in Hc | by apply IH].
Qed.

Lemma lit_prefix_app fl p t y :
  lit_prefix fl p t = true -> lit_prefix fl p (t ++ y) = true.
Proof.
  revert t; induction p as [|c p IH]; intros [|x t]; simpl; try done.
  intros [Hc H]%andb_true_iff. by rewrite Hc, IH.
Qed.

Lemma lit_prefix_take fl p s :
  lit_prefix fl p s = true -> lit_prefix fl p (take (length p) s) = true.
Proof.
  revert s; induction p as [|c p IH]; intros [|x s]; simpl; try done.
  intros [Hc H]%andb_true_iff. by rewrite Hc, IH.
Qed.

Lemma star_cls_sound fl items k n st r :
  star_loop true (m fl (Cls items)) k n st = Some r ->
  exists j, j <= length (rest st)
    /\ forallb (cls_match fl items) (take j (rest st)) = true
    /\ k (advance st j) = Some r.
Proof.
  revert st; induction n as [|n IH]; intros st H; simpl in H.
  - exists 0. rewrite advance_0. split; [lia | split; done].
  - unfold step in H. destruct st as [pv [|x t] cs]; simpl in H.
    + exists 0. rewrite advance_0. split; [simpl; lia | split; done].
    + destruct (cls_match fl items x) eqn:Hx.
      * replace (length t <? S (length t)) with true in H by (symmetry; apply Nat.ltb_lt; lia).
        destruct (star_loop _ _ _ _ _) as [r'|] eqn:Hl.
        -- injection H as ->. apply IH in Hl as (j & Hj & Hall & Hk). simpl in *.
           exists (S j). simpl. rewrite Hx, Hall. split; [lia | split; [done|]].
           by rewrite <- (advance_cons pv).
        -- exists 0. rewrite advance_0. split; [simpl; lia | split; done].
      * exists 0. rewrite advance_0. split; [simpl; lia | split; done].
Qed.

Lemma lit_prefix_join fl a b s :
  lit_prefix fl a s = true -> lit_prefix fl b (drop (length a) s) = true ->
  lit_prefix fl (a ++ b) s = true.
Proof.
  revert s; induction a as [|c a IH]; intros s; simpl.
  - by rewrite drop_0.
  - destruct s as [|x s]; [done|]. simpl.
    intros [Hc H]%andb_true_iff Hb. by rewrite Hc, IH.
Qed.

Lemma take_plus_drop {A} (l : list A) (a b : nat) :
  take (a + b) l = take a l ++ take b (drop a l).
Proof. by rewrite take_take_drop. Qed.

(** The accepted matched by [literal, run of one class, literal]. *)
Lemma class_run_text fl a it c pv s n :
  match_len fl (Seq (Lit a) (Seq (Seq (Cls it) (Star true (Cls it))) (Lit c))) pv s = Some n ->
  exists j, 1 <= j /\ n = length a + j + length c /\ n <= length s
    /\ lit_prefix fl a s = true
    /\ forallb (cls_match fl it) (take j (drop (length a) s)) = true
    /\ lit_prefix fl c (drop (length a + j) s) = true.
Proof.
  unfold match_len. intros H.
  destruct (m fl _ Some _) as [st'|] eqn:Hm; [|done]. injection H as <-.
  change (m fl (Seq (Lit a) ?r) Some ?st) with (m fl (Lit a) (m fl r Some) st) in Hm.
  rewrite m_Lit in Hm. simpl rest in Hm.
  destruct (lit_prefix fl a s) eqn:Ha; [|done].
  pose proof (lit_prefix_length _ _ _ Ha) as Hla.
  change (m fl (Seq (Seq (Cls it) ?r1) ?r2) Some ?st)
    with (step (cls_match fl it) (m fl r1 (m fl r2 Some)) st) in Hm.
  unfold step in Hm. simpl rest in Hm.
  destruct (drop (length a) s) as [|x t] eqn:Hd; [done|].
  destruct (cls_match fl it x) eqn:Hx; [|done].
  change (m fl (Star true (Cls it)) ?k ?st)
    with (star_loop true (m fl (Cls it)) k (length (rest st)) st) in Hm.
  apply star_cls_sound in Hm as (j & Hj & Hall & Hk). simpl rest in *.
  rewrite m_Lit in Hk. simpl rest in Hk.
  destruct (lit_prefix fl c (drop j t)) eqn:Hc; [|done].
  pose proof (lit_prefix_length _ _ _ Hc) as Hlc. rewrite length_drop in Hlc.
  injection Hk as <-. simpl rest.
  assert (length s = length a + S (length t)) as Hls.
  { rewrite <- (take_drop (length a) s) at 1. rewrite length_app, Hd, length_take. simpl. lia. }
  exists (S j). rewrite !length_drop. repeat split; try lia; try done.
  - simpl. by rewrite Hx, Hall.
  - replace (length a + S j) with (length a + 1 + j) by lia.
    rewrite <- drop_drop, <- drop_drop, Hd. simpl. by rewrite drop_0.
Qed.

Lemma forallb_kinds (P : ascii -> bool) (l : str) :
  (forall x, P x = true -> kind x = 0) ->
  forallb P l = true -> map kind l = replicate (length l) 0.
Proof.
  intros HP. induction l as [|x l IH]; simpl; [done|].
  intros [Hx Hl]%andb_true_iff. by rewrite (HP _ Hx), IH.
Qed.

Lemma class_run_shape fl a it c pv s n ja jc :
  (forall x, cls_match fl it x = true -> kind x = 0) ->
  map kind a = [0; 0; 0; 1] ++ replicate ja 0 ->
  map kind c = replicate jc 0 ++ [2] ->
  match_len fl (Seq (Lit a) (Seq (Seq (Cls it) (Star true (Cls it))) (Lit c))) pv s = Some n ->
  0 < n /\ n <= length s /\ call_shape (take n s)
  /\ forall d c', c = d :: c' -> exists x, chr_match fl d x = true /\ In x (take n s).
Proof.
  intros Hit Hka Hkc H.
  apply class_run_text in H as (j & Hj & -> & Hn & Ha & Hall & Hc).
  split; [lia|]. split; [done|].
  pose proof (lit_prefix_length _ _ _ Ha) as Hla.
  pose proof (lit_prefix_length _ _ _ Hc) as Hlc. rewrite length_drop in Hlc.
  assert (take (length a + j + length c) s =
          take (length a) s ++ take j (drop (length a) s)
            ++ take (length c) (drop (length a + j) s)) as Ht.
  { rewrite <- Nat.add_assoc, take_plus_drop. f_equal.
    rewrite take_plus_drop. by rewrite drop_drop. }
  split.
  - exists (ja + j + jc - 1). rewrite Ht, !map_app.
    rewrite (lit_prefix_kinds _ _ _ Ha), (lit_prefix_kinds _ _ _ Hc), Hka, Hkc.
    rewrite (forallb_kinds _ _ Hit Hall). rewrite length_take, length_drop.
    replace (j `min` (length s - length a)) with j by lia.
    replace (S (ja + j + jc - 1)) with (ja + (j + jc)) by lia.
    rewrite !replicate_add. by rewrite <- !app_assoc.
  - intros d c' ->. simpl in Hc.
    destruct (drop (length a + j) s) as [|x t] eqn:Hd; [done|].
    apply andb_true_iff in Hc as [Hdx _]. exists x. split; [done|].
    rewrite Ht. apply in_or_app. right. apply in_or_app. right.
    try rewrite Hd. simpl. by left.
Qed.








Lemma zeros_then_close_spec l :
  zeros_then_close l = true -> exists j, l = replicate j 0 ++ [2].
Proof.
  induction l as [|[|[|[|n]]] l IH]; simpl; try done.
  - intros H. destruct (IH H) as [j ->]. by exists (S j).
  - destruct l; [|done]. intros _. by exists 0.
Qed.

Lemma call_shapeb_spec t : call_shapeb t = true -> call_shape t.
Proof.
  unfold call_shapeb, call_shape.
  destruct (map kind t) as [|[|?] [|[|?] [|[|?] [|[|[|?]] [|[|?] l]]]]]; try done.
  intros [j ->]%zeros_then_close_spec. by exists j.
Qed.


Lemma surface_formb_spec r : surface_formb r = true -> surface_form r.
Proof.
  unfold surface_formb. intros [[Hl He]%andb_true_iff Hall]%andb_true_iff.
  exists (take (length r - 4) r). split.
  - apply str_eqb_eq in He. rewrite <- He. by rewrite take_drop.
  - intros k Hk. apply list_elem_of_lookup_2 in Hk. apply list_elem_of_In in Hk.
    eapply forallb_forall in Hall; [|done]. by vm_compute in Hall.
Qed.


Lemma lit_pass_good pat repl :
  call_shapeb pat = true -> surface_formb repl = true -> pass_good (lit_pass pat repl).
Proof.
  intros Hp Hr. apply call_shapeb_spec in Hp. apply surface_formb_spec in Hr.
  destruct (call_shape_lookup _ Hp) as [Hlen _].
  split; [|split; [|done]].
  - intros pv s n H. simpl in H. rewrite match_len_Lit in H.
    destruct (lit_prefix icase pat s) eqn:Hl; [|done]. injection H as <-.
    apply lit_prefix_length in Hl. lia.
  - intros t (pv & s & n & H & ->). simpl in H. rewrite match_len_Lit in H.
    destruct (lit_prefix icase pat s) eqn:Hl; [|done]. injection H as <-.
    split.
    + destruct Hp as [j Hj]. exists j. by rewrite (lit_prefix_kinds _ _ _ Hl).
    + simpl. rewrite (lit_prefix_take _ _ _ Hl). rewrite length_take.
      apply lit_prefix_length in Hl.
      replace (length pat `min` length s =? length pat) with true
        by (symmetry; apply Nat.eqb_eq; lia). done.
Qed.


Lemma alias_pass_good a it c repl ja jc c' :
  forallb (fun x => implb (cls_match icase it x) (kind x =? 0)) all_chars = true ->
  map kind a = [0; 0; 0; 1] ++ replicate ja 0 ->
  map kind c = replicate jc 0 ++ [2] ->
  c = "."%char :: c' ->
  surface_formb repl = true ->
  pass_good (alias_pass (Seq (Lit a) (Seq (Seq (Cls it) (Star true (Cls it))) (Lit c))) repl).
Proof.
  intros Hit Hka Hkc Hc Hr. apply surface_formb_spec in Hr.
  assert (forall x, cls_match icase it x = true -> kind x = 0) as Hit'.
  { intros x Hx. pose proof (for_all_chars _ Hit x) as H. simpl in H.
    rewrite Hx in H. by apply Nat.eqb_eq. }
  split; [|split; [|done]].
  - intros pv s n H. simpl in H.
    by destruct (class_run_shape _ _ _ _ _ _ _ _ _ Hit' Hka Hkc H) as (? & ? & _).
  - intros t (pv & s & n & H & ->). simpl in H.
    destruct (class_run_shape _ _ _ _ _ _ _ _ _ Hit' Hka Hkc H) as (_ & _ & Hs & Hdot).
    split; [done|]. simpl.
    destruct (Hdot _ _ Hc) as (x & Hx & Hin). apply chr_match_dot in Hx as ->.
    assert (existsb (eqc ".") (take n s) = true) as ->; [|done].
    apply existsb_exists. exists "."%char. split; [done | by apply eqc_eq].
Qed.







Lemma fixes_as_passes (sql : str) :
  _fix_temperature_array_issue (_fix_array_aggregation sql) = fold_left run all_passes sql.
Proof.
  cbv [_fix_temperature_array_issue _fix_array_aggregation fix_column array_columns fold_left
       all_passes targets alias_passes run target_pass lit_pass alias_pass p_mt p_repl
       mbind list_bind mret list_ret foldr map app fst snd bare surface sub List.app].
  reflexivity.
Qed.

Lemma m_Lit_Lit fl a b r k st :
  m fl (Seq (Lit a) (Seq (Lit b) r)) k st = m fl (Seq (Lit (a ++ b)) r) k st.
Proof.
  change (m fl (Seq (Lit a) (Seq (Lit b) r)) k st)
    with (m fl (Lit a) (m fl (Lit b) (m fl r k)) st).
  change (m fl (Seq (Lit (a ++ b)) r) k st) with (m fl (Lit (a ++ b)) (m fl r k) st).
  rewrite !m_Lit.
  destruct (lit_prefix fl a (rest st)) eqn:Ha.
  - simpl rest.
    pose proof (lit_prefix_length _ _ _ Ha) as Hla.
    destruct (lit_prefix fl b (drop (length a) (rest st))) eqn:Hb.
    + rewrite (lit_prefix_join _ _ _ _ Ha Hb). rewrite advance_advance by done.
      by rewrite length_app.
    + destruct (lit_prefix fl (a ++ b) (rest st)) eqn:Hab; [|done].
      exfalso. clear -Ha Hb Hab. revert Ha Hb Hab. generalize (rest st).
      induction a as [|c a IH]; intros s; simpl.
      * rewrite drop_0. congruence.
      * destruct s as [|x s]; [done|]. simpl.
        intros [_ H1]%andb_true_iff H2 [_ H3]%andb_true_iff. eauto.
  - destruct (lit_prefix fl (a ++ b) (rest st)) eqn:Hab; [|done].
    exfalso. clear -Ha Hab. revert Ha Hab. generalize (rest st).
    induction a as [|c a IH]; intros s; simpl; [done|].
    destruct s as [|x s]; [done|]. simpl.
    destruct (chr_match fl c x); simpl; [eauto | done].
Qed.

Lemma alias_passes_good : Forall pass_good alias_passes.
Proof.
  assert (forall fn repl, map kind (L fn) = [0; 0; 0] -> surface_formb repl = true ->
            pass_good (alias_pass (t_alias fn) repl)) as Ht.
  { intros fn repl Hfn Hr.
    assert (forallb (fun x => implb (cls_match icase [CDigit] x) (kind x =? 0)) all_chars = true)
      as Hd by (by vm_compute).
    assert (map kind (L fn ++ L "(T") = [0; 0; 0; 1] ++ replicate 1 0) as Hk
      by (by rewrite map_app, Hfn).
    destruct (alias_pass_good (L fn ++ L "(T") [CDigit] (L ".temperature)") repl 1 12
                (L "temperature)") Hd Hk eq_refl eq_refl Hr) as (H1 & H2 & H3).
    split; [|split; [|done]].
    - intros pv s n Hm. apply (H1 pv s n). cbn [p_mt alias_pass] in *.
      unfold match_len in *. unfold t_alias in Hm. cbn [Seqs] in Hm. unfold lit in Hm.
      by rewrite m_Lit_Lit in Hm.
    - intros t (pv & s & n & Hm & ->). apply H2. exists pv, s, n. split; [|done].
      cbn [p_mt alias_pass] in *. unfold match_len in *.
      unfold t_alias in Hm. cbn [Seqs] in Hm. unfold lit in Hm.
      by rewrite m_Lit_Lit in Hm. }
  assert (pass_good (alias_pass avg_any_alias (L "AVG(temperature[1])"))) as Ha.
  { apply (alias_pass_good (L "AVG(") [CRng "a" "z"; CRng "A" "Z"; CChr "_"]
             (L ".temperature)") _ 0 12 (L "temperature)")); by vm_compute. }
  unfold alias_passes.
  apply Forall_cons_2; [apply Ht; by vm_compute|].
  apply Forall_cons_2; [exact Ha|].
  apply Forall_cons_2; [apply Ht; by vm_compute|].
  apply Forall_cons_2; [apply Ht; by vm_compute|].
  apply Forall_cons_2; [apply Ht; by vm_compute|].
  apply Forall_nil_2.
Qed.

Lemma target_passes_good : Forall pass_good (map target_pass targets).
Proof.
  apply Forall_map. 
  assert (forallb (fun T => call_shapeb (bare (lower (fst T)) (snd T))
                            && surface_formb (surface (fst T) (snd T))) targets = true) as H
    by (by vm_compute).
  apply Forall_forall. intros T HT. apply list_elem_of_In in HT.
  eapply forallb_forall in H; [|done]. apply andb_true_iff in H as [? ?].
  by apply lit_pass_good.
Qed.

Lemma all_passes_good : Forall pass_good all_passes.
Proof. apply Forall_app. split; [apply target_passes_good | apply alias_passes_good]. Qed.

(* ---------- what one pass does to a bare call and to a surface form ---------- *)
Section OnePass.
Variable P : pass.
Hypothesis good : pass_good P.

Lemma pass_sound pv s n :
  p_mt P pv s = Some n -> 0 < n /\ n <= length s /\ accepted P (take n s).
Proof.
  intros H. destruct good as (Hb & _ & _). destruct (Hb _ _ _ H).
  repeat split; try done. by exists pv, s, n.
Qed.

Lemma run_length_ok (s : str) : length s < S (length s).
Proof. lia. Qed.

Lemma pass_keeps_surface (r s : str) :
  surface_form r -> r <> [] -> occurs r s -> occurs r (run s P).
Proof.
  intros Hr Hne (x & y & ->). unfold run, sub_with.
  apply (sub_keeps _ _ (accepted P) pass_sound); [|done|lia].
  intros x' y' p t q Ht E. destruct good as (_ & Hs & _).
  destruct (Hs _ Ht) as [Hc _]. by apply (call_apart_surface r x' y' p t q).
Qed.

Lemma pass_keeps_bare (b s : str) :
  call_shape b -> p_rej P b = true -> occurs b s -> occurs b (run s P).
Proof.
  intros Hb Hrej (x & y & ->). unfold run, sub_with.
  apply (sub_keeps _ _ (accepted P) pass_sound); [| |lia].
  - intros x' y' p t q Ht E. destruct good as (_ & Hs & _).
    destruct (Hs _ Ht) as [Hc Hr].
    destruct (call_apart_call b x' y' p t q Hb Hc E) as [?|[?| ->]]; [by left | by right |].
    congruence.
  - intros ->. destruct (call_shape_lookup _ Hb) as [Hl _]. simpl in Hl. lia.
Qed.

Lemma pass_brings_no_bare (b s : str) :
  call_shape b -> ~ occurs b s -> ~ occurs b (run s P).
Proof.
  intros Hb Hno Hocc. apply Hno. unfold run, sub_with in Hocc.
  destruct good as (_ & _ & Hsf).
  apply (sub_absent _ _ (accepted P) pass_sound b (call_shape_closing _ Hb) Hsf) in Hocc
    as (u & v & _ & -> & _); [|lia].
  by exists u, v.
Qed.

End OnePass.

Lemma target_pass_rewrites (fn col s : str) :
  call_shapeb (bare (lower fn) col) = true ->
  surface_formb (surface fn col) = true ->
  lit_prefix icase (bare (lower fn) col) (bare fn col) = true ->
  call_shapeb (bare fn col) = true ->
  occurs (bare fn col) s ->
  occurs (surface fn col) (run s (target_pass (fn, col)))
  /\ ~ occurs (bare fn col) (run s (target_pass (fn, col))).
Proof.
  intros Hp Hr Hpre Hb Hocc.
  pose proof (lit_pass_good _ _ Hp Hr) as Hgood.
  assert (forall pv y, p_mt (target_pass (fn, col)) pv (bare fn col ++ y)
                       = Some (length (bare (lower fn) col))) as Hfire.
  { intros pv y. simpl. rewrite match_len_Lit. by rewrite (lit_prefix_app _ _ _ _ Hpre). }
  split.
  - destruct Hocc as (x & y & ->). unfold run, sub_with.
    apply (sub_fires _ _ (bare fn col)); [|lia].
    intros pv y'. eexists. apply Hfire.
  - intros Hbad. unfold run, sub_with in Hbad.
    destruct Hgood as (_ & _ & Hsf).
    apply (sub_absent _ _ (accepted (target_pass (fn, col)))
             (pass_sound _ (lit_pass_good _ _ Hp Hr)) (bare fn col)
             (call_shape_closing _ (call_shapeb_spec _ Hb)) Hsf) in Hbad
      as (u & v & pv' & _ & Hnone); [|lia].
    rewrite Hfire in Hnone. done.
Qed.


Lemma rejects_table_ok : rejects_table = true.
Proof. by vm_compute. Qed.

Lemma other_pass_rejects i j T P :
  targets !! i = Some T -> all_passes !! j = Some P -> i <> j ->
  p_rej P (bare (fst T) (snd T)) = true.
Proof.
  intros HT HP Hne. pose proof rejects_table_ok as H. unfold rejects_table in H.
  pose proof (lookup_lt_Some _ _ _ HT) as Hi. pose proof (lookup_lt_Some _ _ _ HP) as Hj.
  apply (proj1 (forallb_forall _ _)) with (x := i) in H; [|apply in_seq; lia].
  apply (proj1 (forallb_forall _ _)) with (x := j) in H; [|apply in_seq; lia].
  rewrite HT, HP in H. apply orb_true_iff in H as [H|H]; [|done].
  apply Nat.eqb_eq in H. done.
Qed.


Lemma targets_ok_true : targets_ok = true.
Proof. by vm_compute. Qed.

Lemma fold_keeps (Q : str -> Prop) (ps : list pass) :
  Forall (fun P => forall s, Q s -> Q (run s P)) ps ->
  forall s, Q s -> Q (fold_left run ps s).
Proof.
  induction 1 as [|P ps HP _ IH]; intros s Hs; simpl; [done|]. apply IH, HP, Hs.
Qed.

Lemma rewrite_target i fn col sql :
  targets !! i = Some (fn, col) ->
  occurs (bare fn col) sql ->
  occurs (surface fn col) (fold_left run all_passes sql)
  /\ ~ occurs (bare fn col) (fold_left run all_passes sql).
Proof.
  intros HT Hocc.
  assert (In (fn, col) targets) as Hin
    by (apply list_elem_of_In; by eapply list_elem_of_lookup_2).
  pose proof targets_ok_true as Hok. unfold targets_ok in Hok.
  eapply forallb_forall in Hok; [|exact Hin]. simpl in Hok.
  apply andb_true_iff in Hok as [[[Hp Hr]%andb_true_iff Hpre]%andb_true_iff Hb].
  assert (all_passes !! i = Some (target_pass (fn, col))) as Hi.
  { unfold all_passes. rewrite lookup_app_l.
    - by rewrite list_lookup_fmap, HT.
    - rewrite length_map. by eapply lookup_lt_Some. }
  pose proof (call_shapeb_spec _ Hb) as Hbs.
  pose proof (surface_formb_spec _ Hr) as Hrs.
  assert (surface fn col <> []) as Hne.
  { destruct Hrs as (r1 & -> & _). by destruct r1. }
  rewrite <- (take_drop_middle _ _ _ Hi). rewrite fold_left_app.
  change (fold_left run (?T :: ?l) ?s) with (fold_left run l (run s T)).
  set (s1 := fold_left run (take i all_passes) sql).
  assert (occurs (bare fn col) s1) as H1.
  { apply fold_keeps; [|done]. apply Forall_lookup. intros j P Hj s Hs.
    apply lookup_take_Some in Hj as [Hj Hlt].
    apply pass_keeps_bare; try done.
    - eapply Forall_lookup_1; [apply all_passes_good | done].
    - apply (other_pass_rejects i j (fn, col) P HT Hj). lia. }
  destruct (target_pass_rewrites fn col s1 Hp Hr Hpre Hb H1) as [H2 H3].
  apply (fold_keeps (fun s => occurs (surface fn col) s /\ ~ occurs (bare fn col) s));
    [|split; assumption].
  apply Forall_lookup. intros j P Hj s [Hs Hn].
  rewrite lookup_drop in Hj.
  assert (pass_good P) as Hg by (eapply Forall_lookup_1; [apply all_passes_good | eassumption]).
  split.
  - by apply pass_keeps_surface.
  - by apply pass_brings_no_bare.
Qed.

(** The two rewriting functions alone: when the text handed to them has
    an aggregate AVG, SUM, MIN or MAX called on one of the eight
    measurement-array columns, the rewritten text has the same aggregate
    on the first element of the column, and no longer has the call on
    the bare column. *)
Theorem fix_array_rewrites (fn col sql : str) :
  In fn aggregates -> In col array_columns ->
  contains (bare fn col) sql = true ->
  contains (surface fn col) (_fix_temperature_array_issue (_fix_array_aggregation sql)) = true
  /\ contains (bare fn col) (_fix_temperature_array_issue (_fix_array_aggregation sql)) = false.
Proof.
  intros Hfn Hcol Hc. rewrite fixes_as_passes.
  rewrite contains_occurs, contains_false_occurs. apply contains_occurs in Hc.
  assert ((fn, col) ∈ targets) as Hin.
  { unfold targets. apply list_elem_of_bind. exists col. split; [|by apply list_elem_of_In].
    apply list_elem_of_bind. exists fn. split; [apply list_elem_of_singleton; done | by apply list_elem_of_In]. }
  apply list_elem_of_lookup_1 in Hin as [i Hi].
  by apply (rewrite_target i).
Qed.

Lemma fix_array_rewrites_witness :
  contains (surface (L "AVG") (L "temperature"))
    (_fix_temperature_array_issue
       (_fix_array_aggregation (L "SELECT AVG(temperature) FROM argo_profiles"))) = true
  /\ contains (bare (L "AVG") (L "temperature"))
       (_fix_temperature_array_issue
          (_fix_array_aggregation (L "SELECT AVG(temperature) FROM argo_profiles"))) = false.
Proof.
  apply fix_array_rewrites; [left; reflexivity | left; reflexivity | reflexivity].
Defined.

End ArrayFix.

(* ================================================================== *)
(** * Every spelling of a bare aggregate is rewritten *)
(* ================================================================== *)

Module LlmPath.
Import PyStr Re Py SqlGen Shapes StrFacts Templates TemplateFacts TextFacts SqlSpec SqlChecks ArrayFix.

(** ** Any spelling of a bare call is rewritten *)

Lemma occurs_lower_inv (w s : str) :
  occurs w (lower s) -> exists b, lower b = w /\ occurs b s.
Proof.
  intros (x & y & E). unfold lower in E.
  apply fmap_app_inv in E as (x' & r & -> & E & ->). symmetry in E.
  apply fmap_app_inv in E as (b & y' & -> & -> & ->).
  exists b. split; [done | by exists x', y'].
Qed.

Lemma lower_char_idem (c : ascii) : lower_char (lower_char c) = lower_char c.
Proof.
  apply eqc_eq.
  apply (for_all_chars_eq (fun c => eqc (lower_char (lower_char c)) (lower_char c))).
  by vm_compute.
Qed.

Lemma lit_prefix_variant (pat b v : str) :
  lower b = lower pat -> lit_prefix icase pat (b ++ v) = true.
Proof.
  revert b. induction pat as [|c pat IH]; intros b E; [done|].
  destruct b as [|x b]; [done|]. injection E as Hc E.
  cbn [app lit_prefix]. rewrite (IH b E), andb_true_r.
  unfold chr_match. cbn [ic icase]. apply eqc_eq. done.
Qed.

Lemma variant_call_shape (b w : str) : lower b = w -> call_shape w -> call_shape b.
Proof.
  intros <- [j Hj]. exists j. rewrite <- Hj. unfold lower.
  rewrite <- list_fmap_compose. apply list_fmap_ext. intros _ c _. cbn.
  symmetry. apply kind_lower.
Qed.

Lemma lower_idem (s : str) : lower (lower s) = lower s.
Proof.
  unfold lower. rewrite <- list_fmap_compose. apply list_fmap_ext.
  intros _ c _. apply lower_char_idem.
Qed.

(** After its own pass no spelling of a bare call is left, and no later
    pass brings one. *)
Lemma no_variant_after_fixes (fn col b sql : str) :
  In (fn, col) targets -> lower b = bare (lower fn) col ->
  ~ occurs b (fold_left run all_passes sql).
Proof.
  intros Hin Hb.
  pose proof targets_ok_true as Hok. unfold targets_ok in Hok.
  eapply forallb_forall in Hok; [|exact Hin]. cbn [fst snd] in Hok.
  apply andb_true_iff in Hok as [[[Hp Hr]%andb_true_iff _]%andb_true_iff _].
  assert (call_shape b) as Hshape.
  { apply (variant_call_shape b _ Hb). by apply call_shapeb_spec. }
  assert (lower (bare (lower fn) col) = bare (lower fn) col) as Hlow.
  { rewrite <- Hb. apply lower_idem. }
  apply list_elem_of_In, list_elem_of_lookup_1 in Hin as [i HT].
  assert (all_passes !! i = Some (target_pass (fn, col))) as Hi.
  { unfold all_passes. rewrite lookup_app_l.
    - by rewrite list_lookup_fmap, HT.
    - rewrite length_map. by eapply lookup_lt_Some. }
  rewrite <- (take_drop_middle _ _ _ Hi). rewrite fold_left_app.
  change (fold_left run (?T :: ?l) ?s) with (fold_left run l (run s T)).
  generalize (fold_left run (take i all_passes) sql). intros s1.
  apply (fold_keeps (fun s => ~ occurs b s)).
  - apply Forall_lookup. intros j P Hj s Hs. rewrite lookup_drop in Hj.
    apply pass_brings_no_bare; [|done|done].
    eapply Forall_lookup_1; [apply all_passes_good | eassumption].
  - intros Hbad. unfold run, sub_with in Hbad.
    pose proof (lit_pass_good _ _ Hp Hr) as Hgood.
    destruct Hgood as (_ & _ & Hsf).
    apply (sub_absent _ _ (accepted (target_pass (fn, col)))
             (pass_sound _ (lit_pass_good _ _ Hp Hr)) b
             (call_shape_closing _ Hshape) Hsf) in Hbad
      as (u & v & pv' & _ & Hnone); [|lia].
    cbn [p_mt target_pass lit_pass fst snd] in Hnone.
    rewrite match_len_Lit in Hnone.
    rewrite lit_prefix_variant in Hnone; [done|]. by rewrite Hb, Hlow.
Qed.

Lemma bare_calls_targets :
  bare_calls = map (fun T => bare (lower (fst T)) (snd T)) targets.
Proof. reflexivity. Qed.

(** The two rewriting functions leave no bare call, in any spelling. *)
Lemma fixes_leave_no_bare (sql w : str) :
  In w bare_calls ->
  ~ occurs w (lower (_fix_temperature_array_issue (_fix_array_aggregation sql))).
Proof.
  rewrite bare_calls_targets. intros Hw Ho. apply in_map_iff in Hw as ([fn col] & <- & HT).
  cbn [fst snd] in Ho. apply occurs_lower_inv in Ho as (b & Hb & Ho).
  rewrite fixes_as_passes in Ho. by apply (no_variant_after_fixes fn col b sql HT Hb).
Qed.

End LlmPath.

(* ================================================================== *)
(** * The post-processing of the reply of the LLM *)
(* ================================================================== *)

Module PostProcess.
Import PyStr Re Py SqlGen Shapes StrFacts TemplateFacts ReplaceSpec ReplaceFacts ArrayFix PostSpec.

Lemma table_selection_cases (sql user_query : str) :
  _fix_table_selection sql user_query = sql
  \/ _fix_table_selection sql user_query
     = fold_left (fun s R => replace (fst R) (snd R) s) table_rewrites sql.
Proof.
  unfold _fix_table_selection. cbv zeta.
  destruct (_ && _); [right; reflexivity | by left].
Qed.

Lemma table_rewrites_ok_true : table_rewrites_ok = true.
Proof. by vm_compute. Qed.

Lemma table_selection_keeps (fn col sql user_query : str) :
  In (fn, col) targets ->
  (occurs (surface fn col) sql -> occurs (surface fn col) (_fix_table_selection sql user_query))
  /\ (~ occurs (bare fn col) sql -> ~ occurs (bare fn col) (_fix_table_selection sql user_query)).
Proof.
  intros HT. pose proof table_rewrites_ok_true as Hok. unfold table_rewrites_ok in Hok.
  apply (forallb_at _ _ _ Hok) in HT. cbv beta in HT. cbn [fst snd] in HT. clear Hok.
  assert (surface fn col <> []) as Hne.
  { unfold surface. destruct fn; [done | done]. }
  destruct (table_selection_cases sql user_query) as [-> | ->]; [done|].
  revert sql. induction table_rewrites as [|R l IH]; intros sql; [done|].
  cbn [forallb] in HT. apply andb_true_iff in HT as [HR HT].
  apply andb_true_iff in HR as [[HRne Hap]%andb_true_iff Hsafe].
  assert (fst R <> []) as HRne' by (by destruct (fst R)).
  cbn [fold_left]. destruct (IH HT (replace (fst R) (snd R) sql)) as [IH1 IH2].
  split; intros H.
  - apply IH1. by apply replace_keeps.
  - apply IH2. by apply replace_avoids_exact.
Qed.

Lemma in_targets (fn col : str) :
  In fn aggregates -> In col array_columns -> In (fn, col) targets.
Proof.
  intros Hfn Hcol. apply list_elem_of_In. unfold targets.
  apply list_elem_of_bind. exists col. split; [|by apply list_elem_of_In].
  apply list_elem_of_bind. exists fn.
  split; [apply list_elem_of_singleton; done | by apply list_elem_of_In].
Qed.

Lemma llm_statement `{PF : PyFloat} (llm : str -> res str) (user_query reply : str)
  (g : sqlgen) :
  llm (L "Generate SQL for: " ++ user_query) = Ret reply ->
  intelligent_llm llm user_query = Ret g ->
  sql_query g = postprocess user_query (_clean_sql_response reply).
Proof.
  unfold intelligent_llm. intros ->. cbn [mbind res_bind]. cbv zeta.
  fold (postprocess user_query (_clean_sql_response reply)).
  destruct (_validate_sql _); [|done]. by intros [= <-].
Qed.

(** C6: when the reply of the LLM, once cleaned of its code fences and
    comment lines, has an aggregate AVG, SUM, MIN or MAX called on one of
    the eight measurement-array columns, the post-processed text (the two
    rewritings of aggregates, then the rewriting of the table) has the
    same aggregate on the first element of the column and no longer has
    the call on the bare column; it is the statement the LLM path
    returns. *)
Theorem cleaned_aggregates_rewritten `{PF : PyFloat} (user_query reply fn col : str) :
  In fn aggregates -> In col array_columns ->
  contains (bare fn col) (_clean_sql_response reply) = true ->
  contains (surface fn col) (postprocess user_query (_clean_sql_response reply)) = true
  /\ contains (bare fn col) (postprocess user_query (_clean_sql_response reply)) = false
  /\ forall llm g,
       llm (L "Generate SQL for: " ++ user_query) = Ret reply ->
       intelligent_llm llm user_query = Ret g ->
       sql_query g = postprocess user_query (_clean_sql_response reply).
Proof.
  intros Hfn Hcol Hc. pose proof (in_targets fn col Hfn Hcol) as HT.
  split; [|split].
  - apply contains_occurs. unfold postprocess.
    apply (table_selection_keeps fn col _ user_query HT).
    rewrite fixes_as_passes.
    apply list_elem_of_In, list_elem_of_lookup_1 in HT as [i Hi].
    apply (rewrite_target i fn col _ Hi). by apply contains_occurs.
  - apply contains_false_occurs. unfold postprocess.
    apply (table_selection_keeps fn col _ user_query HT).
    rewrite fixes_as_passes.
    apply list_elem_of_In, list_elem_of_lookup_1 in HT as [i Hi].
    apply (rewrite_target i fn col _ Hi). by apply contains_occurs.
  - intros llm g. apply llm_statement.
Qed.

End PostProcess.

(* ================================================================== *)
(** * Every generated statement passes the checks *)
(* ================================================================== *)

Module Generated.
Import PyStr Re Py SqlGen Shapes StrFacts Templates TextSpec TemplateFacts TextFacts
  SqlSpec SqlChecks ReplaceSpec ReplaceFacts PostSpec PostProcess LlmPath RecordSpec
  DirectChecks.

Section Generated.
Context {PF : PyFloat}.
Hypothesis lawful : repr_lawful PF.
Variable llm : str -> res str.

Lemma some_ret_inj {A : Type} (a g : A) : Some (Ret a) = Some (Ret g) -> a = g.
Proof. by intros [= ->]. Qed.

Lemma operating_duration_checked (q : str) (g : sqlgen) :
  operating_duration q = Some (Ret g) -> checked g.
Proof.
  unfold operating_duration. cbv zeta.
  destruct (any_in operating_phrases (lower q)); [|done].
  destruct (search plain years_pattern (lower q)) as [years_match|]; [|done].
  destruct (fofZ _) as [y|]; [|done]. intros <-%some_ret_inj.
  unfold checked, method_of. cbn [sql_query generation_method default].
  apply operating_duration_sql_checked; [|apply lawful].
  destruct (_ || _); [done|]. destruct (_ || _); done.
Qed.

Lemma year_count_checked (q : str) (g : sqlgen) :
  year_count q = Some (Ret g) -> checked g.
Proof.
  unfold year_count. destruct (_ && _); [|done].
  destruct (finditer plain year_pattern q) as [|x years]; [done|].
  intros <-%some_ret_inj. unfold checked, method_of. cbn [sql_query generation_method default].
  apply year_count_sql_checked.
  exact (years_list_chars (map (fun x => Z_of_digits (group_or_empty 1 x)) (x :: years))).
Qed.

Lemma nearest_floats_checked (q : str) (g : sqlgen) :
  nearest_floats q = Some (Ret g) -> checked g.
Proof.
  unfold nearest_floats. cbv zeta. destruct (_ && _); [|done].
  destruct (search icase coord_pattern q) as [coord_match|]; [|done].
  destruct (float_of_group (group_or_empty 1 coord_match)) as [lat_val|]; [|done].
  cbn [mbind res_bind].
  destruct (float_of_group (group_or_empty 3 coord_match)) as [lon_val|]; [|done].
  cbn [mbind res_bind]. intros <-%some_ret_inj.
  unfold checked, method_of. cbn [sql_query generation_method default].
  apply nearest_floats_sql_checked; apply lawful.
Qed.

Lemma year_comparison_checked (q : str) (g : sqlgen) :
  year_comparison q = Some (Ret g) -> checked g.
Proof.
  unfold year_comparison. cbv zeta.
  destruct (sorted_set _) as [|y0 [|y1 more]]; [done | done |].
  destruct (any_in [L "compare"; L "versus"; L "vs"; L "compare between"] (lower q));
    [|done].
  intros <-%some_ret_inj.
  unfold checked, method_of. cbn [sql_query generation_method default].
  destruct (any_in [L "equator"; L "equatorial"; L "near the equator"] (lower q)).
  - cbv iota. apply year_comparison_equatorial_sql_checked; apply str_of_Z_chars.
  - cbv iota. apply year_comparison_plain_sql_checked; apply str_of_Z_chars.
Qed.

Lemma geographic_checked (q : str) (g : sqlgen) :
  geographic q = Some (Ret g) -> checked g.
Proof.
  unfold geographic. cbv zeta.
  destruct (first_match coordinate_patterns q) as [coord_match|]; [|done].
  destruct (float_of_group (group_or_empty 1 coord_match)) as [lat_val|]; [|done].
  cbn [mbind res_bind].
  destruct (float_of_group (group_or_empty 3 coord_match)) as [lon_val|]; [|done].
  cbn [mbind res_bind]. intros <-%some_ret_inj.
  unfold checked, method_of. cbn [sql_query generation_method default].
  apply geographic_sql_checked; apply lawful.
Qed.

Lemma direct_checked (q : str) (g : sqlgen) :
  first_shape direct_shapes q = Some (Ret g) -> checked g.
Proof.
  unfold direct_shapes. cbn [first_shape].
  destruct (operating_duration q) as [r|] eqn:H1.
  { intros [= ->]. by apply (operating_duration_checked q). }
  destruct (year_count q) as [r|] eqn:H2.
  { intros [= ->]. by apply (year_count_checked q). }
  destruct (nearest_floats q) as [r|] eqn:H3.
  { intros [= ->]. by apply (nearest_floats_checked q). }
  destruct (year_comparison q) as [r|] eqn:H4.
  { intros [= ->]. by apply (year_comparison_checked q). }
  destruct (geographic q) as [r|] eqn:H5; [|done].
  intros [= ->]. by apply (geographic_checked q).
Qed.

(** ** The LLM path *)

Lemma table_rewrites_safe_true : table_rewrites_safe = true.
Proof. by vm_compute. Qed.

Lemma table_selection_brings_no_bare (w sql user_query : str) :
  In w bare_calls -> ~ occurs w (lower sql) ->
  ~ occurs w (lower (_fix_table_selection sql user_query)).
Proof.
  intros Hw. pose proof table_rewrites_safe_true as Hok. unfold table_rewrites_safe in Hok.
  apply (forallb_at _ _ _ Hok) in Hw. cbv beta in Hw. clear Hok.
  destruct (table_selection_cases sql user_query) as [-> | ->]; [done|].
  revert sql. induction table_rewrites as [|R l IH]; intros sql; [done|].
  cbn [forallb] in Hw. apply andb_true_iff in Hw as [HR Hw].
  apply andb_true_iff in HR as [HRne Hsafe].
  assert (fst R <> []) as HRne' by (by destruct (fst R)).
  cbn [fold_left]. intros H. apply (IH Hw). by apply replace_avoids.
Qed.

Lemma validated_checked (s : str) :
  _validate_sql s = true ->
  (forall w, In w bare_calls -> ~ occurs w (lower s)) ->
  sql_checks (L "intelligent_llm") s = true.
Proof.
  unfold _validate_sql, sql_checks. cbv zeta. intros Hv Hb.
  change (first_word (L "intelligent_llm")) with (L "select").
  change valid_tables with [L "argo_profiles"; L "argo_floats"].
  change dangerous_words with
    [L "drop"; L "delete"; L "insert"; L "update"; L "alter"; L "create"].
  destruct (starts_with (L "select") (strip (lower s))); [|done].
  destruct (contains (L "from") (lower s)); [|done].
  destruct (any_in [L "argo_profiles"; L "argo_floats"] (lower s)); [|done].
  destruct (any_in _ (lower s)); [done|].
  by rewrite (any_in_false _ _ Hb).
Qed.

Lemma intelligent_llm_checked (q : str) (g : sqlgen) :
  intelligent_llm llm q = Ret g -> checked g.
Proof.
  unfold intelligent_llm. destruct (llm _) as [reply|]; [|done].
  cbn [mbind res_bind]. cbv zeta.
  destruct (_validate_sql _) eqn:Hv; [|done]. intros [= <-].
  unfold checked, method_of. cbn [sql_query generation_method default].
  apply validated_checked; [done|].
  intros w Hw. apply table_selection_brings_no_bare; [done|].
  by apply fixes_leave_no_bare.
Qed.

Lemma fallback_checked (q e : str) : checked (fallback q e).
Proof.
  unfold fallback. cbv zeta. destruct (_ || _); by vm_compute.
Qed.

(** Every statement the generator returns passes the checks. *)
Lemma generated_checked (q : str) : checked (generate_sql_from_query llm q).
Proof.
  unfold generate_sql_from_query, generate_body.
  destruct (first_shape direct_shapes q) as [[g|e]|] eqn:Hd; cbn [snd try_except].
  - by apply (direct_checked q).
  - apply fallback_checked.
  - destruct (intelligent_llm llm q) as [g|e] eqn:Hl; cbn [try_except].
    + by apply (intelligent_llm_checked q).
    + apply fallback_checked.
Qed.

End Generated.
End Generated.

(* ================================================================== *)
(** * The fusion of the two classifications *)
(* ================================================================== *)

Module Fusion.
Import PyStr Re Py PyVal Classifier DictFacts StrFacts FusionSpec.

Section Fusion.
Context {PF : PyFloat}.
Variable QT : QueryTypes.

Lemma has_key_get (k : str) (d : dict) :
  has_key k d = true <-> is_Some (get k d).
Proof. unfold has_key. apply bool_decide_eq_true. Qed.

Lemma merge_lookup (items ents0 : dict) (k : str) :
  get k (merge_entities ents0 items) = merged ents0 items k.
Proof.
  unfold merge_entities, merged. revert ents0.
  induction items as [|[k' v'] items IH]; intros ents0; cbn [fold_left fst snd].
  - unfold llm_pick. cbn. by destruct (get k ents0).
  - rewrite IH. unfold llm_pick. cbn [find fst snd].
    destruct (decide (k' = k)) as [->|Hne].
    + rewrite str_eqb_refl. cbn [andb].
      destruct (has_key k ents0) eqn:Hk; cbn [negb andb].
      * apply has_key_get in Hk as [v Hv]. by rewrite Hv.
      * assert (get k ents0 = None) as Hn.
        { destruct (get k ents0) eqn:G; [|done].
          assert (has_key k ents0 = true) by (apply has_key_get; by rewrite G). congruence. }
        destruct (truthy v'); [by rewrite get_set_eq, Hn | by rewrite Hn].
    + rewrite (str_eqb_false k' k Hne). cbn [andb].
      destruct (negb (has_key k' ents0) && truthy v'); [by rewrite get_set_ne | done].
Qed.

Lemma get_filter_in (P : str * pyval -> bool) (l : dict) (k : str) (v : pyval) :
  get k (filter (fun kv => P kv = true) l) = Some v -> In (k, v) l.
Proof.
  induction l as [|[k' v'] l IH]; [done|].
  rewrite filter_cons. destruct (decide (P (k', v') = true)); cbn [get].
  - destruct (str_eqb k' k) eqn:Ek.
    + apply str_eqb_eq in Ek as ->. intros [= ->]. by left.
    + intros H. right. by apply IH.
  - intros H. right. by apply IH.
Qed.

(** What the rule-based extraction returns are lists. *)
Lemma extract_entities_lists (q : str) (ents0 : dict) (k : str) (v : pyval) :
  _extract_entities q = Ret ents0 -> get k ents0 = Some v -> exists l, v = PList l.
Proof.
  unfold _extract_entities.
  destruct (floats_of _) as [nv|]; [|done]. cbn [mbind res_bind].
  intros [= <-] H. apply (get_filter_in (fun kv => truthy (snd kv))) in H.
  cbn [In] in H.
  repeat (destruct H as [[= <- <-]|H]; [by eexists|]). done.
Qed.

(** C7 (as amended): in the fusion step, when the two types agree the
    result has that type and the larger confidence, when they differ it
    has the LLM's type and the smaller of 0.7 and the LLM's confidence;
    the entities are the rule's, and, only under the keys the rule has
    not, the LLM's values that count as true. *)
Theorem fusion_step (rule_result llm_d : dict) (q : str) (x y : F)
  (rule_type llm_type : str) (ents0 items : dict) :
  get (L "query_type") rule_result = Some (PStr rule_type) ->
  get (L "confidence") rule_result = Some (PFloat x) ->
  get_or (L "query_type") (PStr (VECTOR_RETRIEVAL QT)) llm_d = PStr llm_type ->
  get_or (L "confidence") (PFloat (flit 5 1)) llm_d = PFloat y ->
  get_or (L "extracted_entities") (PDict []) llm_d = PDict items ->
  _extract_entities q = Ret ents0 ->
  (forall v, llm_pick (L "parameters") items = Some v -> is_Some (py_len v)) ->
  exists d ents,
    _combine_classifications QT rule_result (PDict llm_d) q = Ret d
    /\ (rule_type = llm_type ->
        get (L "query_type") d = Some (PStr rule_type)
        /\ get (L "confidence") d = Some (PFloat (fmax x y)))
    /\ (rule_type <> llm_type ->
        get (L "query_type") d = Some (PStr llm_type)
        /\ get (L "confidence") d = Some (PFloat (fmin (flit 7 1) y)))
    /\ get (L "extracted_entities") d = Some (PDict ents)
    /\ forall k, get k ents = merged ents0 items k.
Proof.
  intros Hrt Hrc Hlt Hlc Hle Hex Hlen.
  unfold _combine_classifications. rewrite Hex. cbn [mbind res_bind val_get].
  rewrite Hle. cbn [val_items]. rewrite Hlt, Hlc.
  assert (get_or (L "query_type") PNone rule_result = PStr rule_type) as ->
    by (unfold get_or; by rewrite Hrt).
  cbn [py_eqb].
  unfold rule_confidence. rewrite Hrc.
  set (ents := merge_entities ents0 items).
  assert (exists n, py_len (get_or (L "parameters") (PList []) ents) = Some n) as [n Hn].
  { unfold get_or, ents. rewrite merge_lookup. unfold merged.
    destruct (get (L "parameters") ents0) as [v|] eqn:G.
    - destruct (extract_entities_lists _ _ _ _ Hex G) as [l ->]. by eexists.
    - destruct (llm_pick (L "parameters") items) as [v|] eqn:P; [|by eexists].
      destruct (Hlen v eq_refl) as [n Hn]. by exists n. }
  assert (forall t, exists s,
            _generate_preprocessing_suggestions QT ents (PStr t) = Ret s) as Hs.
  { intros t. unfold _generate_preprocessing_suggestions. rewrite Hn.
    repeat (match goal with |- context [py_eqb ?a ?b] => destruct (py_eqb a b) end;
            [by eexists|]).
    by eexists. }
  destruct (str_eqb rule_type llm_type) eqn:Et.
  - apply str_eqb_eq in Et. subst llm_type.
    destruct (Hs rule_type) as [s Hsug]. unfold ents in Hsug.
    unfold val_max, val_cmp_float. cbn [as_float mbind res_bind fst snd].
    rewrite Hsug. cbn [mbind res_bind].
    eexists _, ents. split; [reflexivity|].
    split; [|split; [done|split; [reflexivity | intros k; apply merge_lookup]]].
    intros _. split; [reflexivity|]. cbn [get str_eqb eqc Ascii.eqb Bool.eqb].
    unfold fmax. by destruct (fltb x y).
  - destruct (Hs llm_type) as [s Hsug]. unfold ents in Hsug.
    unfold val_min, val_cmp_float. cbn [as_float mbind res_bind fst snd].
    rewrite Hsug. cbn [mbind res_bind].
    eexists _, ents. split; [reflexivity|].
    split; [intros ->; by rewrite str_eqb_refl in Et|].
    split; [|split; [reflexivity | intros k; apply merge_lookup]].
    intros _. split; [reflexivity|]. cbn [get str_eqb eqc Ascii.eqb Bool.eqb].
    unfold fmin. by destruct (fltb y (flit 7 1)).
Qed.

End Fusion.
End Fusion.

(* ================================================================== *)
(** * The geographic filter over search hits *)
(* ================================================================== *)

Module GeoFilter.
Import PyStr Re Py PyVal Rag DictFacts StrFacts GeoSpec.

Section GeoFilter.
Context {PF : PyFloat}.

Lemma filter_loop_in (r : region) (bare : verdict) (hits out : list dict) :
  filter_loop r bare hits = Ret out ->
  forall hit, In hit out <-> In hit hits /\ judge r bare hit = Keep.
Proof.
  revert out. induction hits as [|h hits IH]; intros out; cbn [filter_loop].
  - intros [= <-] hit. cbn. tauto.
  - destruct (judge r bare h) eqn:J; [| |done].
    + destruct (filter_loop r bare hits) as [l|]; [|done]. cbn [mbind res_bind].
      intros [= <-] hit. cbn [In]. rewrite (IH l eq_refl hit).
      split; [intros [<-|[? ?]]; auto | intros [[<-|?] ?]; auto].
    + intros H hit. rewrite (IH out H hit). cbn [In].
      split; [intros [? ?]; auto | intros [[<-|?] ?]; [congruence | auto]].
Qed.

Lemma filter_loop_ok (r : region) (bare : verdict) (hits out : list dict) :
  filter_loop r bare hits = Ret out ->
  forall hit, In hit hits -> forall e, judge r bare hit <> Fails e.
Proof.
  revert out. induction hits as [|h hits IH]; intros out; cbn [filter_loop]; [done|].
  destruct (judge r bare h) eqn:J; [| |done].
  - destruct (filter_loop r bare hits) as [l|]; [|done]. cbn [mbind res_bind].
    intros _ hit [<-|Hin] e; [congruence | by apply (IH l)].
  - intros H hit [<-|Hin] e; [congruence | by apply (IH out)].
Qed.

Lemma judge_bare (r : region) (bare : verdict) (hit : dict) :
  is_Some (metadata_of hit) -> bare_hit hit -> judge r bare hit = bare.
Proof.
  unfold bare_hit, coordinate, metadata_of, judge. intros [md Hmd].
  destruct (get_or (L "metadata") (PDict []) hit); try done.
  intros [-> | ->]; [done|]. by destruct (get_or (L "latitude") PNone d).
Qed.

Lemma judge_unparseable (r : region) (bare : verdict) (hit : dict) :
  unparseable_hit hit -> judge r bare hit = Keep.
Proof.
  unfold unparseable_hit, unparseable, coordinate, metadata_of, judge.
  destruct (get_or (L "metadata") (PDict []) hit); try (intros [? _]; done).
  intros (Hla & Hlo & H).
  destruct (get_or (L "latitude") PNone d) eqn:Ela; [done|..];
    (destruct (get_or (L "longitude") PNone d) eqn:Elo; [done|..]);
    (destruct H as [[? [-> | ->]] | [[? ->] [? [-> | ->]]]]; reflexivity).
Qed.

Lemma judge_skip (r : region) (hit : dict) :
  judge r Keep hit = Skip -> outside r hit.
Proof.
  unfold outside, coordinate, metadata_of, judge.
  destruct (get_or (L "metadata") (PDict []) hit); try done.
  destruct (get_or (L "latitude") PNone d) eqn:Ela; [done|..];
    (destruct (get_or (L "longitude") PNone d) eqn:Elo; [done|..]);
    (destruct (to_float _) as [lat| | |] eqn:Tla; try done);
    (destruct (to_float _) as [lon| | |] eqn:Tlo in |- *; try done);
    (destruct (within r lat lon) eqn:W; [done|]);
    intros _; by exists lat, lon.
Qed.

(** C10: when the query names a region, the filter first keeps every
    hit that has no latitude or no longitude or whose coordinates do not
    parse, and drops only hits whose coordinates parse and lie outside
    the region's rectangle; the result is that list unless it is empty,
    so the broader search runs only when every hit had coordinates that
    parse and lie outside. *)
Theorem geographic_filter_retention (q : str) (r : region) (hits out : list dict) :
  matching_region (lower q) = Some r ->
  _filter_by_geographic_region q hits = Ret out ->
  exists strict,
    filter_loop r Keep hits = Ret strict
    /\ (forall hit, In hit hits -> bare_hit hit \/ unparseable_hit hit ->
          In hit strict /\ In hit out)
    /\ (forall hit, In hit hits -> ~ In hit strict -> outside r hit)
    /\ (strict <> [] -> out = strict)
    /\ (strict = [] -> forall hit, In hit hits -> outside r hit).
Proof.
  intros Hr. unfold _filter_by_geographic_region. rewrite Hr.
  destruct (filter_loop r Keep hits) as [strict|] eqn:Hs; [|done].
  cbn [mbind res_bind]. intros Hout. exists strict. split; [done|].
  pose proof (filter_loop_in _ _ _ _ Hs) as Hin.
  pose proof (filter_loop_ok _ _ _ _ Hs) as Hok.
  assert (forall hit, In hit hits -> ~ In hit strict -> outside r hit) as Hdrop.
  { intros hit Hh Hn. apply judge_skip.
    destruct (judge r Keep hit) eqn:J; [|done|by destruct (Hok hit Hh e)].
    destruct Hn. apply Hin. done. }
  assert (forall hit, In hit hits -> bare_hit hit \/ unparseable_hit hit ->
            In hit strict) as Hkeep.
  { intros hit Hh Hc. apply Hin. split; [done|].
    destruct Hc as [Hb|Hu]; [|by apply judge_unparseable].
    apply judge_bare; [|done].
    unfold metadata_of. specialize (Hok hit Hh). unfold judge in Hok.
    destruct (get_or (L "metadata") (PDict []) hit); try by eexists.
    all: by destruct (Hok _ eq_refl). }
  assert (strict <> [] -> out = strict) as Hsame.
  { intros Hne. destruct strict; [done|]. by injection Hout as <-. }
  split; [|split; [done|split; [done|]]].
  - intros hit Hh Hc. pose proof (Hkeep hit Hh Hc) as Hk. split; [done|].
    rewrite Hsame; [done|]. by destruct strict.
  - intros -> hit Hh. apply Hdrop; [done|]. by intros [].
Qed.

End GeoFilter.
End GeoFilter.

(* ================================================================== *)
(** * The direct shapes of the SQL generator *)
(* ================================================================== *)

Module Synth.
Import PyStr Re Py SqlGen DictFacts StrFacts Shapes SynthSpec.

Lemma contains_app_l (w a b : str) : contains w a = true -> contains w (a ++ b) = true.
Proof.
  rewrite !contains_occurs. intros (x & y & ->). exists x, (y ++ b).
  by rewrite <- !app_assoc.
Qed.

Lemma contains_app_r (w a b : str) : contains w b = true -> contains w (a ++ b) = true.
Proof.
  rewrite !contains_occurs. intros (x & y & ->). exists (a ++ x), y.
  by rewrite <- !app_assoc.
Qed.

(** Find a literal piece of a template that holds the word. *)
Ltac in_template :=
  first [ apply contains_app_l; vm_compute; reflexivity
        | apply contains_app_r; in_template
        | vm_compute; reflexivity ].

Section Synth.
Context {PF : PyFloat}.
Variable llm : str -> res str.

Lemma nearest_sql_clauses (latitude longitude : str) :
  forallb (fun w => contains w (nearest_floats_sql latitude longitude)) nearest_clauses
  = true.
Proof.
  apply forallb_forall. unfold nearest_clauses.
  intros w [<-|[<-|[<-|[<-|[<-|[<-|[]]]]]]]; unfold nearest_floats_sql; in_template.
Qed.

(** C4 (as amended): a query with one of the words nearest, closest,
    near and one of the degree sign, degrees, north, south, east, west
    in its lowercase text, in which the coordinate pattern is found and
    which neither of the two earlier shapes takes, gets the
    nearest-floats statement for the signed coordinates without a call
    to the LLM: the distance is 6371 * acos(...), kept to 500 at most,
    grouped by float and position, ordered by distance, limited to 10,
    and the method is nearest_floats_direct. *)
Theorem nearest_floats_direct (q : str) (x : rmatch) (lat lon : F) :
  any_in nearest_words (lower q) = true ->
  any_in degree_words (lower q) = true ->
  search icase coord_pattern q = Some x ->
  fparse (group_or_empty 1 x) = Some lat ->
  fparse (group_or_empty 3 x) = Some lon ->
  operating_duration q = None ->
  year_count q = None ->
  let g := generate_sql_from_query llm q in
  generation_method g = Some (L "nearest_floats_direct")
  /\ llm_prompts llm q = []
  /\ sql_query g
     = nearest_floats_sql (frepr (signed "N" (group_or_empty 2 x) lat))
         (frepr (signed "E" (group_or_empty 4 x) lon))
  /\ forallb (fun w => contains w (sql_query g)) nearest_clauses = true.
Proof.
  intros Hn Hd Hs Hla Hlo Ho Hy g.
  assert (generate_body llm q
          = ([], Ret {| sql_query :=
                          nearest_floats_sql
                            (frepr (signed "N" (group_or_empty 2 x) lat))
                            (frepr (signed "E" (group_or_empty 4 x) lon));
                        explanation :=
                          L "Found nearest ARGO floats to coordinates "
                            ++ frepr (signed "N" (group_or_empty 2 x) lat)
                            ++ [deg] ++ L "N, "
                            ++ frepr (signed "E" (group_or_empty 4 x) lon) ++ [deg]
                            ++ L "E using distance calculation";
                        estimated_results := L "Up to 10 closest floats within 500km";
                        parameters_used := [L "latitude"; L "longitude"];
                        generation_method := Some (L "nearest_floats_direct");
                        error := None |})) as Hb.
  { unfold generate_body, direct_shapes. cbn [first_shape]. rewrite Ho, Hy.
    unfold nearest_floats. fold nearest_words degree_words. rewrite Hn, Hd, Hs.
    cbn [andb]. unfold float_of_group. rewrite Hla, Hlo. reflexivity. }
  subst g. unfold generate_sql_from_query, llm_prompts. rewrite Hb.
  cbn [snd fst try_except sql_query generation_method].
  split; [done|]. split; [done|]. split; [done|]. apply nearest_sql_clauses.
Qed.

End Synth.

(** C4 as stated fails: this query has the word nearest and a pair of
    coordinates, and gets the geographic rectangle. *)
Lemma nearest_without_degree_word :
  any_in nearest_words (lower plain_nearest_query) = true
  /\ is_Some (search icase coord_pattern plain_nearest_query)
  /\ generation_method
       (generate_sql_from_query (PF := Dec.dec_float) no_llm plain_nearest_query)
     = Some (L "geographic_direct").
Proof.
  split; [reflexivity|]. split; [eexists; vm_compute; reflexivity|]. by vm_compute.
Qed.

(** C5, at a query with lower-case hemisphere letters: 20 north and 70
    east come out as the rectangle around 20 south and 70 west. *)
Theorem geographic_lowercase_hemisphere (llm : str -> res str) :
  let g := generate_sql_from_query (PF := Dec.dec_float) llm lowercase_query in
  generation_method g = Some (L "geographic_direct")
  /\ contains
       (L "latitude BETWEEN -21.0 AND -19.0")
       (sql_query g) = true
  /\ contains (L "longitude BETWEEN -71.0 AND -69.0") (sql_query g) = true
  /\ contains (L "ORDER BY profile_date DESC") (sql_query g) = true.
Proof. by vm_compute. Qed.

End Synth.

(* ================================================================== *)
(** * The orchestrator *)
(* ================================================================== *)

Module Orchestrator.
Import PyStr Re Py PyVal Rag DictFacts PipeSpec.

Section Orchestrator.
Context {PF : PyFloat}.
Variable QT : Classifier.QueryTypes.
Variable E : env.
Variable yc : str -> list dict -> res pyval.

(** C2: [process_query] always returns a result: the one its body
    returns, or, when the body raises [e], the error response, which
    says failure, holds [e] in its text, and has both result lists
    empty. *)
Theorem process_query_never_raises (self : pipeline) (q : str) (m : option Z) :
  let r := snd (process_query QT E yc self q m) in
  snd (process_body QT E yc self q m) = Ret r
  \/ exists e,
       snd (process_body QT E yc self q m) = Raise e
       /\ get (L "success") r = Some (PBool false)
       /\ (exists t, get (L "response") r = Some (PStr t) /\ contains e t = true)
       /\ (exists rd, get (L "retrieved_data") r = Some (PDict rd)
                      /\ get (L "sql_results") rd = Some (PList [])
                      /\ get (L "vector_results") rd = Some (PList [])).
Proof.
  unfold process_query. destruct (process_body QT E yc self q m) as [s [d|e]].
  - left. reflexivity.
  - right. exists e. cbn [snd try_except].
    split; [reflexivity|]. split; [reflexivity|]. split.
    + eexists. split; [reflexivity|].
      apply (contains_middle
               (L "I encountered an error while processing your query: ") e
               (L ". Please try rephrasing your question.")).
    + eexists. split; [reflexivity|]. split; reflexivity.
Qed.

(** ** What the retrievals return *)

Lemma vector_retrieval_listy (q : str) (entities : pyval) (n : Z) :
  listy (_vector_retrieval E q entities n).
Proof.
  unfold _vector_retrieval.
  match goal with |- listy (try_except ?b ?h) => destruct b as [d|e] eqn:Hb end.
  - revert Hb.
    destruct (semantic_search E q n) as [v1|]; [|done]; cbn [mbind res_bind].
    destruct (_filter_by_geographic_region q v1) as [v2|]; [|done]; cbn [mbind res_bind].
    destruct (additional entities (L "parameters") (search_by_parameter E)) as [v3|];
      [|done]; cbn [mbind res_bind].
    destruct (additional entities (L "regions") (search_by_region E)) as [v4|];
      [|done]; cbn [mbind res_bind].
    destruct (deduplicate n [] [] (v2 ++ v3 ++ v4)) as [v5|]; [|done]; cbn [mbind res_bind].
    intros [= <-]. by eexists _, _.
  - by eexists _, _.
Qed.

Lemma sql_retrieval_listy (self : pipeline) (q : str) (entities : pyval) (n : Z) :
  listy (snd (_sql_retrieval E self q entities n)).
Proof.
  unfold _sql_retrieval.
  match goal with |- listy (snd (match ?a with _ => _ end)) => destruct a as [[s d]|e] eqn:Ha end.
  - revert Ha. destruct (str_eqb _ []); [done|].
    destruct (execute_query E _) as [rows|]; [|done]. cbn [mbind res_bind].
    intros [= <- <-]. by eexists _, _.
  - apply vector_retrieval_listy.
Qed.

Lemma hybrid_retrieval_listy (self : pipeline) (q : str) (entities : pyval) (n : Z) :
  listy (snd (_hybrid_retrieval E self q entities n)).
Proof.
  unfold _hybrid_retrieval.
  pose proof (sql_retrieval_listy self q entities (n / 2)) as (a & b & Ha & _).
  pose proof (vector_retrieval_listy q entities (n / 2)) as (a' & b' & _ & Hb).
  destruct (_sql_retrieval E self q entities (n / 2)) as [s d]. cbn [snd] in *.
  exists a, b'. unfold get_or. rewrite Ha, Hb. done.
Qed.

Lemma listy_set (k : string) (v : pyval) (d : dict) :
  L k <> L "sql_results" -> L k <> L "vector_results" ->
  listy d -> listy (set (L k) v d).
Proof.
  intros H1 H2 (a & b & Ha & Hb). exists a, b. by rewrite !get_set_ne.
Qed.

Lemma count_total_results_listy (d : dict) :
  listy d -> exists n, _count_total_results d = Ret n.
Proof.
  intros (a & b & Ha & Hb). unfold _count_total_results, get_true, get_or.
  rewrite Ha, Hb. cbn [default truthy].
  destruct a, b; cbn; by eexists.
Qed.

Lemma with_stats_listy (d : dict) : listy d -> listy (with_stats E d).
Proof.
  intros H. unfold with_stats. destruct (get_database_stats E); by apply listy_set.
Qed.

(** C3: a query that passes the coverage question and the geographic
    validation and has one of the twenty tokens in its lowercase text is
    retrieved by SQL: the classification the result carries has the SQL
    type and confidence 1.0 whatever the classifier said, and the data
    and the pipeline state are those of [_sql_retrieval]. *)
Theorem forced_sql_retrieval (self : pipeline) (q : str) (m : option Z)
  (c : dict) (v b : pyval) :
  Classifier.classify_query QT (classify_query_type E) q = Ret c ->
  any_in coverage_phrases (lower q) = false ->
  validate_geographic_coverage E q = Ret v ->
  py_item (L "is_valid") v = Ret b -> truthy b = true ->
  any_in force_sql_keywords (lower q) = true ->
  let r := process_query QT E yc self q m in
  let sr := _sql_retrieval E self q (get_or (L "extracted_entities") (PDict []) c)
              (limit_of E m) in
  exists c',
    get (L "success") (snd r) = Some (PBool true)
    /\ get (L "classification") (snd r) = Some (PDict c')
    /\ get (L "query_type") c' = Some (PStr (Classifier.SQL_RETRIEVAL QT))
    /\ get (L "confidence") c' = Some (PFloat (flit 10 1))
    /\ get (L "retrieved_data") (snd r) = Some (PDict (with_stats E (snd sr)))
    /\ fst r = fst sr.
Proof.
  intros Hc Hcov Hv Hb Ht Hf r sr. subst r.
  unfold process_query, process_body. rewrite Hc, Hcov, Hv.
  cbn [mbind res_bind]. rewrite Hb. cbn [mbind res_bind]. rewrite Ht.
  fold (limit_of E m).
  set (c' := forced QT q c).
  assert (get (L "query_type") c' = Some (PStr (Classifier.SQL_RETRIEVAL QT))) as Hq.
  { unfold c', forced. rewrite Hf. rewrite !get_set_ne by done. apply get_set_eq. }
  assert (get (L "confidence") c' = Some (PFloat (flit 10 1))) as Hcf.
  { unfold c', forced. rewrite Hf. rewrite get_set_ne by done. apply get_set_eq. }
  assert (get_or (L "extracted_entities") (PDict []) c'
          = get_or (L "extracted_entities") (PDict []) c) as He.
  { unfold c', forced, get_or. rewrite Hf. by rewrite !get_set_ne. }
  exists c'.
  unfold _retrieve_data, item. rewrite Hq, He.
  cbn [py_eqb]. rewrite str_eqb_refl.
  pose proof (sql_retrieval_listy self q (get_or (L "extracted_entities") (PDict []) c)
                (limit_of E m)) as Hl.
  fold sr in Hl |- *. destruct sr as [s d]. cbn [snd fst] in *.
  fold (with_stats E d). rewrite Hcf.
  destruct (count_total_results_listy _ (with_stats_listy _ Hl)) as [n Hn].
  cbn [mbind res_bind]. rewrite Hn. cbn [mbind res_bind snd fst try_except].
  repeat split; reflexivity.
Qed.

End Orchestrator.
End Orchestrator.

(* ================================================================== *)
(** * The statement recorded with the rows of a result *)
(* ================================================================== *)

Module Recorded.
Import PyStr Re Py PyVal SqlGen Rag Shapes StrFacts DictFacts Templates TextSpec
  TemplateFacts TextFacts SqlSpec SqlChecks RecordSpec RecordedSpec DirectChecks Generated.

Lemma any_in_absent (ws : list str) (s : str) :
  any_in ws s = false -> forall w, In w ws -> ~ occurs w s.
Proof.
  unfold any_in. intros H w Hw Ho. apply contains_occurs in Ho.
  assert (existsb (fun k => contains k s) ws = true) as E
    by (apply existsb_exists; by exists w).
  congruence.
Qed.

Lemma checks_inv (method s : str) :
  sql_checks method s = true ->
  starts_with (first_word method) (strip (lower s)) = true
  /\ occurs (L "from") (lower s)
  /\ (exists table, In table valid_tables /\ occurs table (lower s))
  /\ (forall w, In w (dangerous_words ++ bare_calls) -> ~ occurs w (lower s)).
Proof.
  unfold sql_checks. intros H.
  apply andb_true_iff in H as [H H5]. apply andb_true_iff in H as [H H4].
  apply andb_true_iff in H as [H H3]. apply andb_true_iff in H as [H1 H2].
  apply negb_true_iff in H4, H5.
  split; [done|]. split; [by apply contains_occurs|]. split.
  - by apply any_in_occurs.
  - intros w Hw. apply in_app_iff in Hw as [Hw|Hw].
    + by apply (any_in_absent _ _ H4).
    + by apply (any_in_absent _ _ H5).
Qed.

Lemma limit_ok_true : limit_ok = true.
Proof. by vm_compute. Qed.

Lemma first_word_last (method : str) : last (first_word method) = Some "t"%char.
Proof. unfold first_word. by destruct (str_eqb _ _). Qed.

Lemma starts_with_lstrip (w s : str) :
  starts_with w (strip s) = true -> starts_with w (lstrip s) = true.
Proof.
  unfold strip. intros H. destruct (rstrip_prefix (lstrip s)) as (b & E & _).
  apply starts_with_app in H as [y Hy]. apply starts_with_app.
  exists (y ++ b). by rewrite E at 1; rewrite Hy, <- app_assoc.
Qed.

(** The limit appended to a statement that passes the checks leaves it
    passing them. *)
Lemma append_limit_checked (method s : str) :
  sql_checks method s = true -> sql_checks method (s ++ L " LIMIT 25") = true.
Proof.
  intros H. apply checks_inv in H as (H1 & H2 & (table & Ht & H3) & H4).
  apply checks_intro; rewrite lower_app.
  - apply (starts_with_strip _ _ _ "t"%char);
      [by apply starts_with_lstrip | apply first_word_last | done].
  - by apply occurs_app_l.
  - exists table. split; [done | by apply occurs_app_l].
  - intros w Hw. pose proof limit_ok_true as Hok. unfold limit_ok in Hok.
    apply (forallb_at _ _ w Hok) in Hw as Hw'.
    apply (avoids_after_sound w limit_pieces); [done | by apply H4 |].
    apply fills_end.
Qed.

Lemma limited_checked (g : sqlgen) :
  checked g -> sql_checks (method_of g) (limited g) = true.
Proof.
  unfold checked, limited. intros H. cbv zeta.
  destruct (_ && _); [by apply append_limit_checked | done].
Qed.

Lemma aggregate_calls_listed :
  forallb (fun col =>
             existsb (str_eqb (L "avg(" ++ col ++ L ")")) bare_calls
             && existsb (str_eqb (L "sum(" ++ col ++ L ")")) bare_calls)
    array_columns = true.
Proof. reflexivity. Qed.

(** Under a method other than the year comparison the checks are
    those of [_validate_sql], and more. *)
Lemma checks_validate (method s : str) :
  method <> L "year_comparison_direct" ->
  sql_checks method s = true -> _validate_sql s = true.
Proof.
  intros Hm H. apply checks_inv in H as (H1 & H2 & (table & Ht & H3) & H4).
  unfold first_word in H1. rewrite (str_eqb_false _ _ Hm) in H1.
  unfold _validate_sql. cbv zeta. rewrite H1. cbn [negb].
  rewrite (proj2 (contains_occurs _ _) H2). cbn [negb].
  change [L "argo_profiles"; L "argo_floats"] with valid_tables.
  rewrite (any_in_true _ _ table Ht H3). cbn [negb].
  change [L "drop"; L "delete"; L "insert"; L "update"; L "alter"; L "create"]
    with dangerous_words.
  rewrite any_in_false; [|intros w Hw; apply H4, in_app_iff; by left].
  match goal with |- (if ?b then _ else _) = _ => destruct b eqn:Hb end; [|done].
  exfalso. apply existsb_exists in Hb as (col & Hcol & Hb).
  pose proof (forallb_at _ _ col aggregate_calls_listed Hcol) as Hl. cbv beta in Hl.
  apply andb_true_iff in Hl as [Ha Hs].
  apply existsb_exists in Ha as (wa & Hwa & Ea). apply str_eqb_eq in Ea.
  apply existsb_exists in Hs as (ws & Hws & Es). apply str_eqb_eq in Es.
  apply orb_true_iff in Hb as [Hb|Hb]; apply contains_occurs in Hb.
  - apply (H4 wa); [apply in_app_iff; by right | by rewrite <- Ea].
  - apply (H4 ws); [apply in_app_iff; by right | by rewrite <- Es].
Qed.

Section Recorded.
Context {PF : PyFloat}.
Hypothesis lawful : repr_lawful PF.
Variable QT : Classifier.QueryTypes.
Variable E : env.
Variable yc : str -> list dict -> res pyval.

Lemma ret_inj {A : Type} (a b : A) : Ret a = Ret b -> a = b.
Proof. by intros [= ->]. Qed.

Lemma get_cons (k k' : str) (v : pyval) (d : dict) :
  get k ((k', v) :: d) = if str_eqb k' k then Some v else get k d.
Proof. reflexivity. Qed.

Lemma vector_retrieval_no_rows (q : str) (entities : pyval) (n : Z) :
  get (L "sql_results") (_vector_retrieval E q entities n) = Some (PList []).
Proof.
  unfold _vector_retrieval.
  match goal with |- get _ (try_except ?b ?h) = _ => destruct b as [d|e] eqn:Hb end.
  - revert Hb.
    destruct (semantic_search E q n) as [v1|]; [|done]; cbn [mbind res_bind].
    destruct (_filter_by_geographic_region q v1) as [v2|]; [|done]; cbn [mbind res_bind].
    destruct (additional entities (L "parameters") (search_by_parameter E)) as [v3|];
      [|done]; cbn [mbind res_bind].
    destruct (additional entities (L "regions") (search_by_region E)) as [v4|];
      [|done]; cbn [mbind res_bind].
    destruct (deduplicate n [] [] (v2 ++ v3 ++ v4)) as [v5|]; [|done]; cbn [mbind res_bind].
    by intros [= <-].
  - done.
Qed.

Lemma sql_retrieval_recorded (self : pipeline) (q : str) (entities : pyval) (n : Z)
  (found : list pyval) :
  get (L "sql_results") (snd (_sql_retrieval E self q entities n)) = Some (PList found) ->
  found <> [] -> recorded_checked (snd (_sql_retrieval E self q entities n)).
Proof.
  unfold _sql_retrieval. cbv zeta.
  pose proof (generated_checked lawful (llm_generate E) q) as Hg.
  set (g := generate_sql_from_query (llm_generate E) q) in *.
  destruct (str_eqb (sql_query g) []).
  { cbn [snd]. rewrite vector_retrieval_no_rows. by intros [= <-]. }
  destruct (execute_query E (limited g)) as [sql_results|e]; cbn [mbind res_bind snd].
  - intros _ _. exists (limited g), (method_of g).
    split; [reflexivity|]. split; [reflexivity|]. by apply limited_checked.
  - rewrite vector_retrieval_no_rows. by intros [= <-].
Qed.

Lemma hybrid_retrieval_recorded (self : pipeline) (q : str) (entities : pyval) (n : Z)
  (found : list pyval) :
  get (L "sql_results") (snd (_hybrid_retrieval E self q entities n)) = Some (PList found) ->
  found <> [] -> recorded_checked (snd (_hybrid_retrieval E self q entities n)).
Proof.
  unfold _hybrid_retrieval.
  pose proof (sql_retrieval_recorded self q entities (n / 2) found) as H.
  destruct (_sql_retrieval E self q entities (n / 2)) as [s d]. cbn [snd] in *.
  rewrite get_cons. change (str_eqb (L "sql_results") (L "sql_results")) with true.
  cbv iota. unfold get_or at 1.
  destruct (get (L "sql_results") d) as [v|] eqn:Hv; cbn [default].
  - intros [= ->] Hne. destruct (H eq_refl Hne) as (t & method & Hs & Hm & Hc).
    exists t, method. split; [|split; [|done]].
    + rewrite !get_cons. unfold get_or. by rewrite Hs.
    + rewrite !get_cons. unfold get_or. by rewrite Hm.
  - by intros [= <-].
Qed.

Lemma recorded_set (k : str) (v : pyval) (data : dict) (found : list pyval) :
  k <> L "sql_results" -> k <> L "sql_query" -> k <> L "generation_method" ->
  (get (L "sql_results") data = Some (PList found) -> found <> [] -> recorded_checked data) ->
  get (L "sql_results") (set k v data) = Some (PList found) -> found <> [] ->
  recorded_checked (set k v data).
Proof.
  intros H1 H2 H3 H. rewrite get_set_ne by done. intros Hf Hne.
  destruct (H Hf Hne) as (t & method & Hs & Hm & Hc).
  exists t, method. by rewrite !get_set_ne.
Qed.

Lemma retrieve_data_recorded (self : pipeline) (q : str) (classification : dict) (n : Z)
  (data : dict) (found : list pyval) :
  snd (_retrieve_data QT E self q classification n) = Ret data ->
  get (L "sql_results") data = Some (PList found) -> found <> [] ->
  recorded_checked data.
Proof.
  unfold _retrieve_data. destruct (item (L "query_type") classification) as [query_type|];
    [|done].
  set (entities := get_or (L "extracted_entities") (PDict []) classification).
  assert (forall d : dict,
            (get (L "sql_results") d = Some (PList found) -> found <> [] ->
             recorded_checked d) ->
            forall data,
            Ret (match get_database_stats E with
                 | Ret stats => set (L "database_stats") stats d
                 | Raise e => set (L "error") (PStr e) d
                 end) = Ret data ->
            get (L "sql_results") data = Some (PList found) -> found <> [] ->
            recorded_checked data) as Hstats.
  { intros d Hd data' <-%ret_inj. destruct (get_database_stats E); by apply recorded_set. }
  destruct (py_eqb query_type (PStr (Classifier.SQL_RETRIEVAL QT))).
  { pose proof (sql_retrieval_recorded self q entities n found) as H.
    destruct (_sql_retrieval E self q entities n) as [s d]. cbn [snd] in *.
    by apply Hstats. }
  destruct (py_eqb query_type (PStr (Classifier.VECTOR_RETRIEVAL QT))).
  { cbn [snd]. apply Hstats. rewrite vector_retrieval_no_rows. by intros [= <-]. }
  destruct (py_eqb query_type (PStr (Classifier.HYBRID_RETRIEVAL QT))).
  { pose proof (hybrid_retrieval_recorded self q entities n found) as H.
    destruct (_hybrid_retrieval E self q entities n) as [s d]. cbn [snd] in *.
    by apply Hstats. }
  cbn [snd]. apply Hstats. by intros [= <-].
Qed.

Lemma coverage_answer_keys (d : dict) :
  coverage_answer E = Ret d -> get (L "retrieved_data") d = None.
Proof.
  unfold coverage_answer.
  repeat match goal with
         | |- mbind _ ?x = _ -> _ => destruct x; cbn [mbind res_bind]; [|done]
         end.
  by intros [= <-].
Qed.

Lemma error_response_no_rows (q e : str) (data : dict) (found : list pyval) :
  get (L "retrieved_data") (_create_error_response QT q e) = Some (PDict data) ->
  get (L "sql_results") data = Some (PList found) -> found = [].
Proof. intros [= <-]. by intros [= <-]. Qed.

(** The retrieved data of a result with rows from the database name a
    statement that passes the checks. *)
Lemma process_query_recorded (self : pipeline) (q : str) (m : option Z)
  (data : dict) (found : list pyval) :
  get (L "retrieved_data") (snd (process_query QT E yc self q m)) = Some (PDict data) ->
  get (L "sql_results") data = Some (PList found) -> found <> [] ->
  recorded_checked data.
Proof.
  unfold process_query.
  destruct (process_body QT E yc self q m) as [self' [d|e]] eqn:Hbody; cbn [snd try_except].
  2:{ intros Hd Hf Hne. by destruct (Hne (error_response_no_rows q e data found Hd Hf)). }
  revert Hbody. unfold process_body.
  destruct (Classifier.classify_query QT (classify_query_type E) q) as [classification|];
    [|done].
  destruct (any_in coverage_phrases (lower q)).
  { intros [= _ Hc]. apply coverage_answer_keys in Hc. congruence. }
  match goal with
  | |- (match ?v with _ => _ end) = _ -> _ => destruct v as [[message|]|]; [| |done]
  end.
  { by intros [= _ <-]. }
  pose proof (retrieve_data_recorded self q (forced QT q classification)
                match m with
                | Some n => if (n =? 0)%Z then MAX_SEARCH_RESULTS E else n
                | None => MAX_SEARCH_RESULTS E
                end) as Hr.
  destruct (_retrieve_data QT E self q (forced QT q classification) _)
    as [self'' [retrieved_data|]]; [|done].
  cbn [snd] in Hr.
  destruct (item (L "query_type") (forced QT q classification)); cbn [mbind res_bind];
    [|done].
  destruct (item (L "confidence") (forced QT q classification)); cbn [mbind res_bind];
    [|done].
  destruct (_count_total_results retrieved_data); cbn [mbind res_bind]; [|done].
  intros [= _ <-]. intros [= <-]. by apply Hr.
Qed.


End Recorded.
End Recorded.

(* ================================================================== *)
(** * The theorems at concrete inputs *)
(* ================================================================== *)

Module Witnesses.
Import PyStr Re Py PyVal Dec Rag Classifier SqlGen.
Import PipeSpec FusionSpec GeoSpec SynthSpec Demo FusionDemo.

Lemma forced_sql_retrieval_witness :
  exists c,
    classify_query query_types (classify_query_type world) (L "list floats") = Ret c
    /\ let r := run fresh "list floats" in
       let sr := _sql_retrieval world fresh (L "list floats")
                   (get_or (L "extracted_entities") (PDict []) c)
                   (limit_of world None) in
       exists c',
         get (L "success") (snd r) = Some (PBool true)
         /\ get (L "classification") (snd r) = Some (PDict c')
         /\ get (L "query_type") c' = Some (PStr (SQL_RETRIEVAL query_types))
         /\ get (L "confidence") c' = Some (PFloat (flit 10 1))
         /\ get (L "retrieved_data") (snd r)
            = Some (PDict (with_stats world (snd sr)))
         /\ fst r = fst sr.
Proof.
  eexists. split; [vm_compute; reflexivity|].
  eapply (Orchestrator.forced_sql_retrieval query_types world no_year_comparison fresh
            (L "list floats") None);
    vm_compute; reflexivity.
Defined.

Lemma nearest_floats_direct_witness :
  exists x lat lon,
    search icase coord_pattern nearest_query = Some x
    /\ fparse (group_or_empty 1 x) = Some lat
    /\ fparse (group_or_empty 3 x) = Some lon
    /\ let g := generate_sql_from_query no_llm nearest_query in
       generation_method g = Some (L "nearest_floats_direct")
       /\ llm_prompts no_llm nearest_query = []
       /\ sql_query g
          = nearest_floats_sql (frepr (signed "N" (group_or_empty 2 x) lat))
              (frepr (signed "E" (group_or_empty 4 x) lon))
       /\ forallb (fun w => contains w (sql_query g)) nearest_clauses = true.
Proof.
  eexists _, _, _. split; [vm_compute; reflexivity|].
  split; [vm_compute; reflexivity|]. split; [vm_compute; reflexivity|].
  eapply (Synth.nearest_floats_direct no_llm nearest_query); vm_compute; reflexivity.
Defined.

Lemma fusion_step_witness :
  exists d ents,
    _combine_classifications query_types rule_result (PDict reply) query = Ret d
    /\ (L "sql_retrieval" = L "sql_retrieval" ->
        get (L "query_type") d = Some (PStr (L "sql_retrieval"))
        /\ get (L "confidence") d = Some (PFloat (fmax (dlit 7 1) (dlit 95 2))))
    /\ (L "sql_retrieval" <> L "sql_retrieval" ->
        get (L "query_type") d = Some (PStr (L "sql_retrieval"))
        /\ get (L "confidence") d = Some (PFloat (fmin (flit 7 1) (dlit 95 2))))
    /\ get (L "extracted_entities") d = Some (PDict ents)
    /\ forall k, get k ents = merged rule_entities reply_entities k.
Proof.
  apply (Fusion.fusion_step query_types rule_result reply query (dlit 7 1) (dlit 95 2)
           (L "sql_retrieval") (L "sql_retrieval") rule_entities reply_entities);
    try (vm_compute; reflexivity).
  intros v. vm_compute. intros [= <-]. by eexists.
Defined.

(** C7 as stated fails: the LLM lists salinity among the parameters, the
    rules list temperature, and the merged entities list temperature
    alone. *)
Lemma fusion_entities_not_union :
  exists d ents,
    _combine_classifications query_types rule_result (PDict reply) query = Ret d
    /\ get (L "extracted_entities") d = Some (PDict ents)
    /\ mentions reply_entities (L "parameters") (PStr (L "salinity"))
    /\ ~ mentions ents (L "parameters") (PStr (L "salinity")).
Proof.
  eexists _, _. split; [vm_compute; reflexivity|]. split; [reflexivity|]. split.
  - eexists. split; [reflexivity|]. by left.
  - intros (l & Hl & Hin). vm_compute in Hl. injection Hl as <-.
    destruct Hin as [H|[]]. discriminate H.
Qed.

Lemma geographic_filter_retention_witness :
  exists r out,
    Rag.matching_region (lower (L "floats in the bay of bengal")) = Some r
    /\ _filter_by_geographic_region (L "floats in the bay of bengal") hits = Ret out
    /\ exists strict,
         filter_loop r Keep hits = Ret strict
         /\ (forall hit, In hit hits -> bare_hit hit \/ unparseable_hit hit ->
               In hit strict /\ In hit out)
         /\ (forall hit, In hit hits -> ~ In hit strict -> outside r hit)
         /\ (strict <> [] -> out = strict)
         /\ (strict = [] -> forall hit, In hit hits -> outside r hit).
Proof.
  eexists _, _. split; [vm_compute; reflexivity|]. split; [vm_compute; reflexivity|].
  apply (GeoFilter.geographic_filter_retention (L "floats in the bay of bengal"));
    vm_compute; reflexivity.
Defined.

(** C8, at a row in the south and the west: the parameter and the
    trajectory formatters print the signed numbers before N and E, where
    the data formatter prints the same row with S and W. *)
Theorem signed_coordinates_printed :
  (exists t, _generate_parameter_response (L "q") [south_west_row] (L "SQL database") = Ret t
             /\ contains (L "-10.500" ++ [deg] ++ L "N, -20.250" ++ [deg] ++ L "E") t = true)
  /\ (exists t, _generate_trajectory_response (L "q")
                  [hit "a" (PStr (L "-12.5")) (PStr (L "-85"))] (L "vector search") = Ret t
                /\ contains (L "-12.500" ++ [deg] ++ L "N, -85.000" ++ [deg] ++ L "E") t = true)
  /\ (exists t, _generate_raw_data_response fresh (L "q") [south_west_row]
                  (L "SQL database") [] = Ret t
                /\ contains (L "10.500" ++ [deg] ++ L "S, 20.250" ++ [deg] ++ L "W") t = true
                /\ contains (L "-10.500") t = false).
Proof.
  split; [|split]; eexists; (split; [vm_compute; reflexivity|]); by vm_compute.
Qed.

(** C9, at two queries: the second query's retrieval is the same after
    the first as alone, but its answer then reports the first query's
    count of 1,234 records instead of its own 3. *)
Theorem stale_count_in_next_answer :
  let alone := snd (run fresh "show salinity in the bay of bengal") in
  let after := snd (run (fst (run fresh "list floats"))
                      "show salinity in the bay of bengal") in
  get (L "retrieved_data") alone = get (L "retrieved_data") after
  /\ contains (L "(3 records found)") (answer alone) = true
  /\ contains (L "(1,234 records found)") (answer after) = true
  /\ str_eqb (answer alone) (answer after) = false.
Proof. by vm_compute. Qed.

End Witnesses.

(* ================================================================== *)
(** * Replies of the LLM, run *)
(* ================================================================== *)

Module PostWitness.
Import PyStr Re Py SqlGen Shapes Dec PostSpec.

Lemma cleaned_aggregates_rewritten_witness :
  contains (surface (L "AVG") (L "temperature"))
    (postprocess location_query (_clean_sql_response fenced_reply)) = true
  /\ contains (bare (L "AVG") (L "temperature"))
       (postprocess location_query (_clean_sql_response fenced_reply)) = false
  /\ forall llm g,
       llm (L "Generate SQL for: " ++ location_query) = Ret fenced_reply ->
       intelligent_llm llm location_query = Ret g ->
       sql_query g = postprocess location_query (_clean_sql_response fenced_reply).
Proof.
  apply (@PostProcess.cleaned_aggregates_rewritten dec_float);
    [left; reflexivity | left; reflexivity | vm_compute; reflexivity].
Defined.

(** The aggregate stands in the reply of the LLM, in a comment line; the
    statement returned for it is the one of the LLM path and has no
    aggregate at all. *)
Lemma comment_line_aggregate_dropped :
  contains (bare (L "AVG") (L "temperature")) commented_reply = true
  /\ generation_method
       (generate_sql_from_query (fun _ => Ret commented_reply) average_query)
     = Some (L "intelligent_llm")
  /\ sql_query (generate_sql_from_query (fun _ => Ret commented_reply) average_query)
     = L "SELECT float_id FROM argo_profiles"
  /\ contains (surface (L "AVG") (L "temperature"))
       (sql_query (generate_sql_from_query (fun _ => Ret commented_reply) average_query))
     = false.
Proof. vm_compute. repeat split. Qed.

End PostWitness.

(* ================================================================== *)
(** * Recorded statements, run *)
(* ================================================================== *)

Module RecordedWitness.
Import PyStr Re Py PyVal Dec Rag Classifier SqlGen SqlSpec SqlChecks RecordedSpec Demo.

Lemma digits_float_chars (s : str) :
  forallb is_digit s = true -> forallb float_char s = true.
Proof.
  intros H. apply forallb_forall. intros c Hc. unfold float_char.
  by rewrite (proj1 (forallb_forall _ _) H c Hc).
Qed.

Lemma str_of_N_float_chars (n : N) : forallb float_char (str_of_N n) = true.
Proof. apply digits_float_chars. unfold str_of_N. by apply digits_fuel_digits. Qed.

Lemma padded_float_chars (k : nat) (n : N) : forallb float_char (padded k n) = true.
Proof.
  unfold padded. cbv zeta. apply forallb_app'; [|apply str_of_N_float_chars].
  induction (k - length (str_of_N n)) as [|j IH]; [done|]. cbn [replicate forallb].
  by rewrite IH.
Qed.

(** The decimal floats print with the characters of a float. *)
Lemma dec_lawful : repr_lawful dec_float.
Proof.
  intros x. cbn [frepr dec_float]. unfold drepr. cbv zeta.
  apply forallb_app'; [unfold sign_text; by destruct (neg _)|].
  apply forallb_app'; [apply str_of_N_float_chars|].
  apply forallb_app'; [done|].
  destruct (scale (norm x)); [done | apply padded_float_chars].
Qed.



End RecordedWitness.
